(** * LINE bot blog publisher: conversation engine and image pipeline

    A shallow embedding of the TypeScript sources
      - linebot/src/types            (steps, post data, error classes)
      - linebot/src/session/storage  (createIdleState, updateStateStep)
      - linebot/src/conversation/flow      (ConversationFlow)
      - linebot/src/conversation/processor (MessageProcessor)
      - linebot/src/conversation/manager   (ConversationManager)
      - linebot/src/image/processor        (BaseImageProcessor)
    followed by the properties established about them.

    JavaScript strings are sequences of UTF-16 code units; they are modelled
    as [list N].  Thrown exceptions are modelled by an explicit result type.
    External collaborators (sharp, the LINE client, the temporary image store,
    the session store, the clock) are parameters of the definitions. *)

From Stdlib Require Import ZArith NArith Ascii String.
From stdpp Require Import base option list gmap.

Local Open Scope N_scope.

(* ===================================================================== *)
(** ** JavaScript strings *)
(* ===================================================================== *)

Module JS.

(** A string value: its UTF-16 code units. *)
Abbreviation jsstring := (list N).

(** *** Literals

    The source file is UTF-8; [js] decodes a literal into the code units the
    TypeScript compiler gives the same literal. *)

Fixpoint bytes_of_string (s : string) : list N :=
  match s with
  | EmptyString => []
  | String a r => N_of_ascii a :: bytes_of_string r
  end.

(** Decoder state: continuation bytes still expected, bits collected so far,
    code points emitted (most recent first). *)
Definition utf8_step (st : nat * N * list N) (b : N) : nat * N * list N :=
  let '(need, cp, out) := st in
  match need with
  | O =>
      if b <? 128 then (O, 0, b :: out)
      else if b <? 224 then (1%nat, N.land b 31, out)
      else if b <? 240 then (2%nat, N.land b 15, out)
      else (3%nat, N.land b 7, out)
  | S k =>
      let cp' := cp * 64 + N.land b 63 in
      match k with
      | O => (O, 0, cp' :: out)
      | _ => (k, cp', out)
      end
  end.

Definition utf8_decode (bs : list N) : list N :=
  rev (snd (fold_left utf8_step bs (O, 0, []))).

(** One code point as one or two UTF-16 code units. *)
Definition utf16_units (cp : N) : list N :=
  if cp <? 65536 then [cp]
  else let c := cp - 65536 in [55296 + c / 1024; 56320 + c mod 1024].

Definition js (s : string) : jsstring :=
  flat_map utf16_units (utf8_decode (bytes_of_string s)).
Arguments js s%_string : simpl never.

(** Line feed and the double quote, which the literals below splice in. *)
Definition LF : jsstring := [10].
Definition DQUOTE : jsstring := [34].

(** *** Equality, membership, search *)

(** [a === b] on strings. *)
Definition str_eqb (a b : jsstring) : bool := bool_decide (a = b).

(** [Array.prototype.includes] on an array of strings. *)
Definition array_includes (xs : list jsstring) (x : jsstring) : bool :=
  existsb (str_eqb x) xs.

(** [String.prototype.startsWith]. *)
Fixpoint startsWith (s p : jsstring) : bool :=
  match p, s with
  | [], _ => true
  | _ :: _, [] => false
  | c :: p', d :: s' => (c =? d) && startsWith s' p'
  end.

(** [String.prototype.includes]: the needle occurs at some offset. *)
Fixpoint str_includes (s needle : jsstring) : bool :=
  startsWith s needle ||
  match s with
  | [] => false
  | _ :: s' => str_includes s' needle
  end.

(** [String.prototype.substring(n)] and [substring(0, n)]. *)
Definition substring_from (n : nat) (s : jsstring) : jsstring := drop n s.
Definition substring_to (n : nat) (s : jsstring) : jsstring := take n s.

(** *** Whitespace and trim

    ECMAScript WhiteSpace and LineTerminator code points, all in the BMP. *)
Definition isWhiteSpace (c : N) : bool :=
  (c =? 9) || (c =? 10) || (c =? 11) || (c =? 12) || (c =? 13) || (c =? 32) ||
  (c =? 160) || (c =? 5760) || ((8192 <=? c) && (c <=? 8202)) ||
  (c =? 8232) || (c =? 8233) || (c =? 8239) || (c =? 8287) ||
  (c =? 12288) || (c =? 65279).

Fixpoint trimStart (s : jsstring) : jsstring :=
  match s with
  | [] => []
  | c :: s' => if isWhiteSpace c then trimStart s' else s
  end.

Definition trimEnd (s : jsstring) : jsstring := rev (trimStart (rev s)).

(** [String.prototype.trim]. *)
Definition trim (s : jsstring) : jsstring := trimEnd (trimStart s).

(** *** split and join *)

(** [s.split(',')] for a one-unit separator: always at least one piece. *)
Fixpoint split_on (sep : N) (s : jsstring) : list jsstring :=
  match s with
  | [] => [[]]
  | c :: s' =>
      if c =? sep then [] :: split_on sep s'
      else match split_on sep s' with
           | [] => [[c]]
           | piece :: rest => (c :: piece) :: rest
           end
  end.

(** [xs.join(sep)]. *)
Fixpoint join (sep : jsstring) (xs : list jsstring) : jsstring :=
  match xs with
  | [] => []
  | [x] => x
  | x :: rest => x ++ sep ++ join sep rest
  end.

(** *** Numbers *)

(** Value of a code unit as a digit in radix up to 36, as [parseInt] reads
    it. *)
Definition digit_value (c : N) : option N :=
  if (48 <=? c) && (c <=? 57) then Some (c - 48)
  else if (97 <=? c) && (c <=? 122) then Some (c - 97 + 10)
  else if (65 <=? c) && (c <=? 90) then Some (c - 65 + 10)
  else None.

(** Longest prefix of radix-[r] digits, accumulated left to right; [None]
    when the prefix is empty. *)
Fixpoint parse_digits (r : N) (acc : option N) (s : jsstring) : option N :=
  match s with
  | [] => acc
  | c :: s' =>
      match digit_value c with
      | Some d =>
          if d <? r then parse_digits r (Some (default 0 acc * r + d)) s'
          else acc
      | None => acc
      end
  end.

(** [parseInt(s)] with the radix argument absent: leading whitespace is
    skipped, an optional sign is read, a [0x]/[0X] prefix selects radix 16,
    and the longest digit prefix gives the value; [None] is NaN.  The value
    is kept exact: the source only compares it with array bounds, and
    rounding to a double is monotone. *)
Definition parseInt (s : jsstring) : option Z :=
  let s1 := trimStart s in
  let '(neg, s2) :=
    match s1 with
    | 45 :: r => (true, r)
    | 43 :: r => (false, r)
    | _ => (false, s1)
    end in
  let '(radix, s3) :=
    match s2 with
    | 48 :: 120 :: r => (16, r)
    | 48 :: 88 :: r => (16, r)
    | _ => (10, s2)
    end in
  match parse_digits radix None s3 with
  | None => None
  | Some n => Some (if neg then (- Z.of_N n)%Z else Z.of_N n)
  end.

(** Decimal digits of a natural number, most significant first. *)
Fixpoint decimal_digits (fuel : nat) (n : N) (acc : jsstring) : jsstring :=
  match fuel with
  | O => acc
  | S k =>
      let acc' := (48 + n mod 10) :: acc in
      if n <? 10 then acc' else decimal_digits k (n / 10) acc'
  end.

(** [String(n)] for a non-negative integer. *)
Definition string_of_N (n : N) : jsstring :=
  decimal_digits (S (N.to_nat (N.log2 n))) n [].

(** [String(z)] for an integer. *)
Definition string_of_Z (z : Z) : jsstring :=
  match z with
  | Zneg p => 45 :: string_of_N (Npos p)
  | _ => string_of_N (Z.to_N z)
  end.

(** The two locale-independent case mappings the sources call.  They are
    kept abstract: the Unicode tables are not part of this code base. *)
Record Runtime := {
  toLowerCase : jsstring -> jsstring;
  toUpperCase : jsstring -> jsstring
}.

(** Case mapping of the ASCII letters only; it coincides with the built-in
    one on every string whose cased characters are ASCII. *)
Definition ascii_lower (s : jsstring) : jsstring :=
  map (fun c => if (65 <=? c) && (c <=? 90) then c + 32 else c) s.
Definition ascii_upper (s : jsstring) : jsstring :=
  map (fun c => if (97 <=? c) && (c <=? 122) then c - 32 else c) s.
Definition ascii_runtime : Runtime :=
  {| toLowerCase := ascii_lower; toUpperCase := ascii_upper |}.

End JS.

Import JS.

(* ===================================================================== *)
(** ** types: steps, post data, conversation state, errors *)
(* ===================================================================== *)

Module Types.

(** [enum ConversationStep]. *)
Inductive ConversationStep :=
  | IDLE
  | WAITING_TITLE
  | WAITING_CONTENT
  | WAITING_IMAGE
  | WAITING_TAGS
  | CONFIRMING.

Global Instance ConversationStep_eq_dec : EqDecision ConversationStep.
Proof. solve_decision. Defined.

(** The string value of each enum member, as interpolated in messages. *)
Definition step_value (s : ConversationStep) : jsstring :=
  match s with
  | IDLE => js "idle"
  | WAITING_TITLE => js "waiting_title"
  | WAITING_CONTENT => js "waiting_content"
  | WAITING_IMAGE => js "waiting_image"
  | WAITING_TAGS => js "waiting_tags"
  | CONFIRMING => js "confirming"
  end.

(** [interface PostData]: optional fields are [option]. *)
Record PostData := mkPostData {
  title : option jsstring;
  content : option jsstring;
  imageUrl : option jsstring;
  imagePath : option jsstring;
  tags : list jsstring
}.

(** [Partial<PostData>]: a field is [Some] when the object literal has it. *)
Record PostDataUpdates := mkUpdates {
  u_title : option jsstring;
  u_content : option jsstring;
  u_imageUrl : option jsstring;
  u_imagePath : option jsstring;
  u_tags : option (list jsstring)
}.

Definition no_updates : PostDataUpdates := mkUpdates None None None None None.

(** [interface ConversationState]; dates are epoch milliseconds. *)
Record ConversationState := mkState {
  step : ConversationStep;
  data : PostData;
  createdAt : Z;
  updatedAt : Z
}.

(** The error classes of the code base; [PlainError] is the built-in
    [Error]. *)
Inductive ErrorClass :=
  | PlainError
  | ValidationErrorClass
  | ProcessingErrorClass
  | ExternalServiceErrorClass.

Global Instance ErrorClass_eq_dec : EqDecision ErrorClass.
Proof. solve_decision. Defined.

(** An [Error] object: [name], [message], and the two [LineBotError]
    fields. *)
Record JsError := mkError {
  err_class : ErrorClass;
  err_name : jsstring;
  err_message : jsstring;
  err_code : option jsstring;
  err_userMessage : option jsstring
}.

(** [new Error(message)]. *)
Definition new_Error (message : jsstring) : JsError :=
  mkError PlainError (js "Error") message None None.

(** [new ValidationError(message, userMessage)]: the [LineBotError]
    constructor sets [name] to ['LineBotError']. *)
Definition new_ValidationError (message userMessage : jsstring) : JsError :=
  mkError ValidationErrorClass (js "LineBotError") message
          (Some (js "VALIDATION_ERROR")) (Some userMessage).

(** [new ProcessingError(message, userMessage)]. *)
Definition new_ProcessingError (message userMessage : jsstring) : JsError :=
  mkError ProcessingErrorClass (js "LineBotError") message
          (Some (js "PROCESSING_ERROR")) (Some userMessage).

(** What a [throw] carries: an [Error] instance, or any other value, of
    which only its string rendering is observed. *)
Inductive Thrown :=
  | ThrownError (e : JsError)
  | ThrownValue (rendering : jsstring).

(** [error instanceof ValidationError], [... ProcessingError]. *)
Definition instanceof (c : ErrorClass) (t : Thrown) : bool :=
  match t with
  | ThrownError e => bool_decide (err_class e = c)
  | ThrownValue _ => false
  end.

(** [error instanceof Error ? error.message : 'Unknown error']. *)
Definition message_or_unknown (t : Thrown) : jsstring :=
  match t with
  | ThrownError e => err_message e
  | ThrownValue _ => js "Unknown error"
  end.

(** [`${error}`]: [Error.prototype.toString] for error objects. *)
Definition string_of_thrown (t : Thrown) : jsstring :=
  match t with
  | ThrownError e =>
      match err_name e, err_message e with
      | [], m => m
      | n, [] => n
      | n, m => n ++ js ": " ++ m
      end
  | ThrownValue r => r
  end.

(** Outcome of a call that may throw. *)
Inductive Result (A : Type) :=
  | Ok (a : A)
  | Throw (t : Thrown).
Arguments Ok {A} a.
Arguments Throw {A} t.

Global Instance Result_ret : MRet Result := fun A a => Ok a.

Global Instance Result_bind : MBind Result := fun A B k r =>
  match r with
  | Ok a => k a
  | Throw t => Throw t
  end.

(** [try { body } catch (error) { handler(error) }]. *)
Definition try_catch {A} (body : Result A) (handler : Thrown -> Result A)
  : Result A :=
  match body with
  | Ok a => Ok a
  | Throw t => handler t
  end.

(** The parts of [interface Config] the conversation engine reads. *)
Record Config := mkConfig {
  blog_baseUrl : jsstring;
  blog_availableTags : list jsstring
}.

(** [interface LineMessage]; [MOther] is a type outside the declared
    union, which the webhook can still deliver. *)
Inductive MessageType := MText | MImage | MOther.

Global Instance MessageType_eq_dec : EqDecision MessageType.
Proof. solve_decision. Defined.

Record LineMessage := mkMessage {
  msg_type : MessageType;
  msg_text : option jsstring;
  msg_id : option jsstring
}.

End Types.

Import Types.

(* ===================================================================== *)
(** ** session/storage: state constructors *)
(* ===================================================================== *)

Module Storage.

(** [createIdleState()]; [now] is the value of [new Date()]. *)
Definition createIdleState (now : Z) : ConversationState :=
  {| step := IDLE;
     data := mkPostData None None None None [];
     createdAt := now;
     updatedAt := now |}.

(** [{ ...currentState.data, ...dataUpdates }]. *)
Definition merge_data (d : PostData) (u : PostDataUpdates) : PostData :=
  {| title := match u_title u with Some v => Some v | None => title d end;
     content := match u_content u with Some v => Some v | None => content d end;
     imageUrl := match u_imageUrl u with Some v => Some v | None => imageUrl d end;
     imagePath := match u_imagePath u with Some v => Some v | None => imagePath d end;
     tags := match u_tags u with Some v => v | None => tags d end |}.

(** [updateStateStep(currentState, newStep, dataUpdates)]. *)
Definition updateStateStep (now : Z) (currentState : ConversationState)
    (newStep : ConversationStep) (dataUpdates : PostDataUpdates)
  : ConversationState :=
  {| step := newStep;
     data := merge_data (data currentState) dataUpdates;
     createdAt := createdAt currentState;
     updatedAt := now |}.

End Storage.

(* ===================================================================== *)
(** ** conversation/flow: ConversationFlow *)
(* ===================================================================== *)

Module ConversationFlow.

Definition createInitialState (now : Z) : ConversationState :=
  Storage.createIdleState now.

(** The [validTransitions] table; every enum member is a key. *)
Definition validTransitions (from : ConversationStep) : list ConversationStep :=
  match from with
  | IDLE => [WAITING_TITLE]
  | WAITING_TITLE => [WAITING_CONTENT; IDLE]
  | WAITING_CONTENT => [WAITING_IMAGE; IDLE]
  | WAITING_IMAGE => [WAITING_TAGS; IDLE]
  | WAITING_TAGS => [CONFIRMING; IDLE]
  | CONFIRMING => [IDLE]
  end.

(** [validTransitions[from]?.includes(to) ?? false]. *)
Definition isValidTransition (from to : ConversationStep) : bool :=
  existsb (fun s => bool_decide (s = to)) (validTransitions from).

(** [flowOrder[currentStep] ?? null]. *)
Definition getNextStep (currentStep : ConversationStep)
  : option ConversationStep :=
  match currentStep with
  | IDLE => Some WAITING_TITLE
  | WAITING_TITLE => Some WAITING_CONTENT
  | WAITING_CONTENT => Some WAITING_IMAGE
  | WAITING_IMAGE => Some WAITING_TAGS
  | WAITING_TAGS => Some CONFIRMING
  | CONFIRMING => Some IDLE
  end.

Definition invalid_transition (from to : ConversationStep) : Thrown :=
  ThrownError (new_Error (js "Invalid transition from " ++ step_value from ++
                          js " to " ++ step_value to)).

Definition transitionToNext (now : Z) (currentState : ConversationState)
    (dataUpdates : PostDataUpdates) : Result ConversationState :=
  match getNextStep (step currentState) with
  | None =>
      Throw (ThrownError (new_Error (js "No next step available from " ++
                                     step_value (step currentState))))
  | Some nextStep =>
      if negb (isValidTransition (step currentState) nextStep)
      then Throw (invalid_transition (step currentState) nextStep)
      else Ok (Storage.updateStateStep now currentState nextStep dataUpdates)
  end.

Definition transitionTo (now : Z) (currentState : ConversationState)
    (targetStep : ConversationStep) (dataUpdates : PostDataUpdates)
  : Result ConversationState :=
  if negb (isValidTransition (step currentState) targetStep)
  then Throw (invalid_transition (step currentState) targetStep)
  else Ok (Storage.updateStateStep now currentState targetStep dataUpdates).

Definition canCancel (s : ConversationStep) : bool :=
  negb (bool_decide (s = IDLE)).

(** [!!x] for an optional string: present and not empty. *)
Definition truthy (o : option jsstring) : bool :=
  match o with
  | Some (_ :: _) => true
  | _ => false
  end.

Definition isConversationComplete (state : ConversationState) : bool :=
  bool_decide (step state = CONFIRMING) &&
  truthy (title (data state)) &&
  truthy (content (data state)) &&
  truthy (imageUrl (data state)) &&
  (0 <? length (tags (data state)))%nat.

(** [requirements[step] || []]. *)
Definition getRequiredDataForStep (s : ConversationStep) : list jsstring :=
  match s with
  | IDLE => []
  | WAITING_TITLE => []
  | WAITING_CONTENT => [js "title"]
  | WAITING_IMAGE => [js "title"; js "content"]
  | WAITING_TAGS => [js "title"; js "content"; js "imageUrl"]
  | CONFIRMING => [js "title"; js "content"; js "imageUrl"; js "tags"]
  end.

(** [state.data[field]] for a field other than [tags]: the optional string
    of that name, [undefined] for any other name. *)
Definition data_field (d : PostData) (field : jsstring) : option jsstring :=
  if str_eqb field (js "title") then title d
  else if str_eqb field (js "content") then content d
  else if str_eqb field (js "imageUrl") then imageUrl d
  else if str_eqb field (js "imagePath") then imagePath d
  else None.

(** The result of [validateStateData]. *)
Record StateValidation := mkStateValidation {
  isValid : bool;
  missingFields : list jsstring
}.

(** One turn of the loop over the required fields. *)
Definition check_field (state : ConversationState) (missing : list jsstring)
    (field : jsstring) : list jsstring :=
  if str_eqb field (js "tags") then
    if (length (tags (data state)) =? 0)%nat then missing ++ [field]
    else missing
  else if negb (truthy (data_field (data state) field)) then missing ++ [field]
  else missing.

Definition validateStateData (state : ConversationState) : StateValidation :=
  let required := getRequiredDataForStep (step state) in
  let missingFields := fold_left (check_field state) required [] in
  {| isValid := (length missingFields =? 0)%nat;
     missingFields := missingFields |}.

End ConversationFlow.

(* ===================================================================== *)
(** ** image/processor: BaseImageProcessor *)
(* ===================================================================== *)

Module ImageProcessor.

(** A Node [Buffer]: its bytes. *)
Abbreviation Buffer := (list Byte.byte).

(** What [sharp(buffer).metadata()] resolves to; each field may be
    missing. *)
Record Metadata := mkMetadata {
  md_format : option jsstring;
  md_width : option Z;
  md_height : option Z
}.

(** [interface ImageValidationResult]. *)
Record ImageValidationResult := mkValidation {
  isValid : bool;
  mimeType : jsstring;
  width : Z;
  height : Z;
  size : Z;
  format : jsstring
}.

(** [interface ProcessedImage]. *)
Record ProcessedImage := mkProcessed {
  buffer : Buffer;
  filename : jsstring;
  relativePath : jsstring;
  tempStorageKey : jsstring;
  pi_mimeType : jsstring;
  pi_size : Z
}.

(** The [fit] option of sharp's [resize]. *)
Inductive FitMode := Cover | Contain | Fill | Inside | Outside.

(** The arguments of [.resize(width, height, { fit, withoutEnlargement })]. *)
Record ResizeOptions := mkResize {
  rs_width : Z;
  rs_height : Z;
  rs_fit : FitMode;
  rs_withoutEnlargement : bool
}.

(** The readings of one [new Date()]. *)
Record Date := mkDate {
  toISOString : jsstring;
  getFullYear : Z;
  getMonth : Z
}.

(** The collaborators of the processor: sharp, the abstract upload method
    of the subclass, the clock and [Math.random().toString(36)]. *)
Record Env := mkEnv {
  sharp_metadata : Buffer -> Result Metadata;
  (** [sharp(b).resize(..).jpeg({ quality }).toBuffer()] *)
  sharp_resize_jpeg : Buffer -> ResizeOptions -> Z -> Result Buffer;
  uploadToTempStorage : Buffer -> jsstring -> Result jsstring;
  date_filename : Date;
  date_path : Date;
  random_base36 : jsstring
}.

Definition maxFileSize : Z := 10 * 1024 * 1024.
Definition maxWidth : Z := 2048.
Definition maxHeight : Z := 2048.
Definition supportedFormats : list jsstring :=
  [js "jpeg"; js "jpg"; js "png"; js "webp"; js "gif"].

(** [!metadata.format]: missing or empty. *)
Definition falsy_string (o : option jsstring) : bool :=
  match o with
  | None | Some [] => true
  | Some _ => false
  end.

(** [!metadata.width]: missing or zero. *)
Definition falsy_number (o : option Z) : bool :=
  match o with
  | None | Some 0%Z => true
  | Some _ => false
  end.

Section Processor.

Variable rt : Runtime.
Variable env : Env.

Definition validateImage (imageBuffer : Buffer) : Result ImageValidationResult :=
  try_catch
    (metadata ← sharp_metadata env imageBuffer;
     if falsy_string (md_format metadata) || falsy_number (md_width metadata)
        || falsy_number (md_height metadata)
     then Throw (ThrownError (new_ValidationError
                   (js "Invalid image metadata")
                   (js "画像の形式を読み取れませんでした。")))
     else
       let format := toLowerCase rt (default [] (md_format metadata)) in
       let isValidFormat := array_includes supportedFormats format in
       if negb isValidFormat
       then Throw (ThrownError (new_ValidationError
                     (js "Unsupported image format: " ++ format)
                     (js "サポートされていない画像形式です: " ++ toUpperCase rt format)))
       else
         let size := Z.of_nat (length imageBuffer) in
         if (size >? maxFileSize)%Z
         then Throw (ThrownError (new_ValidationError
                       (js "Image file too large: " ++ string_of_Z size ++ js " bytes")
                       (js "画像ファイルが大きすぎます。最大" ++
                        string_of_Z (maxFileSize / 1024 / 1024) ++
                        js "MBまでです。")))
         else
           Ok {| isValid := true;
                 mimeType := js "image/" ++
                             (if str_eqb format (js "jpg") then js "jpeg" else format);
                 width := default 0%Z (md_width metadata);
                 height := default 0%Z (md_height metadata);
                 size := size;
                 format := format |})
    (fun error =>
       if instanceof ValidationErrorClass error then Throw error
       else Throw (ThrownError (new_ValidationError
                     (js "Image validation failed: " ++ message_or_unknown error)
                     (js "画像の検証に失敗しました。")))).

(** The guard of [resizeImageIfNeeded]: true when the buffer is returned as
    it is. *)
Definition fitsWithinLimits (validation : ImageValidationResult) : bool :=
  (width validation <=? maxWidth)%Z && (height validation <=? maxHeight)%Z.

Definition resizeImageIfNeeded (imageBuffer : Buffer)
    (validation : ImageValidationResult) : Result Buffer :=
  if fitsWithinLimits validation then Ok imageBuffer
  else
    try_catch
      (sharp_resize_jpeg env imageBuffer
         {| rs_width := maxWidth; rs_height := maxHeight;
            rs_fit := Inside; rs_withoutEnlargement := true |}
         85%Z)
      (fun error =>
         Throw (ThrownError (new_ProcessingError
                  (js "Image resize failed: " ++ message_or_unknown error)
                  (js "画像のリサイズに失敗しました。")))).

(** [s.replace(/[:.]/g, '-')]. *)
Definition replace_colon_dot (s : jsstring) : jsstring :=
  map (fun c => if (c =? 58) || (c =? 46) then 45 else c) s.

Definition generateFilename (originalFormat : option jsstring) : jsstring :=
  let timestamp := replace_colon_dot (toISOString (date_filename env)) in
  let randomSuffix := take 6 (drop 2 (random_base36 env)) in
  let extension :=
    match originalFormat with
    | Some f => if str_eqb f (js "jpg") then js "jpeg"
                else if falsy_string (Some f) then js "jpeg" else f
    | None => js "jpeg"
    end in
  timestamp ++ js "-" ++ randomSuffix ++ js "." ++ extension.

(** [String(n).padStart(2, '0')]. *)
Definition padStart2 (s : jsstring) : jsstring :=
  match s with
  | [] => js "00"
  | [c] => 48 :: [c]
  | _ => s
  end.

Definition generateImagePath (originalName : option jsstring) : jsstring :=
  let date := date_path env in
  let year := getFullYear date in
  let month := padStart2 (string_of_Z (getMonth date + 1)) in
  let filename :=
    if falsy_string originalName then generateFilename None
    else default [] originalName in
  js "source/images/" ++ string_of_Z year ++ js "/" ++ month ++ js "/" ++ filename.

(** [processImage].  [processedBuffer !== imageBuffer] compares references:
    the resize branch always allocates a fresh buffer, so the test holds
    exactly when the guard of [resizeImageIfNeeded] failed. *)
Definition processImage (imageBuffer : Buffer) : Result ProcessedImage :=
  try_catch
    (validation ← validateImage imageBuffer;
     processedBuffer ← resizeImageIfNeeded imageBuffer validation;
     let filename := generateFilename (Some (format validation)) in
     let relativePath := generateImagePath (Some filename) in
     tempStorageKey ← uploadToTempStorage env processedBuffer filename;
     finalValidation ←
       (if negb (fitsWithinLimits validation)
        then validateImage processedBuffer
        else Ok validation);
     Ok {| buffer := processedBuffer;
           filename := filename;
           relativePath := relativePath;
           tempStorageKey := tempStorageKey;
           pi_mimeType := mimeType finalValidation;
           pi_size := size finalValidation |})
    (fun error =>
       if instanceof ValidationErrorClass error
          || instanceof ProcessingErrorClass error
       then Throw error
       else Throw (ThrownError (new_ProcessingError
                     (js "Image processing failed: " ++ message_or_unknown error)
                     (js "画像の処理に失敗しました。")))).

End Processor.

End ImageProcessor.

(* ===================================================================== *)
(** ** conversation/processor: MessageProcessor *)
(* ===================================================================== *)

Module MessageProcessor.

Import ImageProcessor.

(** [interface ProcessingResult]. *)
Record ProcessingResult := mkResult {
  nextState : option ConversationState;
  responseMessage : option jsstring
}.

(** [{ responseMessage }]: a reply that leaves the state alone. *)
Definition reply_only (m : jsstring) : ProcessingResult :=
  {| nextState := None; responseMessage := Some m |}.

(** What the processor is constructed with and calls out to. *)
Record Deps := mkDeps {
  config : Config;
  (** [lineClient.downloadImage] *)
  downloadImage : jsstring -> Result Buffer;
  (** the collaborators of [imageProcessor] *)
  image_env : ImageProcessor.Env
}.

Definition globalCommands : list jsstring :=
  [js "投稿作成"; js "ヘルプ"; js "help"; js "キャンセル"; js "cancel";
   js "やめる"; js "中止"].

(** [`${x}`] for an optional string. *)
Definition template_opt (o : option jsstring) : jsstring :=
  default (js "undefined") o.

Section Processor.

Variable rt : Runtime.
Variable deps : Deps.
(** The value of [new Date()] while this message is handled. *)
Variable now : Z.

Definition isGlobalCommand (text : jsstring) : bool :=
  array_includes globalCommands (toLowerCase rt text).

Definition getHelpMessage : jsstring :=
  js "つぽブログボット ヘルプ 📚" ++ LF ++ LF ++
  js "【基本コマンド】" ++ LF ++
  js "• 投稿作成 - 新しいブログ投稿を作成" ++ LF ++
  js "• ヘルプ - このヘルプを表示" ++ LF ++
  js "• キャンセル - 投稿作成を中止" ++ LF ++ LF ++
  js "【投稿作成の流れ】" ++ LF ++
  js "1. タイトル入力" ++ LF ++
  js "2. 本文入力" ++ LF ++
  js "3. 画像送信" ++ LF ++
  js "4. タグ選択" ++ LF ++
  js "5. 確認・公開" ++ LF ++ LF ++
  js "【対応ファイル形式】" ++ LF ++
  js "• 画像: JPEG, PNG, GIF" ++ LF ++ LF ++
  js "何か問題があれば「投稿作成」と送信して最初からやり直してください。".

(** [availableTags.map((tag, index) => `${index + 1}. ${tag}`).join('\n')]. *)
Definition formatAvailableTags : jsstring :=
  join LF (imap (fun index tag =>
                   string_of_N (N.of_nat index + 1) ++ js ". " ++ tag)
                (blog_availableTags (config deps))).

Definition generateConfirmationMessage (state : ConversationState) : jsstring :=
  let d := data state in
  js "投稿内容を確認してください:" ++ LF ++ LF ++
  js "📝 タイトル: " ++ template_opt (title d) ++ LF ++ LF ++
  js "📄 本文: " ++ template_opt (substring_to 100 <$> content d) ++
    (match content d with
     | Some c => if (100 <? length c)%nat then js "..." else []
     | None => []
     end) ++ LF ++ LF ++
  js "🏷️ タグ: " ++ join (js ", ") (tags d) ++ LF ++ LF ++
  js "📸 画像: 添付済み" ++ LF ++ LF ++
  js "この内容で投稿を公開しますか？" ++ LF ++
  js "「はい」で公開、「いいえ」でキャンセルしてください。".

Definition handleGlobalCommand (command : jsstring)
    (currentState : ConversationState) : Result ProcessingResult :=
  let lowerCommand := toLowerCase rt command in
  if str_eqb lowerCommand (js "投稿作成") then
    nextState ← ConversationFlow.transitionTo now currentState WAITING_TITLE no_updates;
    Ok {| nextState := Some nextState;
          responseMessage := Some (
            js "新しいブログ投稿を作成しましょう！✨" ++ LF ++ LF ++
            js "まず、投稿のタイトルを入力してください。") |}
  else if array_includes [js "ヘルプ"; js "help"] lowerCommand then
    Ok (reply_only getHelpMessage)
  else if array_includes [js "キャンセル"; js "cancel"; js "やめる"; js "中止"]
                         lowerCommand then
    if ConversationFlow.canCancel (step currentState) then
      nextState ← ConversationFlow.transitionTo now currentState IDLE no_updates;
      Ok {| nextState := Some nextState;
            responseMessage := Some (
              js "投稿作成をキャンセルしました。" ++ LF ++ LF ++
              js "新しい投稿を作成するには「投稿作成」と送信してください。") |}
    else
      Ok (reply_only (js "キャンセルできる投稿作成が進行中ではありません。"))
  else
    Ok (reply_only
          (js "不明なコマンドです。「ヘルプ」と送信してコマンド一覧を確認してください。")).

Definition handleIdleState (_text : jsstring) (_currentState : ConversationState)
  : Result ProcessingResult :=
  Ok (reply_only (
    js "投稿を作成するには「投稿作成」と送信してください。" ++ LF ++
    js "ヘルプが必要な場合は「ヘルプ」と送信してください。")).

Definition handleTitleInput (text : jsstring) (currentState : ConversationState)
  : Result ProcessingResult :=
  if (length text <? 1)%nat then
    Ok (reply_only (js "タイトルを入力してください。"))
  else if (100 <? length text)%nat then
    Ok (reply_only (js "タイトルが長すぎます。100文字以内で入力してください。"))
  else
    nextState ← ConversationFlow.transitionToNext now currentState
                  (mkUpdates (Some text) None None None None);
    Ok {| nextState := Some nextState;
          responseMessage := Some (
            js "タイトル: " ++ DQUOTE ++ text ++ DQUOTE ++ LF ++ LF ++
            js "次に、投稿の本文を入力してください。") |}.

Definition handleContentInput (text : jsstring) (currentState : ConversationState)
  : Result ProcessingResult :=
  if (length text <? 1)%nat then
    Ok (reply_only (js "本文を入力してください。"))
  else if (5000 <? length text)%nat then
    Ok (reply_only (js "本文が長すぎます。5000文字以内で入力してください。"))
  else
    nextState ← ConversationFlow.transitionToNext now currentState
                  (mkUpdates None (Some text) None None None);
    Ok {| nextState := Some nextState;
          responseMessage := Some (
            js "本文を受信しました！📝" ++ LF ++ LF ++
            js "次に、投稿に使用する画像を送信してください。" ++ LF ++
            js "（JPEG、PNG、GIF形式に対応しています）") |}.

Definition handleImageWaitingState (_text : jsstring)
    (_currentState : ConversationState) : Result ProcessingResult :=
  Ok (reply_only (
    js "画像を送信してください。" ++ LF ++
    js "テキストではなく、画像ファイルを送信してください。" ++ LF ++ LF ++
    js "投稿をキャンセルする場合は「キャンセル」と送信してください。")).

(** One turn of the [for (const num of tagNumbers)] loop; [None] is NaN,
    for which both comparisons are false. *)
Definition select_tag (availableTags : list jsstring)
    (selectedTags : list jsstring) (num : option Z) : list jsstring :=
  match num with
  | Some n =>
      if (1 <=? n)%Z && (n <=? Z.of_nat (length availableTags))%Z then
        match availableTags !! Z.to_nat (n - 1) with
        | Some tag =>
            if array_includes selectedTags tag then selectedTags
            else selectedTags ++ [tag]
        | None => selectedTags
        end
      else selectedTags
  | None => selectedTags
  end.

Definition parseTagSelection (text : jsstring) : list jsstring :=
  let availableTags := blog_availableTags (config deps) in
  if startsWith text (js "新規:") then
    let newTag := trim (substring_from 3 text) in
    if (0 <? length newTag)%nat && (length newTag <=? 20)%nat
    then [newTag] else []
  else
    let tagNumbers := map (fun num => parseInt (trim num)) (split_on 44 text) in
    fold_left (select_tag availableTags) tagNumbers [].

Definition handleTagSelection (text : jsstring) (currentState : ConversationState)
  : Result ProcessingResult :=
  try_catch
    (let selectedTags := parseTagSelection text in
     if (length selectedTags =? 0)%nat then
       Ok (reply_only (
         js "有効なタグを選択してください。" ++ LF ++ LF ++
         formatAvailableTags ++ LF ++ LF ++
         js "タグ番号をカンマ区切りで入力してください（例: 1,3,5）"))
     else
       nextState ← ConversationFlow.transitionToNext now currentState
                     (mkUpdates None None None None (Some selectedTags));
       Ok {| nextState := Some nextState;
             responseMessage := Some (generateConfirmationMessage nextState) |})
    (fun _ =>
       Ok (reply_only (
         js "タグの選択でエラーが発生しました。" ++ LF ++ LF ++
         formatAvailableTags ++ LF ++ LF ++
         js "もう一度タグ番号を入力してください。"))).

Definition affirmative : list jsstring :=
  [js "はい"; js "yes"; js "y"; js "公開"; js "投稿"; js "ok"].
Definition negative : list jsstring :=
  [js "いいえ"; js "no"; js "n"; js "キャンセル"; js "修正"].

Definition handleConfirmation (text : jsstring) (currentState : ConversationState)
  : Result ProcessingResult :=
  let lowerText := trim (toLowerCase rt text) in
  if array_includes affirmative lowerText then
    nextState ← ConversationFlow.transitionTo now currentState IDLE no_updates;
    Ok {| nextState := Some nextState;
          responseMessage := Some (
            js "投稿を公開しました！🎉" ++ LF ++ LF ++
            js "ブログURL: " ++ blog_baseUrl (config deps) ++ LF ++ LF ++
            js "新しい投稿を作成するには「投稿作成」と送信してください。") |}
  else if array_includes negative lowerText then
    nextState ← ConversationFlow.transitionTo now currentState IDLE no_updates;
    Ok {| nextState := Some nextState;
          responseMessage := Some (
            js "投稿をキャンセルしました。" ++ LF ++ LF ++
            js "新しい投稿を作成するには「投稿作成」と送信してください。") |}
  else
    Ok (reply_only (
      js "「はい」または「いいえ」で回答してください。" ++ LF ++ LF ++
      js "投稿を公開する場合は「はい」" ++ LF ++
      js "キャンセルする場合は「いいえ」と送信してください。")).

Definition processTextMessage (text : jsstring) (currentState : ConversationState)
  : Result ProcessingResult :=
  let trimmedText := trim text in
  if isGlobalCommand trimmedText then
    handleGlobalCommand trimmedText currentState
  else
    match step currentState with
    | IDLE => handleIdleState trimmedText currentState
    | WAITING_TITLE => handleTitleInput trimmedText currentState
    | WAITING_CONTENT => handleContentInput trimmedText currentState
    | WAITING_IMAGE => handleImageWaitingState trimmedText currentState
    | WAITING_TAGS => handleTagSelection trimmedText currentState
    | CONFIRMING => handleConfirmation trimmedText currentState
    end.

Definition generic_image_error : jsstring :=
  js "画像の処理中にエラーが発生しました。もう一度画像を送信してください。".

Definition processImageMessage (imageId : jsstring)
    (currentState : ConversationState) : Result ProcessingResult :=
  if negb (bool_decide (step currentState = WAITING_IMAGE)) then
    Ok (reply_only (
      js "画像は投稿作成中の画像送信段階でのみ受け付けています。" ++ LF ++
      js "「投稿作成」と送信して最初から始めてください。"))
  else
    try_catch
      (imageBuffer ← downloadImage deps imageId;
       processedImage ← processImage rt (image_env deps) imageBuffer;
       nextState ← ConversationFlow.transitionToNext now currentState
                     (mkUpdates None None
                        (Some (tempStorageKey processedImage))
                        (Some (relativePath processedImage)) None);
       Ok {| nextState := Some nextState;
             responseMessage := Some (
               js "画像を受信しました！📸" ++ LF ++ LF ++
               js "次にタグを選択してください。" ++ LF ++
               js "利用可能なタグ:" ++ LF ++
               formatAvailableTags ++ LF ++ LF ++
               js "タグ番号をカンマ区切りで入力してください（例: 1,3,5）" ++ LF ++
               js "新しいタグを追加する場合は「新規:タグ名」と入力してください。") |})
      (fun error =>
         let errorMessage :=
           match error with
           | ThrownError e =>
               if str_includes (err_message e) (js "サポートされていない")
                  || str_includes (err_message e) (js "大きすぎます")
                  || str_includes (err_message e) (js "検証に失敗")
               then err_message e ++ LF ++ LF ++
                    js "対応形式: JPEG, PNG, WebP, GIF（最大10MB）"
               else generic_image_error
           | ThrownValue _ => generic_image_error
           end in
         Ok (reply_only errorMessage)).

(** [message.id] as a condition: present and not empty. *)
Definition truthy_string (o : option jsstring) : bool :=
  negb (falsy_string o).

(** [processMessage]; its [catch] logs and rethrows. *)
Definition processMessage (message : LineMessage)
    (currentState : ConversationState) (_userId : jsstring)
  : Result ProcessingResult :=
  try_catch
    (if bool_decide (msg_type message = MText)
        && bool_decide (msg_text message <> None)
     then processTextMessage (default [] (msg_text message)) currentState
     else if bool_decide (msg_type message = MImage)
             && truthy_string (msg_id message)
     then processImageMessage (default [] (msg_id message)) currentState
     else Ok (reply_only (
            js "すみません、そのメッセージタイプには対応していません。" ++ LF ++
            js "テキストメッセージまたは画像を送信してください。")))
    (fun error => Throw error).

End Processor.

End MessageProcessor.

(* ===================================================================== *)
(** ** conversation/manager: ConversationManager *)
(* ===================================================================== *)

Module ConversationManager.

Import MessageProcessor.

(** The calls the manager makes on its collaborators, in program order. *)
Inductive Event :=
  | SessionGet (userId : jsstring)
  | SessionSet (userId : jsstring) (state : ConversationState)
  | ProcessorCall (message : LineMessage) (state : ConversationState)
  | LineReply (replyToken : jsstring) (text : jsstring).

(** The world the manager runs in: the session store, the calls made so
    far, and for each coming collaborator call whether it throws (an
    exhausted plan means no more failures). *)
Record World := mkWorld {
  sessions : gmap jsstring ConversationState;
  trace : list Event;
  faults : list (option Thrown)
}.

(** A computation that reads and updates the world and may throw. *)
Definition M (A : Type) : Type := World -> Result A * World.

Global Instance M_ret : MRet M := fun A a w => (Ok a, w).

Global Instance M_bind : MBind M := fun A B k m w =>
  match m w with
  | (Ok a, w') => k a w'
  | (Throw t, w') => (Throw t, w')
  end.

Definition throwM {A} (t : Thrown) : M A := fun w => (Throw t, w).

Definition try_catchM {A} (body : M A) (handler : Thrown -> M A) : M A :=
  fun w =>
    match body w with
    | (Ok a, w') => (Ok a, w')
    | (Throw t, w') => handler t w'
    end.

(** Whether the coming collaborator call throws, and what. *)
Definition next_fault (w : World) : option Thrown :=
  match faults w with
  | Some t :: _ => Some t
  | _ => None
  end.

(** Record a call and consume the next entry of the failure plan. *)
Definition collaborator_call (ev : Event) (w : World) : option Thrown * World :=
  (next_fault w,
   {| sessions := sessions w;
      trace := trace w ++ [ev];
      faults := tail (faults w) |}).

(** [sessionStorage.get(userId)]. *)
Definition sessionStorage_get (userId : jsstring) : M (option ConversationState) :=
  fun w =>
    match collaborator_call (SessionGet userId) w with
    | (Some t, w') => (Throw t, w')
    | (None, w') => (Ok (sessions w' !! userId), w')
    end.

(** [sessionStorage.set(userId, state)]. *)
Definition sessionStorage_set (userId : jsstring) (state : ConversationState)
  : M unit :=
  fun w =>
    match collaborator_call (SessionSet userId state) w with
    | (Some t, w') => (Throw t, w')
    | (None, w') =>
        (Ok tt, {| sessions := <[userId := state]> (sessions w');
                   trace := trace w';
                   faults := faults w' |})
    end.

(** [lineClient.replyMessage(replyToken, createTextMessages(text))]. *)
Definition lineClient_replyMessage (replyToken text : jsstring) : M unit :=
  fun w =>
    match collaborator_call (LineReply replyToken text) w with
    | (Some t, w') => (Throw t, w')
    | (None, w') => (Ok tt, w')
    end.

Section Manager.

Variable rt : Runtime.
Variable deps : Deps.
(** The values of [new Date()] in [createIdleState] and in the processor. *)
Variable now_idle now_step : Z.

(** [processor.processMessage(message, currentState, userId)]: the
    processor does not touch the session store or the reply channel. *)
Definition processor_processMessage (message : LineMessage)
    (currentState : ConversationState) (userId : jsstring)
  : M ProcessingResult :=
  fun w =>
    (MessageProcessor.processMessage rt deps now_step message currentState userId,
     {| sessions := sessions w;
        trace := trace w ++ [ProcessorCall message currentState];
        faults := faults w |}).

Definition getCurrentState (userId : jsstring) : M ConversationState :=
  try_catchM
    (state ← sessionStorage_get userId;
     match state with
     | None =>
         let newState := ConversationFlow.createInitialState now_idle in
         _ ← sessionStorage_set userId newState;
         mret newState
     | Some st => mret st
     end)
    (fun error =>
       throwM (ThrownError (new_Error
         (js "Failed to get conversation state: " ++ string_of_thrown error)))).

Definition updateState (userId : jsstring) (newState : ConversationState)
  : M unit :=
  try_catchM
    (sessionStorage_set userId newState)
    (fun error =>
       throwM (ThrownError (new_Error
         (js "Failed to update conversation state: " ++ string_of_thrown error)))).

Definition getErrorMessage (error : Thrown) : jsstring :=
  let fallback :=
    js "すみません、エラーが発生しました。「投稿作成」と送信して最初からやり直してください。" in
  match error with
  | ThrownError e =>
      let m := err_message e in
      if str_includes m (js "validation") then
        js "すみません、入力内容に問題があります。もう一度お試しください。"
      else if str_includes m (js "network") || str_includes m (js "timeout") then
        js "ネットワークエラーが発生しました。しばらく待ってからもう一度お試しください。"
      else if str_includes m (js "storage") || str_includes m (js "session") then
        js "セッション管理でエラーが発生しました。「投稿作成」と送信して最初からやり直してください。"
      else fallback
  | ThrownValue _ => fallback
  end.

Definition processMessage (userId : jsstring) (message : LineMessage)
    (replyToken : jsstring) : M unit :=
  try_catchM
    (currentState ← getCurrentState userId;
     r ← processor_processMessage message currentState userId;
     _ ← match nextState r with
         | Some next => updateState userId next
         | None => mret tt
         end;
     _ ← (if truthy_string (responseMessage r)
          then lineClient_replyMessage replyToken (default [] (responseMessage r))
          else mret tt);
     mret tt)
    (fun error =>
       let errorMessage := getErrorMessage error in
       _ ← try_catchM (lineClient_replyMessage replyToken errorMessage)
                      (fun _ => mret tt);
       throwM error).

(** [handleUserFollow(userId, replyToken)]; the [catch] block logs and
    throws the error again. *)
Definition handleUserFollow (userId replyToken : jsstring) : M unit :=
  try_catchM
    (let welcomeMessage :=
       js "つぽブログへようこそ！🎨" ++ LF ++ LF ++
       js "このボットを使って簡単にブログ投稿を作成できます。" ++ LF ++ LF ++
       js "投稿を作成するには「投稿作成」と送信してください。" ++ LF ++
       js "ヘルプが必要な場合は「ヘルプ」と送信してください。" in
     _ ← lineClient_replyMessage replyToken welcomeMessage;
     _ ← getCurrentState userId;
     mret tt)
    (fun error => throwM error).

End Manager.

(** The events a run adds to the trace. *)
Definition new_events (w w' : World) : list Event :=
  drop (length (trace w)) (trace w').

Definition is_get (e : Event) : bool :=
  match e with SessionGet _ => true | _ => false end.
Definition is_set (e : Event) : bool :=
  match e with SessionSet _ _ => true | _ => false end.
Definition is_reply (e : Event) : bool :=
  match e with LineReply _ _ => true | _ => false end.

Definition count_events (p : Event -> bool) (es : list Event) : nat :=
  length (List.filter p es).

(** The events before the first call of the processor, and those after
    it. *)
Fixpoint before_dispatch (es : list Event) : list Event :=
  match es with
  | [] => []
  | ProcessorCall _ _ :: _ => []
  | e :: rest => e :: before_dispatch rest
  end.

Fixpoint after_dispatch (es : list Event) : list Event :=
  match es with
  | [] => []
  | ProcessorCall _ _ :: rest => rest
  | _ :: rest => after_dispatch rest
  end.

(** The collaborator calls of one invocation of [processMessage]. *)
Definition run_events (rt : Runtime) (deps : Deps) (now_idle now_step : Z)
    (userId : jsstring) (message : LineMessage) (replyToken : jsstring)
    (w : World) : list Event :=
  new_events w
    (snd (processMessage rt deps now_idle now_step userId message replyToken w)).

End ConversationManager.

(* ===================================================================== *)
(** ** Notions used in the statements *)
(* ===================================================================== *)

Module Spec.

Import ImageProcessor MessageProcessor.

(** Keep the first occurrence of every element, in order. *)
Fixpoint dedup_first (l : list jsstring) : list jsstring :=
  match l with
  | [] => []
  | x :: r => x :: filter (fun y => y <> x) (dedup_first r)
  end.

(** A 1-based index into the catalogue, when it is in range. *)
Definition resolve_index (catalogue : list jsstring) (num : option Z)
  : option jsstring :=
  match num with
  | Some n =>
      if (1 <=? n)%Z && (n <=? Z.of_nat (length catalogue))%Z
      then catalogue !! Z.to_nat (n - 1)
      else None
  | None => None
  end.

(** The new-tag grammar: the trimmed remainder after the three-unit prefix,
    when its length is between 1 and 20. *)
Definition new_tag_selection (text : jsstring) : list jsstring :=
  let newTag := trim (drop 3 text) in
  if bool_decide (1 <= length newTag <= 20)%nat then [newTag] else [].

(** The numeric grammar for a given reading of one token. *)
Definition index_selection (read : jsstring -> option Z)
    (catalogue : list jsstring) (text : jsstring) : list jsstring :=
  dedup_first (omap (fun token => resolve_index catalogue (read token))
                    (split_on 44 text)).

(** The numeric grammar as the code reads tokens: [parseInt] of the trimmed
    token. *)
Definition tag_selection (catalogue : list jsstring) (text : jsstring)
  : list jsstring :=
  if startsWith text (js "新規:") then new_tag_selection text
  else index_selection (fun token => parseInt (trim token)) catalogue text.

(** A numeric token in the plain sense: after trimming, one or more decimal
    digits and nothing else. *)
Definition is_decimal (t : jsstring) : bool :=
  negb (bool_decide (t = [])) && forallb (fun c => (48 <=? c) && (c <=? 57)) t.

Definition decimal_value (t : jsstring) : N :=
  fold_left (fun acc c => acc * 10 + (c - 48)) t 0.

Definition strict_index (token : jsstring) : option Z :=
  let t := trim token in
  if is_decimal t then Some (Z.of_N (decimal_value t)) else None.

(** Tag selection where every token that is not numeric in the plain sense
    is dropped. *)
Definition tag_selection_strict (catalogue : list jsstring) (text : jsstring)
  : list jsstring :=
  if startsWith text (js "新規:") then new_tag_selection text
  else index_selection strict_index catalogue text.

(** States the dispatcher can be handed: the idle state of a new session,
    and every state a successful dispatch returned for a reachable one. *)
Inductive Reachable (rt : Runtime) (deps : Deps) : ConversationState -> Prop :=
  | Reachable_idle (now : Z) :
      Reachable rt deps (Storage.createIdleState now)
  | Reachable_step (st st' : ConversationState) (message : LineMessage)
      (now : Z) (userId : jsstring) (r : ProcessingResult) :
      Reachable rt deps st ->
      processMessage rt deps now message st userId = Ok r ->
      nextState r = Some st' ->
      Reachable rt deps st'.

(** The moves of the conversation: what one accepted message does to the
    state.  Every move stamps [updatedAt] with the time of the dispatch. *)
Inductive DispatchStep (deps : Deps) (now : Z)
  : ConversationState -> ConversationState -> Prop :=
  | Step_start (st : ConversationState) :
      step st = IDLE ->
      DispatchStep deps now st
        (Storage.updateStateStep now st WAITING_TITLE no_updates)
  | Step_to_idle (st : ConversationState) :
      step st <> IDLE ->
      DispatchStep deps now st
        (Storage.updateStateStep now st IDLE no_updates)
  | Step_title (st : ConversationState) (t : jsstring) :
      step st = WAITING_TITLE ->
      (1 <= length t <= 100)%nat ->
      DispatchStep deps now st
        (Storage.updateStateStep now st WAITING_CONTENT
           (mkUpdates (Some t) None None None None))
  | Step_content (st : ConversationState) (c : jsstring) :
      step st = WAITING_CONTENT ->
      (1 <= length c <= 5000)%nat ->
      DispatchStep deps now st
        (Storage.updateStateStep now st WAITING_IMAGE
           (mkUpdates None (Some c) None None None))
  | Step_image (st : ConversationState) (p : ProcessedImage) :
      step st = WAITING_IMAGE ->
      uploadToTempStorage (image_env deps) (buffer p) (filename p)
        = Ok (tempStorageKey p) ->
      DispatchStep deps now st
        (Storage.updateStateStep now st WAITING_TAGS
           (mkUpdates None None (Some (tempStorageKey p))
                      (Some (relativePath p)) None))
  | Step_tags (st : ConversationState) (selected : list jsstring) :
      step st = WAITING_TAGS ->
      selected <> [] ->
      DispatchStep deps now st
        (Storage.updateStateStep now st CONFIRMING
           (mkUpdates None None None None (Some selected))).

(** Feed a list of messages to the dispatcher, keeping the last state. *)
Fixpoint converse (rt : Runtime) (deps : Deps) (now : Z)
    (messages : list LineMessage) (st : ConversationState)
  : Result ConversationState :=
  match messages with
  | [] => Ok st
  | m :: rest =>
      r ← processMessage rt deps now m st [];
      converse rt deps now rest (default st (nextState r))
  end.

(** How one dispatch can change the title and the body: not at all, or to
    the trimmed text of the message. *)
Definition text_fields_step (text : jsstring) (st st' : ConversationState)
  : Prop :=
  (title (data st') = title (data st) \/ title (data st') = Some (trim text)) /\
  (content (data st') = content (data st) \/
   content (data st') = Some (trim text)).

(** A stored text is trimmed: [trim] leaves it as it is. *)
Definition text_fields_trimmed (st : ConversationState) : Prop :=
  forall s, title (data st) = Some s \/ content (data st) = Some s ->
            trim s = s.

(** What the documentation of sharp promises for
    [resize(w, h, { fit: 'inside', withoutEnlargement: true })] followed by
    [jpeg()]: the output is a JPEG inside the box, no larger than the input
    in either dimension, with the input's aspect ratio up to rounding to
    whole pixels. *)
Definition sharp_inside_contract (env : Env) : Prop :=
  forall (input output : Buffer) (opts : ResizeOptions) (quality : Z)
         (w h : Z) (f : jsstring),
    rs_fit opts = Inside ->
    rs_withoutEnlargement opts = true ->
    (0 < rs_width opts)%Z -> (0 < rs_height opts)%Z ->
    sharp_metadata env input = Ok (mkMetadata (Some f) (Some w) (Some h)) ->
    sharp_resize_jpeg env input opts quality = Ok output ->
    exists w' h' : Z,
      sharp_metadata env output = Ok (mkMetadata (Some (js "jpeg")) (Some w') (Some h')) /\
      (0 < w' <= rs_width opts)%Z /\ (0 < h' <= rs_height opts)%Z /\
      (w' <= w)%Z /\ (h' <= h)%Z /\
      (Z.abs (w' * h - h' * w) <= Z.max w h)%Z.

End Spec.

(* ===================================================================== *)
(** ** Concrete inputs *)
(* ===================================================================== *)

Module Fixtures.

Import ImageProcessor MessageProcessor ConversationManager.

Definition textMessage (s : jsstring) : LineMessage :=
  mkMessage MText (Some s) None.
Definition imageMessage (id : jsstring) : LineMessage :=
  mkMessage MImage None (Some id).

(** A three-entry catalogue. *)
Definition catalogue : list jsstring := [js "A"; js "B"; js "C"].
Definition blog_config : Config := mkConfig (js "https://blog.example") catalogue.

(** The bytes the LINE client of [deps_of] hands back. *)
Definition downloaded_bytes : Buffer :=
  [Byte.x89; Byte.x50; Byte.x4e; Byte.x47].

Definition clock : Date := mkDate (js "2024-01-02T03:04:05.678Z") 2024 0.

(** An image store and a sharp for which every buffer decodes as an image of
    the given format and size, and resizing hands back the same bytes. *)
Definition image_env_of (fmt : jsstring) (w h : Z) : Env :=
  {| sharp_metadata := fun _ => Ok (mkMetadata (Some fmt) (Some w) (Some h));
     sharp_resize_jpeg := fun b _ _ => Ok b;
     uploadToTempStorage := fun _ name => Ok (js "temp-images/" ++ name);
     date_filename := clock;
     date_path := clock;
     random_base36 := js "0.k3j9x2ab" |}.

Definition deps_of (fmt : jsstring) (w h : Z) : Deps :=
  {| MessageProcessor.config := blog_config;
     downloadImage := fun _ => Ok downloaded_bytes;
     image_env := image_env_of fmt w h |}.

(** A 100 by 100 PNG, and a TIFF, which sharp decodes but the processor
    does not accept. *)
Definition deps_png : Deps := deps_of (js "png") 100 100.
Definition deps_tiff : Deps := deps_of (js "tiff") 100 100.

(** A toy sharp whose images are squares with one pixel row per byte:
    resizing keeps the first bytes that fit the box. *)
Definition square_env : Env :=
  {| sharp_metadata := fun b =>
       match b with
       | [] => Throw (ThrownError (new_Error (js "Input buffer is empty")))
       | _ => Ok (mkMetadata (Some (js "jpeg"))
                    (Some (Z.of_nat (length b))) (Some (Z.of_nat (length b))))
       end;
     sharp_resize_jpeg := fun b opts _ =>
       Ok (take (Z.to_nat (Z.min (rs_width opts) (rs_height opts))) b);
     uploadToTempStorage := fun _ name => Ok name;
     date_filename := clock;
     date_path := clock;
     random_base36 := js "0.k3j9x2ab" |}.

(** Buffers of exactly 10 MiB and of one byte more. *)
Definition buffer_10MiB : Buffer := repeat Byte.x00 (N.to_nat 10485760).
Definition buffer_over_10MiB : Buffer := repeat Byte.x00 (N.to_nat 10485761).

Definition state_in (s : ConversationStep) (d : PostData) : ConversationState :=
  mkState s d 1000 1000.

Definition empty_data : PostData := mkPostData None None None None [].

(** A post ready to be confirmed. *)
Definition filled_data : PostData :=
  mkPostData (Some (js "T")) (Some (js "C")) (Some (js "temp-images/x.png"))
             (Some (js "source/images/2024/01/x.png")) [js "A"].

(** The conversation of the end-to-end scenario up to the confirmation
    prompt. *)
Definition script_to_confirming : list LineMessage :=
  [textMessage (js "投稿作成"); textMessage (js "T"); textMessage (js "C");
   imageMessage (js "m1"); textMessage (js "1,2")].

Definition new_user_world : World := mkWorld ∅ [] [].

(** A store that holds a session of user U1 waiting for the title. *)
Definition returning_user_world : World :=
  mkWorld {[ js "U1" := state_in WAITING_TITLE empty_data ]} [] [].

(** A 3000 by 3000 image of the toy sharp, and its validation record. *)
Definition square_image : Buffer := repeat Byte.x00 3000.
Definition square_validation : ImageValidationResult :=
  mkValidation true (js "image/jpeg") 3000 3000 3000 (js "jpeg").

(** A conversation waiting for its image. *)
Definition waiting_image_state : ConversationState :=
  state_in WAITING_IMAGE
           (mkPostData (Some (js "T")) (Some (js "C")) None None []).

End Fixtures.

(* ===================================================================== *)
(** ** line/client: LineApiClient *)
(* ===================================================================== *)

Module LineApiClient.

Import ImageProcessor.

(** [interface LineQuickReplyItem]: every item the client builds has type
    ['action'] and an action of type ['message']; the label and the text of
    the action are what varies. *)
Record LineQuickReplyItem := mkItem {
  label : jsstring;
  action_text : jsstring
}.

(** [interface LineQuickReply]. *)
Record LineQuickReply := mkQuickReply {
  items : list LineQuickReplyItem
}.

Inductive ReplyType := RText | RImage.

(** [interface LineReplyMessage], with the [quickReply] field that
    [sendTextMessage] may add. *)
Record LineReplyMessage := mkReplyMessage {
  rm_type : ReplyType;
  rm_text : option jsstring;
  rm_originalContentUrl : option jsstring;
  rm_previewImageUrl : option jsstring;
  rm_quickReply : option LineQuickReply
}.

(** [{ type: 'text', text }]. *)
Definition text_message (text : jsstring) : LineReplyMessage :=
  mkReplyMessage RText (Some text) None None None.

(** What the client passes to [fetch]; the body is kept as the object given
    to [JSON.stringify]. *)
Record Request := mkRequest {
  url : jsstring;
  method : jsstring;
  headers : list (jsstring * jsstring);
  body : option (jsstring * list LineReplyMessage)
}.

(** The parts of the [Response] the client reads; [text()] and
    [arrayBuffer()] may fail. *)
Record Response := mkResponse {
  ok : bool;
  status : N;
  statusText : jsstring;
  text : Result jsstring;
  arrayBuffer : Result Buffer
}.

Definition baseUrl : jsstring := js "https://api.line.me/v2/bot".

Section Client.

Variable rt : Runtime.
(** [config.line.channelAccessToken]. *)
Variable accessToken : jsstring.
(** The global [fetch]. *)
Variable fetch : Request -> Result Response.

(** [new ExternalServiceError(message, service, userMessage)]. *)
Definition new_ExternalServiceError (message service : jsstring)
    (userMessage : option jsstring) : JsError :=
  mkError ExternalServiceErrorClass (js "LineBotError") message
          (Some (toUpperCase rt service ++ js "_ERROR")) userMessage.

Definition send_failed : jsstring :=
  js "メッセージの送信に失敗しました。しばらく時間をおいて再度お試しください。".

Definition replyMessage (replyToken : jsstring)
    (messages : list LineReplyMessage) : Result unit :=
  if bool_decide (replyToken = []) then
    Throw (ThrownError (new_ExternalServiceError
             (js "Reply token is required") (js "LINE_API") None))
  else if (length messages =? 0)%nat then
    Throw (ThrownError (new_ExternalServiceError
             (js "At least one message is required") (js "LINE_API") None))
  else if (5 <? length messages)%nat then
    Throw (ThrownError (new_ExternalServiceError
             (js "Maximum 5 messages allowed per reply") (js "LINE_API") None))
  else
    try_catch
      (response ← fetch
         {| url := baseUrl ++ js "/message/reply";
            method := js "POST";
            headers := [(js "Content-Type", js "application/json");
                        (js "Authorization", js "Bearer " ++ accessToken)];
            body := Some (replyToken, messages) |};
       if negb (ok response) then
         _ ← text response;
         Throw (ThrownError (new_ExternalServiceError
                  (js "LINE API reply failed: " ++ string_of_N (status response)
                     ++ js " " ++ statusText response)
                  (js "LINE_API") (Some send_failed)))
       else Ok tt)
      (fun error =>
         if instanceof ExternalServiceErrorClass error then Throw error
         else
           Throw (ThrownError (new_ExternalServiceError
                    (js "Failed to send reply message: "
                       ++ message_or_unknown error)
                    (js "LINE_API") (Some send_failed)))).

Definition sendTextMessage (replyToken text : jsstring)
    (quickReply : option LineQuickReply) : Result unit :=
  let message := text_message text in
  let message :=
    match quickReply with
    | Some q => mkReplyMessage (rm_type message) (rm_text message)
                  (rm_originalContentUrl message) (rm_previewImageUrl message)
                  (Some q)
    | None => message
    end in
  replyMessage replyToken [message].

(** [sendTextMessages]: past five texts only the first five are sent. *)
Definition sendTextMessages (replyToken : jsstring) (texts : list jsstring)
  : Result unit :=
  if (5 <? length texts)%nat then
    _ ← replyMessage replyToken (map text_message (take 5 texts));
    Ok tt
  else
    let messages := map text_message texts in
    replyMessage replyToken messages.

Definition downloadImage (messageId : jsstring) : Result Buffer :=
  if bool_decide (messageId = []) then
    Throw (ThrownError (new_ExternalServiceError
             (js "Message ID is required") (js "LINE_API") None))
  else
    try_catch
      (response ← fetch
         {| url := baseUrl ++ js "/message/" ++ messageId ++ js "/content";
            method := js "GET";
            headers := [(js "Authorization", js "Bearer " ++ accessToken)];
            body := None |};
       if negb (ok response) then
         _ ← text response;
         Throw (ThrownError (new_ExternalServiceError
                  (js "LINE API download failed: "
                     ++ string_of_N (status response)
                     ++ js " " ++ statusText response)
                  (js "LINE_API")
                  (Some (js "画像のダウンロードに失敗しました。"))))
       else
         buffer ← arrayBuffer response;
         Ok buffer)
      (fun error =>
         if instanceof ExternalServiceErrorClass error then Throw error
         else
           Throw (ThrownError (new_ExternalServiceError
                    (js "Failed to download image: "
                       ++ message_or_unknown error)
                    (js "LINE_API")
                    (Some (js "画像のダウンロードに失敗しました。"))))).

End Client.

(** [createTagSelectionQuickReply(tags)]. *)
Definition createTagSelectionQuickReply (tags : list jsstring)
  : LineQuickReply :=
  let maxTags := Nat.min (length tags) 12 in
  let items := map (fun tag => mkItem tag tag) (take maxTags tags) in
  {| items := items ++ [mkItem (js "新しいタグ") (js "新しいタグを作成")] |}.

Definition createConfirmationQuickReply : LineQuickReply :=
  {| items := [mkItem (js "公開する") (js "公開する");
               mkItem (js "キャンセル") (js "キャンセル")] |}.

Definition createStartQuickReply : LineQuickReply :=
  {| items := [mkItem (js "投稿作成") (js "投稿作成");
               mkItem (js "ヘルプ") (js "ヘルプ")] |}.

End LineApiClient.

(* ===================================================================== *)
(** ** webhook/handler: WebhookHandler *)
(* ===================================================================== *)

Module WebhookHandler.

Import ImageProcessor MessageProcessor ConversationManager.

(** [interface APIGatewayEvent], the fields the handler reads. *)
Record APIGatewayEvent := mkGatewayEvent {
  httpMethod : jsstring;
  headers : gmap jsstring jsstring;
  body : jsstring
}.

(** The object given to [JSON.stringify] for the body of the response. *)
Inductive ResponseBody :=
  | MessageBody (message : jsstring)
  | ErrorBody (error : jsstring) (timestamp : jsstring).

(** [interface APIGatewayResponse]. *)
Record APIGatewayResponse := mkGatewayResponse {
  statusCode : N;
  response_headers : list (jsstring * jsstring);
  response_body : ResponseBody
}.

(** What [JSON.parse] gives for a webhook payload, as far as the handler
    looks into it.  A field is [None] when it is missing, [null], or not of
    the JSON type that the LINE platform gives it; strings are kept as they
    are, so an empty one is told apart. *)
Record RawSource := mkRawSource {
  raw_userId : option jsstring;
  raw_source_type : option jsstring
}.

Record RawMessage := mkRawMessage {
  raw_message_type : option jsstring;
  raw_text : option jsstring;
  raw_id : option jsstring
}.

Record RawEvent := mkRawEvent {
  raw_type : option jsstring;
  raw_replyToken : option jsstring;
  raw_source : option RawSource;
  raw_message : option RawMessage
}.

(** The parsed payload: [null], or a value whose [events] is [None] when it
    is missing or not an array; an element of the array is [None] when it is
    [null]. *)
Inductive Parsed :=
  | ParsedNull
  | ParsedValue (events : option (list (option RawEvent))).

(** [interface LineEvent] as [validateLineEvent] builds it. *)
Record LineEventSource := mkSource {
  userId : jsstring;
  source_type : jsstring
}.

Record LineEvent := mkLineEvent {
  event_type : jsstring;
  replyToken : jsstring;
  source : LineEventSource;
  message : option LineMessage
}.

(** [new ValidationError(message)], without a user message. *)
Definition new_ValidationError_plain (message : jsstring) : JsError :=
  mkError ValidationErrorClass (js "LineBotError") message
          (Some (js "VALIDATION_ERROR")) None.

(** The [TypeError] of reading a property of [null]. *)
Definition null_property_error (property : jsstring) : JsError :=
  mkError PlainError (js "TypeError")
          (js "Cannot read properties of null (reading '" ++ property ++ js "')")
          None None.

(** [error instanceof LineBotError]. *)
Definition is_LineBotError (t : Thrown) : bool :=
  instanceof ValidationErrorClass t || instanceof ProcessingErrorClass t
  || instanceof ExternalServiceErrorClass t.

(** [a || b] on two header values. *)
Definition or_else (a b : option jsstring) : option jsstring :=
  if truthy_string a then a else b.

(** [xs.map(f)] for an [f] that may throw: the first failure ends it. *)
Fixpoint map_result {A B} (f : A -> Result B) (xs : list A)
  : Result (list B) :=
  match xs with
  | [] => Ok []
  | x :: rest =>
      y ← f x;
      ys ← map_result f rest;
      Ok (y :: ys)
  end.

(** A call that does not touch the world. *)
Definition lift_result {A} (r : Result A) : M A := fun w => (r, w).

(** [for (const x of xs) { await f(x); }]. *)
Fixpoint for_each {A} (f : A -> M unit) (xs : list A) : M unit :=
  match xs with
  | [] => mret tt
  | x :: rest => _ ← f x; for_each f rest
  end.

(** The type of a message as the processor tells it apart. *)
Definition message_type_of (t : option jsstring) : MessageType :=
  match t with
  | Some s => if str_eqb s (js "text") then MText
              else if str_eqb s (js "image") then MImage
              else MOther
  | None => MOther
  end.

Section Handler.

(** [config.line.channelSecret]. *)
Variable channelSecret : jsstring.
(** [crypto.createHmac('sha256', secret).update(body, 'utf8')
    .digest('base64')]. *)
Variable hmac_sha256_base64 : jsstring -> jsstring -> Result jsstring.
(** [JSON.parse]: [None] when it throws its [SyntaxError]. *)
Variable JSON_parse : jsstring -> option Parsed.
(** [new Date().toISOString()] in [createErrorResponse]. *)
Variable timestamp : jsstring.
(** The three entry points of the conversation manager. *)
Variable manager_processMessage :
  jsstring -> LineMessage -> jsstring -> M unit.
Variable manager_handleUserFollow : jsstring -> jsstring -> M unit.
Variable manager_handleUserUnfollow : jsstring -> M unit.

Definition createErrorResponse (statusCode : N) (message : jsstring)
  : APIGatewayResponse :=
  {| statusCode := statusCode;
     response_headers := [(js "Content-Type", js "application/json")];
     response_body := ErrorBody message timestamp |}.

Definition validateSignature (body signature : jsstring) : bool :=
  match hmac_sha256_base64 channelSecret body with
  | Ok hash => str_eqb signature hash
  | Throw _ => false
  end.

Definition validateLineEvent (event : option RawEvent) : Result LineEvent :=
  match event with
  | None => Throw (ThrownError (null_property_error (js "type")))
  | Some event =>
      if falsy_string (raw_type event) then
        Throw (ThrownError (new_ValidationError_plain
                 (js "Event type is required")))
      else if match raw_source event with
              | None => true
              | Some s => falsy_string (raw_userId s)
              end then
        Throw (ThrownError (new_ValidationError_plain
                 (js "Event source userId is required")))
      else
        let type := default [] (raw_type event) in
        let lineEvent :=
          {| event_type := type;
             replyToken := default [] (or_else (raw_replyToken event) (Some []));
             source :=
               {| userId := default [] (raw_source event ≫= raw_userId);
                  source_type :=
                    default [] (or_else (raw_source event ≫= raw_source_type)
                                        (Some (js "user"))) |};
             message := None |} in
        match raw_message event with
        | Some m =>
            if str_eqb type (js "message") then
              Ok {| event_type := event_type lineEvent;
                    replyToken := replyToken lineEvent;
                    source := source lineEvent;
                    message :=
                      Some {| msg_type := message_type_of (raw_message_type m);
                              msg_text := raw_text m;
                              msg_id := raw_id m |} |}
            else Ok lineEvent
        | None => Ok lineEvent
        end
  end.

(** [parseLineEvents]: the [catch] block turns the [SyntaxError] of
    [JSON.parse] into a validation error and throws anything else again. *)
Definition parseLineEvents (body : jsstring) : Result (list LineEvent) :=
  match JSON_parse body with
  | None =>
      Throw (ThrownError (new_ValidationError_plain
               (js "Invalid JSON in request body")))
  | Some ParsedNull =>
      Throw (ThrownError (null_property_error (js "events")))
  | Some (ParsedValue None) =>
      Throw (ThrownError (new_ValidationError_plain
               (js "Invalid webhook payload: missing events array")))
  | Some (ParsedValue (Some events)) => map_result validateLineEvent events
  end.

Definition handleMessageEvent (event : LineEvent) : M unit :=
  match message event with
  | None => mret tt
  | Some m =>
      if bool_decide (replyToken event = []) then mret tt
      else manager_processMessage (userId (source event)) m (replyToken event)
  end.

Definition handleFollowEvent (event : LineEvent) : M unit :=
  if bool_decide (replyToken event = []) then mret tt
  else manager_handleUserFollow (userId (source event)) (replyToken event).

Definition handleUnfollowEvent (event : LineEvent) : M unit :=
  manager_handleUserUnfollow (userId (source event)).

(** [processLineEvent]: the [catch] block logs and goes on. *)
Definition processLineEvent (event : LineEvent) : M unit :=
  try_catchM
    (if str_eqb (event_type event) (js "message") then handleMessageEvent event
     else if str_eqb (event_type event) (js "follow") then
       handleFollowEvent event
     else if str_eqb (event_type event) (js "unfollow") then
       handleUnfollowEvent event
     else mret tt)
    (fun _ => mret tt).

Definition handleRequest (event : APIGatewayEvent) : M APIGatewayResponse :=
  try_catchM
    (if negb (str_eqb (httpMethod event) (js "POST")) then
       mret (createErrorResponse 405 (js "Method not allowed"))
     else
       let contentType :=
         or_else (headers event !! js "content-type")
                 (headers event !! js "Content-Type") in
       if falsy_string contentType
          || negb (str_includes (default [] contentType)
                                (js "application/json")) then
         mret (createErrorResponse 400 (js "Invalid content type"))
       else
         let body := body event in
         if bool_decide (body = []) then
           mret (createErrorResponse 400 (js "Request body is required"))
         else
           let signature :=
             or_else (headers event !! js "x-line-signature")
                     (headers event !! js "X-Line-Signature") in
           if falsy_string signature then
             mret (createErrorResponse 400 (js "Missing LINE signature"))
           else if negb (validateSignature body (default [] signature)) then
             mret (createErrorResponse 401 (js "Invalid signature"))
           else
             lineEvents ← lift_result (parseLineEvents body);
             _ ← for_each processLineEvent lineEvents;
             mret {| statusCode := 200;
                     response_headers :=
                       [(js "Content-Type", js "application/json")];
                     response_body := MessageBody (js "OK") |})
    (fun error =>
       match error with
       | ThrownError e =>
           if is_LineBotError error then
             mret (createErrorResponse 400 (err_message e))
           else
             mret (createErrorResponse 500 (js "Internal server error"))
       | ThrownValue _ =>
           mret (createErrorResponse 500 (js "Internal server error"))
       end).

End Handler.

End WebhookHandler.

(* ===================================================================== *)
(** ** More notions used in the statements *)
(* ===================================================================== *)

Module Notions.

(** Two object literals spread one after the other: a field of the second
    wins over the same field of the first. *)
Definition then_updates (u1 u2 : PostDataUpdates) : PostDataUpdates :=
  {| u_title := match u_title u2 with Some v => Some v | None => u_title u1 end;
     u_content :=
       match u_content u2 with Some v => Some v | None => u_content u1 end;
     u_imageUrl :=
       match u_imageUrl u2 with Some v => Some v | None => u_imageUrl u1 end;
     u_imagePath :=
       match u_imagePath u2 with Some v => Some v | None => u_imagePath u1 end;
     u_tags := match u_tags u2 with Some v => Some v | None => u_tags u1 end |}.

(** A decimal digit. *)
Definition is_digit (c : N) : Prop := 48 <= c <= 57.

(** The state the manager works on for a user: the stored one, or the fresh
    idle state. *)
Definition current_state (now_idle : Z) (w : ConversationManager.World)
    (userId : jsstring) : ConversationState :=
  default (ConversationFlow.createInitialState now_idle)
          (ConversationManager.sessions w !! userId).

End Notions.

(* ===================================================================== *)
(** ** More concrete inputs *)
(* ===================================================================== *)

Module MoreFixtures.

Import ImageProcessor MessageProcessor ConversationManager Fixtures.

(** A temporary store that is down: every upload throws. *)
Definition failing_upload_env : Env :=
  {| sharp_metadata := sharp_metadata (image_env_of (js "png") 100 100);
     sharp_resize_jpeg := sharp_resize_jpeg (image_env_of (js "png") 100 100);
     uploadToTempStorage := fun _ _ =>
       Throw (ThrownError (new_Error (js "connect ECONNREFUSED")));
     date_filename := clock;
     date_path := clock;
     random_base36 := js "0.k3j9x2ab" |}.

(** A stand-in for the keyed hash: the secret followed by the body. *)
Definition toy_hmac (secret body : jsstring) : Result jsstring :=
  Ok (secret ++ body).

(** A parser that reads every body as one follow event of user U1. *)
Definition toy_parse (_ : jsstring) : option WebhookHandler.Parsed :=
  Some (WebhookHandler.ParsedValue (Some [
    Some (WebhookHandler.mkRawEvent (Some (js "follow")) (Some (js "tok"))
            (Some (WebhookHandler.mkRawSource (Some (js "U1")) None))
            None)])).

(** A manager whose unfollow removes the session of the user. *)
Definition remove_session (userId : jsstring) : M unit :=
  fun w => (Ok tt, mkWorld (delete userId (sessions w)) (trace w) (faults w)).

(** A POST request signed for the secret "secret". *)
Definition signed_request : WebhookHandler.APIGatewayEvent :=
  WebhookHandler.mkGatewayEvent (js "POST")
    {[ js "content-type" := js "application/json";
       js "x-line-signature" := js "secret{}" ]}
    (js "{}").

End MoreFixtures.

(* ===================================================================== *)
(** ** config: loadConfig, validateConfig, and the two factories *)
(* ===================================================================== *)

Module Configuration.

Import ImageProcessor MessageProcessor.

(** [interface Config] in full; the engine reads the two blog fields of
    [Types.Config]. *)
Record LineConfig := mkLineConfig {
  channelSecret : jsstring;
  channelAccessToken : jsstring
}.

Record GitHubConfig := mkGitHubConfig {
  token : jsstring;
  owner : jsstring;
  repo : jsstring
}.

Record BlogConfig := mkBlogConfig {
  baseUrl : jsstring;
  imageBasePath : jsstring;
  categories : list jsstring;
  availableTags : list jsstring
}.

Record StorageConfig := mkStorageConfig {
  storage_type : jsstring;
  tableName : option jsstring;
  kvUrl : option jsstring
}.

Record ImageStorageConfig := mkImageStorageConfig {
  imageStorage_type : jsstring;
  bucketName : option jsstring;
  region : option jsstring
}.

Record FullConfig := mkFullConfig {
  line : LineConfig;
  github : GitHubConfig;
  blog : BlogConfig;
  storage : StorageConfig;
  imageStorage : ImageStorageConfig
}.

(** The part of the configuration that the conversation engine reads. *)
Definition engine_config (c : FullConfig) : Config :=
  {| blog_baseUrl := baseUrl (blog c);
     blog_availableTags := availableTags (blog c) |}.

Definition requiredEnvVars : list jsstring :=
  [js "LINE_CHANNEL_SECRET"; js "LINE_CHANNEL_ACCESS_TOKEN";
   js "GITHUB_TOKEN"; js "GITHUB_OWNER"; js "GITHUB_REPO";
   js "BLOG_BASE_URL"].

(** [a || b] where [b] is a string. *)
Definition or_default (a : option jsstring) (b : jsstring) : jsstring :=
  if truthy_string a then default [] a else b.

(** The storage a factory hands out. *)
Inductive SessionStorageKind :=
  | VercelKVSessionStorage (kvUrl : option jsstring)
  | DynamoDBSessionStorage (tableName : jsstring).

Inductive ImageProcessorKind :=
  | VercelBlobImageProcessor
  | S3ImageProcessor (bucketName : jsstring) (region : option jsstring).

Section Load.

(** [process.env]. *)
Variable env : gmap jsstring jsstring.
(** [new Date().getFullYear()]. *)
Variable currentYear : Z.

(** [getCurrentYear()]. *)
Definition getCurrentYear : jsstring := string_of_Z currentYear ++ js "年".

Definition loadConfig : Result FullConfig :=
  let missingVars :=
    List.filter (fun varName => falsy_string (env !! varName))
                requiredEnvVars in
  if (0 <? length missingVars)%nat then
    Throw (ThrownError (new_Error
             (js "Missing required environment variables: "
                ++ join (js ", ") missingVars)))
  else
    let storageType :=
      if truthy_string (env !! js "VERCEL") then js "vercel-kv"
      else js "dynamodb" in
    let imageStorageType :=
      if truthy_string (env !! js "VERCEL") then js "vercel-blob"
      else js "s3" in
    let config :=
      {| line :=
           {| channelSecret := default [] (env !! js "LINE_CHANNEL_SECRET");
              channelAccessToken :=
                default [] (env !! js "LINE_CHANNEL_ACCESS_TOKEN") |};
         github :=
           {| token := default [] (env !! js "GITHUB_TOKEN");
              owner := default [] (env !! js "GITHUB_OWNER");
              repo := default [] (env !! js "GITHUB_REPO") |};
         blog :=
           {| baseUrl := default [] (env !! js "BLOG_BASE_URL");
              imageBasePath :=
                or_default (env !! js "BLOG_IMAGE_BASE_PATH") (js "/images");
              categories := [js "日記"; getCurrentYear];
              availableTags :=
                [js "お絵かき"; js "ねこ劇場"; js "おばけ"; js "つぽWorks";
                 js "今日のKさん"; js "今日のつぽ劇場"; js "今日の母劇場";
                 js "今日の自分劇場"; js "行事"; js "超落書きシリーズ"] |};
         storage :=
           {| storage_type := storageType;
              tableName := env !! js "DYNAMODB_TABLE_NAME";
              kvUrl := env !! js "KV_URL" |};
         imageStorage :=
           {| imageStorage_type := imageStorageType;
              bucketName := env !! js "S3_BUCKET_NAME";
              region := Some (or_default (env !! js "AWS_REGION")
                                         (js "us-east-1")) |} |} in
    if str_eqb (storage_type (storage config)) (js "dynamodb")
       && falsy_string (tableName (storage config)) then
      Throw (ThrownError (new_Error
        (js "DYNAMODB_TABLE_NAME is required when using DynamoDB storage")))
    else if str_eqb (storage_type (storage config)) (js "vercel-kv")
            && falsy_string (kvUrl (storage config)) then
      Throw (ThrownError (new_Error
        (js "KV_URL is required when using Vercel KV storage")))
    else if str_eqb (imageStorage_type (imageStorage config)) (js "s3")
            && falsy_string (bucketName (imageStorage config)) then
      Throw (ThrownError (new_Error
        (js "S3_BUCKET_NAME is required when using S3 image storage")))
    else Ok config.

(** [getImageFolderOptions()]. *)
Definition getImageFolderOptions : list jsstring :=
  [string_of_Z currentYear ++ js "-rakugaki";
   string_of_Z currentYear ++ js "-works"].

(** [createSessionStorage(config)]. *)
Definition createSessionStorage (config : FullConfig)
  : Result SessionStorageKind :=
  if str_eqb (storage_type (storage config)) (js "vercel-kv") then
    if falsy_string (kvUrl (storage config))
       && falsy_string (env !! js "KV_URL") then
      Throw (ThrownError (new_Error
               (js "KV_URL is required for Vercel KV storage")))
    else Ok (VercelKVSessionStorage (kvUrl (storage config)))
  else if str_eqb (storage_type (storage config)) (js "dynamodb") then
    if falsy_string (tableName (storage config)) then
      Throw (ThrownError (new_Error
               (js "Table name is required for DynamoDB storage")))
    else Ok (DynamoDBSessionStorage (default [] (tableName (storage config))))
  else
    Throw (ThrownError (new_Error
             (js "Unsupported storage type: "
                ++ storage_type (storage config)))).

End Load.

(** [generateImagePath(folder, filename)] of the configuration module. *)
Definition generateImagePath (folder filename : jsstring) : jsstring :=
  js "/images/" ++ folder ++ js "/" ++ filename.

(** [createImageProcessor(config)]. *)
Definition createImageProcessor (config : FullConfig)
  : Result ImageProcessorKind :=
  if str_eqb (imageStorage_type (imageStorage config)) (js "vercel-blob") then
    Ok VercelBlobImageProcessor
  else if str_eqb (imageStorage_type (imageStorage config)) (js "s3") then
    if falsy_string (bucketName (imageStorage config)) then
      Throw (ThrownError (new_Error
               (js "S3 bucket name is required for S3 image storage")))
    else Ok (S3ImageProcessor (default [] (bucketName (imageStorage config)))
                              (region (imageStorage config)))
  else
    Throw (ThrownError (new_Error
             (js "Unsupported image storage type: "
                ++ imageStorage_type (imageStorage config)))).

(** [validateConfig(config)]; [valid_URL] tells whether [new URL(s)]
    returns. *)
Definition validateConfig (valid_URL : jsstring -> bool)
    (config : FullConfig) : Result unit :=
  if bool_decide (channelSecret (line config) = [])
     || bool_decide (channelAccessToken (line config) = []) then
    Throw (ThrownError (new_Error
             (js "LINE channel configuration is incomplete")))
  else if bool_decide (token (github config) = [])
          || bool_decide (owner (github config) = [])
          || bool_decide (repo (github config) = []) then
    Throw (ThrownError (new_Error (js "GitHub configuration is incomplete")))
  else if bool_decide (baseUrl (blog config) = []) then
    Throw (ThrownError (new_Error (js "Blog base URL is required")))
  else if valid_URL (baseUrl (blog config)) then Ok tt
  else Throw (ThrownError (new_Error
                (js "Blog base URL must be a valid URL"))).

(** [DynamoDBSessionStorage]: every method throws this error. *)
Definition dynamodb_not_implemented : JsError :=
  new_Error
    (js "DynamoDB storage is not implemented. Please use Vercel KV storage.").

End Configuration.

(* ===================================================================== *)
(** ** Concrete environments *)
(* ===================================================================== *)

Module EnvironmentFixtures.

Import ConversationManager.

(** The environment of a deployment on Vercel. *)
Definition vercel_env : gmap jsstring jsstring :=
  {[ js "LINE_CHANNEL_SECRET" := js "secret";
     js "LINE_CHANNEL_ACCESS_TOKEN" := js "token";
     js "GITHUB_TOKEN" := js "ghp";
     js "GITHUB_OWNER" := js "owner";
     js "GITHUB_REPO" := js "repo";
     js "BLOG_BASE_URL" := js "https://blog.example";
     js "VERCEL" := js "1";
     js "KV_URL" := js "redis://kv" ]}.

(** A world whose session store is the DynamoDB one: the coming call, the
    read of the session, throws. *)
Definition dynamodb_world : World :=
  mkWorld ∅ []
    [Some (ThrownError Configuration.dynamodb_not_implemented)].

End EnvironmentFixtures.

(* ===================================================================== *)
(** ** Properties of the string helpers *)
(* ===================================================================== *)

Section StringFacts.

Lemma str_eqb_true (a b : jsstring) : str_eqb a b = true <-> a = b.
Proof. unfold str_eqb. apply bool_decide_eq_true. Qed.

Lemma array_includes_true (xs : list jsstring) (x : jsstring) :
  array_includes xs x = true <-> x ∈ xs.
Proof.
  unfold array_includes. rewrite existsb_exists. split.
  - intros (y & Hin & Heq). apply str_eqb_true in Heq. subst y.
    by apply list_elem_of_In.
  - intros Hin. exists x. split; [by apply list_elem_of_In|].
    by apply str_eqb_true.
Qed.

Lemma array_includes_false (xs : list jsstring) (x : jsstring) :
  array_includes xs x = false <-> x ∉ xs.
Proof.
  rewrite <- array_includes_true.
  destruct (array_includes xs x); intuition congruence.
Qed.

(** [trimStart] removes a run of whitespace and nothing else. *)
Lemma trimStart_split (s : jsstring) :
  exists ws, s = ws ++ trimStart s /\ forallb isWhiteSpace ws = true.
Proof.
  induction s as [|c s IH]; [by exists []|].
  simpl. destruct (isWhiteSpace c) eqn:Hc.
  - destruct IH as (ws & Hs & Hws). exists (c :: ws). split.
    + simpl. by rewrite <- Hs.
    + simpl. by rewrite Hc, Hws.
  - by exists [].
Qed.

Lemma trimStart_head (s : jsstring) (c : N) (r : jsstring) :
  trimStart s = c :: r -> isWhiteSpace c = false.
Proof.
  induction s as [|d s IH]; simpl; [done|].
  destruct (isWhiteSpace d) eqn:Hd; [done|].
  intros [= <- <-]. done.
Qed.

Lemma trimStart_fixed (s : jsstring) :
  head s ≫= (fun c => Some (isWhiteSpace c)) <> Some true -> trimStart s = s.
Proof.
  destruct s as [|c s]; simpl; [done|].
  destruct (isWhiteSpace c); [|done]. intros H. by destruct H.
Qed.

Lemma trimStart_whitespace (s : jsstring) :
  forallb isWhiteSpace s = true -> trimStart s = [].
Proof.
  induction s as [|c s IH]; simpl; [done|].
  destruct (isWhiteSpace c); simpl; [exact IH | done].
Qed.

Lemma trimStart_idem (s : jsstring) : trimStart (trimStart s) = trimStart s.
Proof.
  destruct (trimStart s) as [|c r] eqn:E; [done|].
  apply trimStart_head in E. simpl. by rewrite E.
Qed.

(** [trimEnd] keeps a prefix. *)
Lemma trimEnd_split (s : jsstring) :
  exists ws, s = trimEnd s ++ ws /\ forallb isWhiteSpace ws = true.
Proof.
  unfold trimEnd. destruct (trimStart_split (rev s)) as (ws & Hs & Hws).
  exists (rev ws). split.
  - rewrite <- rev_app_distr, <- Hs. by rewrite rev_involutive.
  - rewrite forallb_forall in *. intros x Hx. apply Hws. by apply in_rev.
Qed.

Lemma trimEnd_last (s : jsstring) (c : N) :
  last (trimEnd s) = Some c -> isWhiteSpace c = false.
Proof.
  unfold trimEnd. destruct (trimStart (rev s)) as [|d r] eqn:E; [done|].
  apply trimStart_head in E. simpl rev. rewrite last_snoc.
  by intros [= <-].
Qed.

Lemma trimEnd_head (s : jsstring) (c : N) :
  head (trimEnd s) = Some c -> head s = Some c.
Proof.
  destruct (trimEnd_split s) as (ws & Hs & _). intros H.
  rewrite Hs. destruct (trimEnd s); [done|]. exact H.
Qed.

(** The result of [trim] neither starts nor ends with whitespace. *)
Lemma trim_head (s : jsstring) (c : N) :
  head (trim s) = Some c -> isWhiteSpace c = false.
Proof.
  unfold trim. intros H. apply trimEnd_head in H.
  destruct (trimStart s) as [|d r] eqn:E; [done|].
  simpl in H. injection H as ->. by apply trimStart_head in E.
Qed.

Lemma trim_last (s : jsstring) (c : N) :
  last (trim s) = Some c -> isWhiteSpace c = false.
Proof. unfold trim. apply trimEnd_last. Qed.

Lemma trim_whitespace (s : jsstring) :
  forallb isWhiteSpace s = true -> trim s = [].
Proof. intros H. unfold trim. by rewrite trimStart_whitespace. Qed.

Lemma trimEnd_fixed (s : jsstring) :
  (forall c, last s = Some c -> isWhiteSpace c = false) -> trimEnd s = s.
Proof.
  intros H. unfold trimEnd. rewrite trimStart_fixed; [apply rev_involutive|].
  destruct s as [|x s _] using rev_ind; [done|].
  rewrite rev_unit. simpl. rewrite (H x); [done|]. apply last_snoc.
Qed.

Lemma trim_idem (s : jsstring) : trim (trim s) = trim s.
Proof.
  unfold trim at 1.
  rewrite trimStart_fixed.
  - apply trimEnd_fixed. apply trim_last.
  - destruct (head (trim s)) as [c|] eqn:E; [|done].
    simpl. by rewrite (trim_head _ _ E).
Qed.

Lemma trim_length (s : jsstring) : (length (trim s) <= length s)%nat.
Proof.
  unfold trim.
  destruct (trimStart_split s) as (ws & Hs & _).
  destruct (trimEnd_split (trimStart s)) as (ws' & Hs' & _).
  rewrite Hs at 2. rewrite Hs' at 2. rewrite !length_app. lia.
Qed.

End StringFacts.

(* ===================================================================== *)
(** ** The transition table *)
(* ===================================================================== *)

Section FlowFacts.

Import ConversationFlow.

(** C1. For every pair of steps, [isValidTransition from to] is true exactly
    when [to] is the forward-flow successor of [from] (as [getNextStep]
    gives it), or [to] is [IDLE] and [from] is not; and the pair
    ([IDLE], [IDLE]) is rejected. *)
Theorem isValidTransition_characterisation :
  (forall from to : ConversationStep,
      isValidTransition from to = true <->
      (getNextStep from = Some to \/ (to = IDLE /\ from <> IDLE)))
  /\ isValidTransition IDLE IDLE = false.
Proof.
  split; [|reflexivity].
  intros from to. split.
  - destruct from, to; vm_compute; intros H; try discriminate H;
      first [ by left | right; split; [reflexivity | discriminate] ].
  - intros [H | [-> H]].
    + destruct from; injection H as <-; reflexivity.
    + destruct from; first [ reflexivity | by destruct H ].
Qed.

(** The successor of a step is always a valid target. *)
Lemma getNextStep_valid (s : ConversationStep) :
  exists next, getNextStep s = Some next /\ isValidTransition s next = true.
Proof. destruct s; eexists; split; reflexivity. Qed.

Lemma transitionToNext_ok (now : Z) (st : ConversationState)
    (u : PostDataUpdates) :
  exists next, getNextStep (step st) = Some next /\
    transitionToNext now st u = Ok (Storage.updateStateStep now st next u).
Proof.
  destruct (getNextStep_valid (step st)) as (next & Hn & Hv).
  exists next. split; [done|]. unfold transitionToNext. by rewrite Hn, Hv.
Qed.

Lemma transitionTo_IDLE (now : Z) (st : ConversationState)
    (u : PostDataUpdates) :
  step st <> IDLE ->
  transitionTo now st IDLE u = Ok (Storage.updateStateStep now st IDLE u).
Proof.
  intros H. unfold transitionTo.
  destruct (step st) eqn:E; first [ by destruct H | reflexivity ].
Qed.

Lemma transitionTo_WAITING_TITLE (now : Z) (st : ConversationState)
    (u : PostDataUpdates) :
  transitionTo now st WAITING_TITLE u =
    if bool_decide (step st = IDLE)
    then Ok (Storage.updateStateStep now st WAITING_TITLE u)
    else Throw (invalid_transition (step st) WAITING_TITLE).
Proof. unfold transitionTo. destruct (step st); reflexivity. Qed.

(** A transition that carries no updates leaves the post data as it was. *)
Lemma merge_data_no_updates (d : PostData) :
  Storage.merge_data d no_updates = d.
Proof. by destruct d. Qed.

End FlowFacts.

(* ===================================================================== *)
(** ** The message dispatcher: which inputs make it throw *)
(* ===================================================================== *)

Section DispatcherFacts.

Import ConversationFlow ImageProcessor MessageProcessor Spec Fixtures.

Variable rt : Runtime.
Variable deps : Deps.
Variable now : Z.

(** Resolve the forward transition inside a handler. *)
Ltac forward_transition st u :=
  let next := fresh "next" in
  let Hn := fresh "Hnext" in
  let Ht := fresh "Htrans" in
  destruct (transitionToNext_ok now st u) as (next & Hn & Ht);
  rewrite Ht; cbn [mbind Result_bind try_catch].

Lemma try_catch_rethrow {A} (body : Result A) :
  try_catch body (fun error => Throw error) = body.
Proof. by destruct body. Qed.

Lemma handleTitleInput_returns (text : jsstring) (st : ConversationState) :
  exists r, handleTitleInput now text st = Ok r.
Proof.
  unfold handleTitleInput.
  destruct (length text <? 1)%nat; [by eexists|].
  destruct (100 <? length text)%nat; [by eexists|].
  forward_transition st (mkUpdates (Some text) None None None None).
  by eexists.
Qed.

Lemma handleContentInput_returns (text : jsstring) (st : ConversationState) :
  exists r, handleContentInput now text st = Ok r.
Proof.
  unfold handleContentInput.
  destruct (length text <? 1)%nat; [by eexists|].
  destruct (5000 <? length text)%nat; [by eexists|].
  forward_transition st (mkUpdates None (Some text) None None None).
  by eexists.
Qed.

Lemma handleTagSelection_returns (text : jsstring) (st : ConversationState) :
  exists r, handleTagSelection deps now text st = Ok r.
Proof.
  unfold handleTagSelection.
  destruct (length (parseTagSelection deps text) =? 0)%nat; [by eexists|].
  forward_transition st
    (mkUpdates None None None None (Some (parseTagSelection deps text))).
  by eexists.
Qed.

(** In [CONFIRMING] both answers lead to [IDLE], which is a valid target. *)
Lemma handleConfirmation_returns (text : jsstring) (st : ConversationState) :
  step st = CONFIRMING ->
  exists r, handleConfirmation rt deps now text st = Ok r.
Proof.
  intros Hs. unfold handleConfirmation.
  assert (Hidle : transitionTo now st IDLE no_updates =
                  Ok (Storage.updateStateStep now st IDLE no_updates)).
  { apply transitionTo_IDLE. by rewrite Hs. }
  rewrite Hidle. cbn [mbind Result_bind].
  destruct (array_includes affirmative _); [by eexists|].
  destruct (array_includes negative _); by eexists.
Qed.

(** A global command throws only when it is the start command and the
    conversation is not idle. *)
Lemma handleGlobalCommand_throws (command : jsstring) (st : ConversationState)
    (t : Thrown) :
  handleGlobalCommand rt now command st = Throw t ->
  toLowerCase rt command = js "投稿作成" /\ step st <> IDLE /\
  t = invalid_transition (step st) WAITING_TITLE.
Proof.
  unfold handleGlobalCommand.
  destruct (str_eqb (toLowerCase rt command) (js "投稿作成")) eqn:Hstart.
  - apply str_eqb_true in Hstart.
    rewrite transitionTo_WAITING_TITLE. case_bool_decide as Hidle.
    + discriminate.
    + cbn [mbind Result_bind]. intros [= <-]. done.
  - destruct (array_includes [js "ヘルプ"; js "help"] _); [discriminate|].
    destruct (array_includes _ _); [|discriminate].
    unfold canCancel. case_bool_decide as Hidle; cbn [negb]; [discriminate|].
    rewrite transitionTo_IDLE by done. discriminate.
Qed.

(** The start command outside [IDLE] does throw. *)
Lemma handleGlobalCommand_start (command : jsstring) (st : ConversationState) :
  toLowerCase rt command = js "投稿作成" ->
  step st <> IDLE ->
  handleGlobalCommand rt now command st =
    Throw (invalid_transition (step st) WAITING_TITLE).
Proof.
  intros Hc Hs. unfold handleGlobalCommand. rewrite Hc.
  replace (str_eqb (js "投稿作成") (js "投稿作成")) with true
    by (symmetry; by apply str_eqb_true).
  rewrite transitionTo_WAITING_TITLE. by rewrite bool_decide_eq_false_2.
Qed.

Lemma processTextMessage_throws (text : jsstring) (st : ConversationState)
    (t : Thrown) :
  processTextMessage rt deps now text st = Throw t ->
  toLowerCase rt (trim text) = js "投稿作成" /\ step st <> IDLE /\
  t = invalid_transition (step st) WAITING_TITLE.
Proof.
  unfold processTextMessage.
  destruct (isGlobalCommand rt (trim text)); [apply handleGlobalCommand_throws|].
  destruct (step st) eqn:Hs.
  - discriminate.
  - destruct (handleTitleInput_returns (trim text) st) as [r ->]. discriminate.
  - destruct (handleContentInput_returns (trim text) st) as [r ->]. discriminate.
  - discriminate.
  - destruct (handleTagSelection_returns (trim text) st) as [r ->]. discriminate.
  - destruct (handleConfirmation_returns (trim text) st Hs) as [r ->].
    discriminate.
Qed.

(** Whatever the image pipeline does, an image message is answered. *)
Lemma processImageMessage_returns (imageId : jsstring) (st : ConversationState) :
  exists r, processImageMessage rt deps now imageId st = Ok r.
Proof.
  unfold processImageMessage.
  destruct (negb _); [by eexists|].
  unfold try_catch at 1.
  match goal with |- context [match ?b with Ok _ => _ | Throw _ => _ end] =>
    destruct b end; by eexists.
Qed.

(** The dispatcher throws exactly on the start command outside [IDLE]. *)
Lemma processMessage_throws (message : LineMessage) (st : ConversationState)
    (userId : jsstring) (t : Thrown) :
  processMessage rt deps now message st userId = Throw t ->
  exists text, msg_type message = MText /\ msg_text message = Some text /\
    toLowerCase rt (trim text) = js "投稿作成" /\ step st <> IDLE /\
    t = invalid_transition (step st) WAITING_TITLE.
Proof.
  unfold processMessage. rewrite try_catch_rethrow.
  destruct (bool_decide (msg_type message = MText)) eqn:Htype; cbn [andb].
  - destruct (msg_text message) as [text|] eqn:Htext.
    + rewrite bool_decide_eq_true_2 by done. cbn [default id].
      intros Hp. exists text. apply bool_decide_eq_true in Htype.
      apply processTextMessage_throws in Hp.
      destruct Hp as (Hc & Hs & Ht). by repeat split.
    + rewrite bool_decide_eq_false_2 by (intros H; by apply H).
      destruct (_ && _).
      * destruct (processImageMessage_returns (default [] (msg_id message)) st)
          as [r ->]. discriminate.
      * discriminate.
  - destruct (_ && _).
    + destruct (processImageMessage_returns (default [] (msg_id message)) st)
        as [r ->]. discriminate.
    + discriminate.
Qed.

Lemma processMessage_start_outside_idle (text : jsstring)
    (st : ConversationState) (userId : jsstring) :
  toLowerCase rt (trim text) = js "投稿作成" ->
  step st <> IDLE ->
  processMessage rt deps now (textMessage text) st userId =
    Throw (invalid_transition (step st) WAITING_TITLE).
Proof.
  intros Hc Hs. unfold processMessage, textMessage.
  rewrite try_catch_rethrow. cbn [msg_type msg_text].
  rewrite !bool_decide_eq_true_2 by done. cbn [andb default id].
  unfold processTextMessage, isGlobalCommand. cbv zeta. rewrite Hc.
  replace (array_includes globalCommands (js "投稿作成")) with true
    by (symmetry; apply array_includes_true; vm_compute; apply list_elem_of_here).
  by rewrite handleGlobalCommand_start.
Qed.

(** Whatever text is accepted in [CONFIRMING], the state it leads to is
    [IDLE] with the post data as it was. *)
Lemma confirming_next_state_keeps_data (text : jsstring)
    (st st' : ConversationState) (r : ProcessingResult) :
  step st = CONFIRMING ->
  processTextMessage rt deps now text st = Ok r ->
  nextState r = Some st' ->
  step st' = IDLE /\ data st' = data st.
Proof.
  intros Hs. unfold processTextMessage, handleGlobalCommand, handleConfirmation.
  cbv zeta. rewrite Hs. rewrite transitionTo_WAITING_TITLE, Hs.
  rewrite transitionTo_IDLE by (rewrite Hs; discriminate).
  unfold canCancel.
  rewrite !(bool_decide_eq_false_2 (CONFIRMING = IDLE)) by discriminate.
  cbn [negb mbind Result_bind].
  repeat match goal with
         | |- context [if ?b then _ else _] => destruct b
         end;
    cbn [mbind Result_bind reply_only];
    intros E1 E2; try discriminate E1; injection E1 as <-;
    cbn [nextState] in E2; try discriminate E2; injection E2 as <-;
    cbn [Storage.updateStateStep step data]; by rewrite merge_data_no_updates.
Qed.

(** Replaying a script from a reachable state ends in a reachable state. *)
Lemma converse_reachable (messages : list LineMessage)
    (st st' : ConversationState) :
  Reachable rt deps st ->
  converse rt deps now messages st = Ok st' ->
  Reachable rt deps st'.
Proof.
  revert st. induction messages as [|m rest IH]; intros st Hst; simpl.
  - by intros [= <-].
  - destruct (processMessage rt deps now m st []) as [r|t] eqn:Hp;
      cbn [mbind Result_bind]; [|discriminate].
    apply IH. destruct (nextState r) as [st1|] eqn:Hn; cbn [default].
    + by eapply Reachable_step.
    + exact Hst.
Qed.

End DispatcherFacts.

(* ===================================================================== *)
(** ** The message dispatcher: commands, confirmation, title and body *)
(* ===================================================================== *)

Section DispatcherProperties.

Import ConversationFlow ImageProcessor MessageProcessor Spec Fixtures.

(** C2. The specification has the dispatcher never raise the
    invalid-transition error, the start command being acted on from [IDLE]
    only.  The code does not guard the start command: there is a reachable
    state in step [WAITING_TITLE] (the one the start command itself leads
    to from a new session) in which the text 投稿作成 makes [processMessage]
    throw "Invalid transition from waiting_title to waiting_title". *)
Theorem start_command_outside_idle_throws :
  exists st : ConversationState,
    Reachable ascii_runtime deps_png st /\
    step st = WAITING_TITLE /\
    processMessage ascii_runtime deps_png 2000
        (textMessage (js "投稿作成")) st (js "U1")
      = Throw (invalid_transition WAITING_TITLE WAITING_TITLE).
Proof.
  exists (Storage.updateStateStep 1000 (Storage.createIdleState 0)
            WAITING_TITLE no_updates).
  split; [|split; [reflexivity | vm_compute; reflexivity]].
  eapply (Reachable_step _ _ _ _ (textMessage (js "投稿作成")) 1000 (js "U1")).
  - apply (Reachable_idle _ _ 0).
  - vm_compute. reflexivity.
  - reflexivity.
Qed.

(** Every transition to [IDLE] that the dispatcher requests passes no
    updates, so the state it returns has the post data of the state it was
    given. *)
Lemma transitionTo_IDLE_keeps_data (now : Z) (st st' : ConversationState) :
  transitionTo now st IDLE no_updates = Ok st' ->
  step st' = IDLE /\ data st' = data st /\ createdAt st' = createdAt st.
Proof.
  unfold transitionTo. destruct (negb _); [discriminate|].
  intros [= <-]. cbn. by rewrite merge_data_no_updates.
Qed.

(** C3. The specification has completion and cancellation reset the state
    to a fresh idle instance with cleared post data.  The code moves to [IDLE]
    but keeps the data: in the reachable [CONFIRMING] state of the
    end-to-end scenario (title "T", body "C", an image, tags A and B), the
    answers はい and いいえ and the command キャンセル each return a next
    state in step [IDLE] whose post data is that of the state before, with
    the title still "T", and not the data of a fresh idle state. *)
Theorem completion_and_cancel_keep_post_data :
  exists st : ConversationState,
    Reachable ascii_runtime deps_png st /\
    step st = CONFIRMING /\
    title (data st) = Some (js "T") /\
    Forall (fun answer =>
              exists r st',
                processMessage ascii_runtime deps_png 2000
                    (textMessage answer) st (js "U1") = Ok r /\
                nextState r = Some st' /\
                step st' = IDLE /\
                data st' = data st /\
                title (data st') = Some (js "T") /\
                data st' <> data (Storage.createIdleState 2000))
           [js "はい"; js "いいえ"; js "キャンセル"].
Proof.
  eexists. split.
  { eapply (converse_reachable _ _ 1000 script_to_confirming).
    - apply (Reachable_idle _ _ 0).
    - vm_compute. reflexivity. }
  split; [reflexivity|]. split; [reflexivity|].
  repeat apply List.Forall_cons; try apply List.Forall_nil;
    (eexists; eexists; split; [vm_compute; reflexivity|];
     repeat split; try reflexivity; vm_compute; discriminate).
Qed.

(** C7. In step [WAITING_TITLE] the title handler rejects the empty text
    and texts of more than 100 code units, each with its own guidance and
    no next state, and for any other text returns the state advanced to
    [WAITING_CONTENT] with the text stored as title and the other fields
    kept; in step [WAITING_CONTENT] the body handler does the same with
    limit 5000, field [content] and next step [WAITING_IMAGE].  A title of
    100 units and a body of 5000 are accepted, 101 and 5001 are rejected. *)
Theorem title_and_content_input (now : Z) (d : PostData) (created updated : Z) :
  (forall text : jsstring,
      handleTitleInput now text (mkState WAITING_TITLE d created updated) =
        if bool_decide (length text = 0)%nat then
          Ok (reply_only (js "タイトルを入力してください。"))
        else if bool_decide (100 < length text)%nat then
          Ok (reply_only (js "タイトルが長すぎます。100文字以内で入力してください。"))
        else
          Ok {| nextState := Some
                  (mkState WAITING_CONTENT
                     (mkPostData (Some text) (content d) (imageUrl d)
                                 (imagePath d) (tags d))
                     created now);
                responseMessage := Some (
                  js "タイトル: " ++ DQUOTE ++ text ++ DQUOTE ++ LF ++ LF ++
                  js "次に、投稿の本文を入力してください。") |})
  /\
  (forall text : jsstring,
      handleContentInput now text (mkState WAITING_CONTENT d created updated) =
        if bool_decide (length text = 0)%nat then
          Ok (reply_only (js "本文を入力してください。"))
        else if bool_decide (5000 < length text)%nat then
          Ok (reply_only (js "本文が長すぎます。5000文字以内で入力してください。"))
        else
          Ok {| nextState := Some
                  (mkState WAITING_IMAGE
                     (mkPostData (title d) (Some text) (imageUrl d)
                                 (imagePath d) (tags d))
                     created now);
                responseMessage := Some (
                  js "本文を受信しました！📝" ++ LF ++ LF ++
                  js "次に、投稿に使用する画像を送信してください。" ++ LF ++
                  js "（JPEG、PNG、GIF形式に対応しています）") |})
  /\
  (forall c : N,
      (exists r st',
          handleTitleInput now (repeat c 100)
            (mkState WAITING_TITLE d created updated) = Ok r /\
          nextState r = Some st' /\ step st' = WAITING_CONTENT /\
          title (data st') = Some (repeat c 100)) /\
      (exists m,
          handleTitleInput now (repeat c 101)
            (mkState WAITING_TITLE d created updated) = Ok (reply_only m)) /\
      (exists r st',
          handleContentInput now (repeat c 5000)
            (mkState WAITING_CONTENT d created updated) = Ok r /\
          nextState r = Some st' /\ step st' = WAITING_IMAGE /\
          content (data st') = Some (repeat c 5000)) /\
      (exists m,
          handleContentInput now (repeat c (S 5000))
            (mkState WAITING_CONTENT d created updated) = Ok (reply_only m))).
Proof.
  assert (Htitle : forall text : jsstring,
      handleTitleInput now text (mkState WAITING_TITLE d created updated) =
        if bool_decide (length text = 0)%nat then
          Ok (reply_only (js "タイトルを入力してください。"))
        else if bool_decide (100 < length text)%nat then
          Ok (reply_only (js "タイトルが長すぎます。100文字以内で入力してください。"))
        else
          Ok {| nextState := Some
                  (mkState WAITING_CONTENT
                     (mkPostData (Some text) (content d) (imageUrl d)
                                 (imagePath d) (tags d))
                     created now);
                responseMessage := Some (
                  js "タイトル: " ++ DQUOTE ++ text ++ DQUOTE ++ LF ++ LF ++
                  js "次に、投稿の本文を入力してください。") |}).
  { intros text. unfold handleTitleInput.
    destruct (Nat.ltb_spec (length text) 1).
    { rewrite bool_decide_eq_true_2 by lia. reflexivity. }
    rewrite bool_decide_eq_false_2 by lia.
    destruct (Nat.ltb_spec 100 (length text)).
    { rewrite bool_decide_eq_true_2 by lia. reflexivity. }
    rewrite bool_decide_eq_false_2 by lia. reflexivity. }
  assert (Hcontent : forall text : jsstring,
      handleContentInput now text (mkState WAITING_CONTENT d created updated) =
        if bool_decide (length text = 0)%nat then
          Ok (reply_only (js "本文を入力してください。"))
        else if bool_decide (5000 < length text)%nat then
          Ok (reply_only (js "本文が長すぎます。5000文字以内で入力してください。"))
        else
          Ok {| nextState := Some
                  (mkState WAITING_IMAGE
                     (mkPostData (title d) (Some text) (imageUrl d)
                                 (imagePath d) (tags d))
                     created now);
                responseMessage := Some (
                  js "本文を受信しました！📝" ++ LF ++ LF ++
                  js "次に、投稿に使用する画像を送信してください。" ++ LF ++
                  js "（JPEG、PNG、GIF形式に対応しています）") |}).
  { intros text. unfold handleContentInput.
    destruct (Nat.ltb_spec (length text) 1).
    { rewrite bool_decide_eq_true_2 by lia. reflexivity. }
    rewrite bool_decide_eq_false_2 by lia.
    destruct (Nat.ltb_spec 5000 (length text)).
    { rewrite bool_decide_eq_true_2 by lia. reflexivity. }
    rewrite bool_decide_eq_false_2 by lia. reflexivity. }
  split; [exact Htitle|]. split; [exact Hcontent|].
  intros c. repeat split.
  - rewrite Htitle. rewrite repeat_length.
    rewrite bool_decide_eq_false_2 by lia.
    rewrite bool_decide_eq_false_2 by lia.
    eexists; eexists. repeat split.
  - rewrite Htitle. rewrite repeat_length.
    rewrite bool_decide_eq_false_2 by lia.
    rewrite bool_decide_eq_true_2 by lia. by eexists.
  - rewrite Hcontent. rewrite repeat_length.
    rewrite bool_decide_eq_false_2 by lia.
    rewrite bool_decide_eq_false_2 by lia.
    eexists; eexists. repeat split.
  - rewrite Hcontent. rewrite repeat_length.
    rewrite bool_decide_eq_false_2 by lia.
    rewrite bool_decide_eq_true_2 by lia. by eexists.
Qed.

End DispatcherProperties.

(* ===================================================================== *)
(** ** The message dispatcher: trimming of text *)
(* ===================================================================== *)

Section TrimProperties.

Import ConversationFlow ImageProcessor MessageProcessor Spec Fixtures.

Variable rt : Runtime.
Variable deps : Deps.

Ltac dispatch_cases :=
  repeat match goal with
  | |- context [transitionToNext ?n ?s ?u] =>
      let Ht := fresh "Ht" in
      destruct (transitionToNext_ok n s u) as (? & _ & Ht); rewrite Ht; clear Ht
  | |- context [transitionTo ?n ?s ?t ?u] => unfold transitionTo
  | |- context [if ?b then _ else _] => destruct b
  | |- context [match step ?s with _ => _ end] => destruct (step s)
  end.

Lemma processTextMessage_text_fields (now : Z) (text : jsstring)
    (st st' : ConversationState) (r : ProcessingResult) :
  processTextMessage rt deps now text st = Ok r ->
  nextState r = Some st' ->
  text_fields_step text st st'.
Proof.
  unfold processTextMessage, handleGlobalCommand, handleIdleState,
    handleTitleInput, handleContentInput, handleImageWaitingState,
    handleTagSelection, handleConfirmation, text_fields_step.
  cbv zeta.
  dispatch_cases;
    cbn [mbind Result_bind try_catch reply_only];
    intros E1 E2; try discriminate E1; injection E1 as <-;
    cbn [nextState] in E2; try discriminate E2; injection E2 as <-;
    cbn [Storage.updateStateStep Storage.merge_data data title content
         u_title u_content no_updates];
    auto.
Qed.

(** An image message leaves the title and the body alone. *)
Lemma processImageMessage_text_fields (now : Z) (imageId : jsstring)
    (st st' : ConversationState) (r : ProcessingResult) :
  processImageMessage rt deps now imageId st = Ok r ->
  nextState r = Some st' ->
  title (data st') = title (data st) /\ content (data st') = content (data st).
Proof.
  unfold processImageMessage.
  destruct (negb _); [intros [= <-]; discriminate|].
  destruct (downloadImage deps imageId) as [b|t];
    cbn [mbind Result_bind try_catch]; [|intros [= <-]; discriminate].
  destruct (processImage rt (image_env deps) b) as [p|t];
    cbn [mbind Result_bind try_catch]; [|intros [= <-]; discriminate].
  dispatch_cases. cbn [mbind Result_bind try_catch].
  intros [= <-] [= <-]. by cbn.
Qed.

Lemma processMessage_text_fields (now : Z) (message : LineMessage)
    (userId : jsstring) (st st' : ConversationState) (r : ProcessingResult) :
  processMessage rt deps now message st userId = Ok r ->
  nextState r = Some st' ->
  text_fields_step (default [] (msg_text message)) st st'.
Proof.
  unfold processMessage. rewrite try_catch_rethrow.
  destruct (_ && _); [apply processTextMessage_text_fields|].
  destruct (_ && _).
  - intros Hr Hn.
    destruct (processImageMessage_text_fields _ _ _ _ _ Hr Hn) as [Ht Hc].
    split; by left.
  - intros [= <-]; discriminate.
Qed.

(** Every title and body of a reachable state is a trimmed text. *)
Lemma reachable_text_fields_trimmed (st : ConversationState) :
  Reachable rt deps st -> text_fields_trimmed st.
Proof.
  induction 1 as [now | st st' message now userId r _ IH Hr Hn].
  - intros s [H | H]; discriminate H.
  - destruct (processMessage_text_fields _ _ _ _ _ _ Hr Hn) as [Ht Hc].
    intros s [H | H].
    + destruct Ht as [Ht | Ht]; rewrite Ht in H.
      * apply IH. by left.
      * injection H as <-. apply trim_idem.
    + destruct Hc as [Hc | Hc]; rewrite Hc in H.
      * apply IH. by right.
      * injection H as <-. apply trim_idem.
Qed.

Lemma empty_text_is_no_command :
  toLowerCase rt [] = [] -> isGlobalCommand rt [] = false.
Proof. intros H. unfold isGlobalCommand. rewrite H. reflexivity. Qed.

(** C10. The dispatcher works on the trimmed text: its result for a text is
    its result for the trimmed text; a whitespace-only text is rejected as
    empty in [WAITING_TITLE] and in [WAITING_CONTENT]; for a text that is
    not a command, acceptance in these steps is decided by the length of
    the trimmed text (1 to 100, 1 to 5000); and in every reachable state
    the stored title and body are trimmed texts, so their first and last
    code units are not whitespace. *)
Theorem text_is_trimmed_before_dispatch (now : Z) (text : jsstring)
    (st : ConversationState) :
  toLowerCase rt [] = [] ->
  processTextMessage rt deps now text st =
    processTextMessage rt deps now (trim text) st
  /\
  (forallb isWhiteSpace text = true ->
     (step st = WAITING_TITLE ->
        processTextMessage rt deps now text st =
          Ok (reply_only (js "タイトルを入力してください。"))) /\
     (step st = WAITING_CONTENT ->
        processTextMessage rt deps now text st =
          Ok (reply_only (js "本文を入力してください。"))))
  /\
  (isGlobalCommand rt (trim text) = false ->
     (step st = WAITING_TITLE ->
        exists r, processTextMessage rt deps now text st = Ok r /\
          (nextState r <> None <-> (1 <= length (trim text) <= 100)%nat)) /\
     (step st = WAITING_CONTENT ->
        exists r, processTextMessage rt deps now text st = Ok r /\
          (nextState r <> None <-> (1 <= length (trim text) <= 5000)%nat)))
  /\
  (Reachable rt deps st ->
     forall s, title (data st) = Some s \/ content (data st) = Some s ->
       trim s = s /\
       (forall c, head s = Some c \/ last s = Some c -> isWhiteSpace c = false)).
Proof.
  intros Hempty. split; [|split; [|split]].
  - unfold processTextMessage. cbv zeta. by rewrite trim_idem.
  - intros Hws. unfold processTextMessage. cbv zeta.
    rewrite (trim_whitespace _ Hws), (empty_text_is_no_command Hempty).
    split; intros ->; reflexivity.
  - intros Hcmd. unfold processTextMessage. cbv zeta. rewrite Hcmd.
    split; intros ->.
    + unfold handleTitleInput.
      destruct (Nat.ltb_spec (length (trim text)) 1);
        [eexists; split; [reflexivity|]; cbn; split; [done | lia]|].
      destruct (Nat.ltb_spec 100 (length (trim text)));
        [eexists; split; [reflexivity|]; cbn; split; [done | lia]|].
      dispatch_cases. cbn [mbind Result_bind].
      eexists; split; [reflexivity|]. cbn. split; [lia | done].
    + unfold handleContentInput.
      destruct (Nat.ltb_spec (length (trim text)) 1);
        [eexists; split; [reflexivity|]; cbn; split; [done | lia]|].
      destruct (Nat.ltb_spec 5000 (length (trim text)));
        [eexists; split; [reflexivity|]; cbn; split; [done | lia]|].
      dispatch_cases. cbn [mbind Result_bind].
      eexists; split; [reflexivity|]. cbn. split; [lia | done].
  - intros Hreach s Hs.
    pose proof (reachable_text_fields_trimmed st Hreach s Hs) as Htrim.
    split; [exact Htrim|].
    intros c [Hc | Hc]; rewrite <- Htrim in Hc.
    + by apply trim_head in Hc.
    + by apply trim_last in Hc.
Qed.

End TrimProperties.

(* ===================================================================== *)
(** ** Tag selection *)
(* ===================================================================== *)

Section TagSelection.

Import MessageProcessor Spec Fixtures.

(** Resolving the readings of the tokens is resolving the tokens. *)
Lemma resolve_readings (cat : list jsstring) (read : jsstring -> option Z)
    (tokens : list jsstring) :
  omap (resolve_index cat) (map read tokens) =
  omap (fun token => resolve_index cat (read token)) tokens.
Proof.
  induction tokens as [|token rest IH]; [reflexivity|].
  cbn. by rewrite IH.
Qed.

Lemma select_tag_resolved (cat selected : list jsstring) (num : option Z) :
  select_tag cat selected num =
    match resolve_index cat num with
    | Some tag => if bool_decide (tag ∈ selected) then selected
                  else selected ++ [tag]
    | None => selected
    end.
Proof.
  unfold select_tag, resolve_index. destruct num as [n|]; [|done].
  destruct (_ && _); [|done].
  destruct (cat !! Z.to_nat (n - 1)) as [tag|]; [|done].
  destruct (array_includes selected tag) eqn:E.
  - apply array_includes_true in E. by rewrite bool_decide_eq_true_2.
  - apply array_includes_false in E. by rewrite bool_decide_eq_false_2.
Qed.

Lemma filter_not_in_snoc (acc l : list jsstring) (t : jsstring) :
  filter (fun y => y ∉ acc ++ [t]) l =
  filter (fun y => y ∉ acc) (filter (fun y => y <> t) l).
Proof.
  rewrite list_filter_filter. apply list_filter_iff. intros y.
  rewrite not_elem_of_app, list_elem_of_singleton. tauto.
Qed.

Lemma filter_not_in_absorb (acc l : list jsstring) (t : jsstring) :
  t ∈ acc ->
  filter (fun y => y ∉ acc) (filter (fun y => y <> t) l) =
  filter (fun y => y ∉ acc) l.
Proof.
  intros Ht. rewrite list_filter_filter. apply list_filter_iff. intros y.
  split; [tauto|]. intros Hy. split; [done|]. by intros ->.
Qed.

(** The loop keeps what was selected and appends, in order of first
    occurrence, the resolved tags not yet selected. *)
Lemma select_loop (cat : list jsstring) (nums : list (option Z))
    (acc : list jsstring) :
  fold_left (select_tag cat) nums acc =
    acc ++ filter (fun y => y ∉ acc) (dedup_first (omap (resolve_index cat) nums)).
Proof.
  revert acc. induction nums as [|num nums IH]; intros acc.
  - cbn. by rewrite app_nil_r.
  - cbn [fold_left]. rewrite IH, select_tag_resolved.
    simpl (omap _ (_ :: _)).
    destruct (resolve_index cat num) as [tag|]; [|done].
    cbn [dedup_first]. case_bool_decide as Hin.
    + rewrite filter_cons_False by (intros H; by apply H).
      by rewrite filter_not_in_absorb.
    + rewrite filter_cons_True by done.
      rewrite <- app_assoc. cbn [app]. by rewrite filter_not_in_snoc.
Qed.

Lemma filter_not_in_nil (l : list jsstring) :
  filter (fun y => y ∉ []) l = l.
Proof.
  induction l as [|x l IH]; [done|].
  rewrite filter_cons_True by apply not_elem_of_nil. by rewrite IH.
Qed.

(** The result of the first-occurrence deduplication has no duplicates and
    the elements of its argument. *)
Lemma dedup_first_elem_of (l : list jsstring) (x : jsstring) :
  x ∈ dedup_first l <-> x ∈ l.
Proof.
  induction l as [|y l IH]; [done|].
  cbn [dedup_first]. rewrite !elem_of_cons, list_elem_of_filter, IH.
  destruct (decide (x = y)); tauto.
Qed.

Lemma dedup_first_NoDup (l : list jsstring) : NoDup (dedup_first l).
Proof.
  induction l as [|y l IH]; [constructor|].
  cbn [dedup_first]. constructor.
  - rewrite list_elem_of_filter. tauto.
  - by apply NoDup_filter.
Qed.

(** The input "2abc": the token is not a number, so the selection that
    drops every non-numeric token is empty; the code reads the leading 2 and
    selects the second tag. *)
Lemma numeric_prefix_token_is_selected :
  parseTagSelection deps_png (js "2abc") = [js "B"] /\
  tag_selection_strict catalogue (js "2abc") = [] /\
  parseTagSelection deps_png (js "2abc") <>
    tag_selection_strict (blog_availableTags (config deps_png)) (js "2abc").
Proof. vm_compute. repeat split; discriminate. Qed.

(** C6. Tag-selection parsing of a text: when the text starts
    with the new-tag prefix, the remainder, trimmed, is the sole selected
    tag if its length is between 1 and 20, and the selection is empty
    otherwise; any other text is split on commas, every token is trimmed and
    read by [parseInt] (leading sign, [0x] prefix and the longest run of
    leading digits; what follows the digits is ignored), readings that are
    NaN or outside 1..catalogue length are dropped, and the others are
    resolved to their tags and deduplicated keeping the first occurrence.
    The result has no duplicate.  Against the catalogue [A,B,C], "1,1,2"
    gives [A,B], "99,100" gives [], "2abc" gives [B] and the new-tag prefix
    followed by "X" gives [X]. *)
Theorem parseTagSelection_characterisation (deps : Deps) (text : jsstring) :
  parseTagSelection deps text =
    tag_selection (blog_availableTags (config deps)) text
  /\ NoDup (parseTagSelection deps text)
  /\ parseTagSelection deps_png (js "1,1,2") = [js "A"; js "B"]
  /\ parseTagSelection deps_png (js "99,100") = []
  /\ parseTagSelection deps_png (js "2abc") = [js "B"]
  /\ parseTagSelection deps_png (js "新規:X") = [js "X"].
Proof.
  assert (Heq : parseTagSelection deps text =
                tag_selection (blog_availableTags (config deps)) text).
  { unfold parseTagSelection, tag_selection. cbv zeta.
    destruct (startsWith text (js "新規:")).
    - unfold new_tag_selection, substring_from. cbv zeta.
      destruct (Nat.ltb_spec 0 (length (trim (drop 3 text))));
        destruct (Nat.leb_spec (length (trim (drop 3 text))) 20); cbn [andb];
        first [ by rewrite bool_decide_eq_true_2 by lia
              | by rewrite bool_decide_eq_false_2 by lia ].
    - unfold index_selection. rewrite select_loop. cbn [app].
      rewrite filter_not_in_nil. f_equal.
      apply resolve_readings. }
  split; [exact Heq|]. split; [|by vm_compute].
  rewrite Heq. unfold tag_selection.
  destruct (startsWith text (js "新規:")).
  - unfold new_tag_selection. cbv zeta. case_bool_decide.
    + apply NoDup_singleton.
    + constructor.
  - apply dedup_first_NoDup.
Qed.

End TagSelection.

(* ===================================================================== *)
(** ** The image pipeline *)
(* ===================================================================== *)

Section ImagePipeline.

Import ImageProcessor MessageProcessor Spec Fixtures.

Variable rt : Runtime.
Variable env : Env.

(** What [validateImage] throws is a [ValidationError], whatever sharp
    threw. *)
Lemma validateImage_throws_validation (buf : Buffer) (t : Thrown) :
  validateImage rt env buf = Throw t ->
  exists e, t = ThrownError e /\ err_class e = ValidationErrorClass.
Proof.
  unfold validateImage.
  destruct (sharp_metadata env buf) as [md|t0]; cbn [mbind Result_bind try_catch].
  - repeat match goal with
           | |- context [if ?b then _ else _] => destruct b
           end; cbn [try_catch instanceof]; try discriminate;
      rewrite ?bool_decide_eq_true_2 by done;
      intros [= <-]; by eexists.
  - destruct (instanceof ValidationErrorClass t0) eqn:Hi.
    + intros [= <-]. destruct t0 as [e|]; [|discriminate].
      exists e. split; [done|]. by apply bool_decide_eq_true in Hi.
    + intros [= <-]. by eexists.
Qed.

(** What an accepted buffer looks like. *)
Lemma validateImage_ok_inv (buf : Buffer) (v : ImageValidationResult) :
  validateImage rt env buf = Ok v ->
  exists f w h,
    sharp_metadata env buf = Ok (mkMetadata (Some f) (Some w) (Some h)) /\
    width v = w /\ height v = h /\
    size v = Z.of_nat (length buf) /\ (size v <= maxFileSize)%Z /\
    format v = toLowerCase rt f /\
    array_includes supportedFormats (format v) = true.
Proof.
  unfold validateImage.
  destruct (sharp_metadata env buf) as [[[f|] [w|] [h|]]|t0];
    cbn [mbind Result_bind try_catch md_format md_width md_height
         falsy_string falsy_number orb];
    try (destruct f); try (destruct w); try (destruct h);
    cbn [try_catch instanceof orb]; rewrite ?orb_true_r;
    cbn [try_catch instanceof];
    rewrite ?bool_decide_eq_true_2 by done; try discriminate.
  all: try (destruct (instanceof ValidationErrorClass t0); discriminate).
  all: cbn [default id];
    match goal with
    | |- context [array_includes supportedFormats ?x] =>
        destruct (array_includes supportedFormats x) eqn:Hfmt
    end; cbn [negb try_catch instanceof];
    rewrite ?bool_decide_eq_true_2 by done; try discriminate;
    match goal with
    | |- context [(?a >? ?b)%Z] => destruct (Z.gtb_spec a b)
    end; cbn [try_catch instanceof];
    rewrite ?bool_decide_eq_true_2 by done; try discriminate;
    intros [= <-]; do 3 eexists; cbn; repeat split; try done; lia.
Qed.

Lemma validateImage_ok (buf : Buffer) (f : jsstring) (w h : Z) :
  sharp_metadata env buf = Ok (mkMetadata (Some f) (Some w) (Some h)) ->
  f <> [] -> w <> 0%Z -> h <> 0%Z ->
  array_includes supportedFormats (toLowerCase rt f) = true ->
  (Z.of_nat (length buf) <= maxFileSize)%Z ->
  validateImage rt env buf =
    Ok {| isValid := true;
          mimeType := js "image/" ++
                      (if str_eqb (toLowerCase rt f) (js "jpg") then js "jpeg"
                       else toLowerCase rt f);
          width := w; height := h;
          size := Z.of_nat (length buf);
          format := toLowerCase rt f |}.
Proof.
  intros Hmd Hf Hw Hh Hfmt Hsize. unfold validateImage. rewrite Hmd.
  cbn [mbind Result_bind md_format md_width md_height default id].
  destruct f; [done|]. destruct w; [done| |]; (destruct h; [done| |]);
    cbn [falsy_string falsy_number orb]; rewrite Hfmt; cbn [negb];
    (destruct (Z.gtb_spec (Z.of_nat (length buf)) maxFileSize); [lia|]);
    reflexivity.
Qed.

(** A buffer over the ceiling is never accepted. *)
Lemma validateImage_over_limit (buf : Buffer) :
  (maxFileSize < Z.of_nat (length buf))%Z ->
  exists e, validateImage rt env buf = Throw (ThrownError e) /\
            err_class e = ValidationErrorClass.
Proof.
  intros Hbig. destruct (validateImage rt env buf) as [v|t] eqn:Hv.
  - apply validateImage_ok_inv in Hv.
    destruct Hv as (f & w & h & _ & _ & _ & Hs & Hle & _). lia.
  - apply validateImage_throws_validation in Hv.
    destruct Hv as (e & -> & He). by exists e.
Qed.

(** A failure of validation leaves [processImage] as it is. *)
Lemma processImage_validation_failure (buf : Buffer) (t : Thrown) :
  validateImage rt env buf = Throw t -> processImage rt env buf = Throw t.
Proof.
  intros Hv. unfold processImage. rewrite Hv.
  cbn [mbind Result_bind try_catch].
  apply validateImage_throws_validation in Hv. destruct Hv as (e & -> & He).
  cbn [instanceof]. by rewrite He.
Qed.

(** A failure of the resize stage leaves [processImage] as a
    [ProcessingError]. *)
Lemma resizeImageIfNeeded_throws_processing (buf : Buffer)
    (v : ImageValidationResult) (t : Thrown) :
  resizeImageIfNeeded env buf v = Throw t ->
  exists e, t = ThrownError e /\ err_class e = ProcessingErrorClass.
Proof.
  unfold resizeImageIfNeeded. destruct (fitsWithinLimits v); [discriminate|].
  destruct (sharp_resize_jpeg env buf _ _); cbn [try_catch]; [discriminate|].
  intros [= <-]. by eexists.
Qed.

Lemma processImage_resize_failure (buf : Buffer) (v : ImageValidationResult)
    (t : Thrown) :
  validateImage rt env buf = Ok v ->
  resizeImageIfNeeded env buf v = Throw t ->
  processImage rt env buf = Throw t.
Proof.
  intros Hv Hr. unfold processImage. rewrite Hv.
  cbn [mbind Result_bind]. rewrite Hr. cbn [mbind Result_bind try_catch].
  apply resizeImageIfNeeded_throws_processing in Hr.
  destruct Hr as (e & -> & He). cbn [instanceof]. rewrite He.
  by rewrite orb_true_r.
Qed.

(** The path of an image that needs no resize. *)
Lemma processImage_within_limits (buf : Buffer) (v : ImageValidationResult)
    (key : jsstring) :
  validateImage rt env buf = Ok v ->
  fitsWithinLimits v = true ->
  uploadToTempStorage env buf (generateFilename env (Some (format v))) = Ok key ->
  processImage rt env buf =
    Ok {| buffer := buf;
          filename := generateFilename env (Some (format v));
          relativePath :=
            generateImagePath env (Some (generateFilename env (Some (format v))));
          tempStorageKey := key;
          pi_mimeType := mimeType v;
          pi_size := size v |}.
Proof.
  intros Hv Hfit Hup. unfold processImage. rewrite Hv.
  cbn [mbind Result_bind]. unfold resizeImageIfNeeded. rewrite Hfit.
  cbn [mbind Result_bind negb]. rewrite Hup. reflexivity.
Qed.

End ImagePipeline.

(* ===================================================================== *)
(** ** The image pipeline: size ceiling, resize stage, failure replies *)
(* ===================================================================== *)

Section ImageProperties.

Import ConversationFlow ImageProcessor MessageProcessor Spec Fixtures.

Lemma buffer_10MiB_length :
  Z.of_nat (length buffer_10MiB) = (10 * 1024 * 1024)%Z.
Proof. unfold buffer_10MiB. rewrite repeat_length, N_nat_Z. reflexivity. Qed.

Lemma buffer_over_10MiB_length :
  Z.of_nat (length buffer_over_10MiB) = (10 * 1024 * 1024 + 1)%Z.
Proof. unfold buffer_over_10MiB. rewrite repeat_length, N_nat_Z. reflexivity. Qed.

(** A buffer of exactly 10 MiB that decodes as a 100 by 100 PNG: its length
    is at least 10 MiB, validation accepts it and the pipeline completes. *)
Lemma buffer_of_exactly_10MiB_is_accepted :
  (Z.of_nat (length buffer_10MiB) >= 10 * 1024 * 1024)%Z /\
  validateImage ascii_runtime (image_env_of (js "png") 100 100) buffer_10MiB =
    Ok {| isValid := true; mimeType := js "image/png";
          width := 100; height := 100;
          size := 10485760; format := js "png" |} /\
  exists p,
    processImage ascii_runtime (image_env_of (js "png") 100 100) buffer_10MiB
      = Ok p.
Proof.
  pose proof buffer_10MiB_length as Hlen.
  assert (Hv : validateImage ascii_runtime (image_env_of (js "png") 100 100)
                 buffer_10MiB =
               Ok {| isValid := true; mimeType := js "image/png";
                     width := 100; height := 100;
                     size := 10485760; format := js "png" |}).
  { rewrite (validateImage_ok _ _ _ (js "png") 100 100).
    - rewrite Hlen. reflexivity.
    - reflexivity.
    - vm_compute. discriminate.
    - discriminate.
    - discriminate.
    - vm_compute. reflexivity.
    - rewrite Hlen. unfold maxFileSize. lia. }
  split; [rewrite Hlen; lia|]. split; [exact Hv|].
  eexists. eapply processImage_within_limits.
  - exact Hv.
  - reflexivity.
  - reflexivity.
Qed.

(** C5. Every buffer of more than 10 MiB (10*1024*1024 bytes) is
    rejected with a [ValidationError] by [validateImage], and hence by
    [processImage], whatever sharp reports about its content.  A buffer of
    exactly 10 MiB is not rejected for its size. *)
Theorem oversized_buffer_is_rejected (rt : Runtime) (env : Env) (buf : Buffer) :
  (10 * 1024 * 1024 < Z.of_nat (length buf))%Z ->
  (exists e, validateImage rt env buf = Throw (ThrownError e) /\
             err_class e = ValidationErrorClass) /\
  (exists e, processImage rt env buf = Throw (ThrownError e) /\
             err_class e = ValidationErrorClass).
Proof.
  intros Hbig.
  destruct (validateImage_over_limit rt env buf Hbig) as (e & Hv & He).
  split; exists e; split; try done.
  by apply processImage_validation_failure.
Qed.

Lemma oversized_buffer_is_rejected_witness :
  (10 * 1024 * 1024 < Z.of_nat (length buffer_over_10MiB))%Z /\
  (exists e, validateImage ascii_runtime (image_env_of (js "png") 100 100)
               buffer_over_10MiB = Throw (ThrownError e) /\
             err_class e = ValidationErrorClass) /\
  (exists e, processImage ascii_runtime (image_env_of (js "png") 100 100)
               buffer_over_10MiB = Throw (ThrownError e) /\
             err_class e = ValidationErrorClass).
Proof.
  assert (H : (10 * 1024 * 1024 < Z.of_nat (length buffer_over_10MiB))%Z).
  { rewrite buffer_over_10MiB_length. lia. }
  split; [exact H|].
  exact (oversized_buffer_is_rejected ascii_runtime
           (image_env_of (js "png") 100 100) buffer_over_10MiB H).
Defined.

(** The toy sharp keeps the promise of [fit: 'inside']. *)
Lemma square_env_contract : sharp_inside_contract square_env.
Proof.
  intros input output opts quality w h f _ _ Hw Hh Hmd Hrs.
  cbn in Hmd, Hrs. injection Hrs as <-.
  destruct input as [|b input]; [discriminate|].
  injection Hmd as _ <- <-.
  assert (Hk : (1 <= Z.to_nat (Z.min (rs_width opts) (rs_height opts)))%nat)
    by lia.
  assert (Hle : (Z.of_nat (Z.to_nat (Z.min (rs_width opts) (rs_height opts)))
                 <= Z.min (rs_width opts) (rs_height opts))%Z) by lia.
  destruct (Z.to_nat (Z.min (rs_width opts) (rs_height opts))) as [|k];
    [lia|].
  cbn [take sharp_metadata square_env].
  eexists; eexists. split; [reflexivity|].
  cbn [length]. rewrite length_take. lia.
Qed.

(** C9. The resize stage returns the buffer it was given when the validated
    width and height are both at most 2048.  Otherwise it asks sharp for a
    resize into the 2048 by 2048 box with [fit: 'inside'] and
    [withoutEnlargement: true] and a JPEG encoding of quality 85, the same
    request for every original format; if that call throws, the stage
    throws a [ProcessingError] (not a [ValidationError]) and [processImage]
    rethrows it; if it succeeds then, sharp keeping its documented promise
    for these options, the output is a JPEG whose dimensions are at most
    2048, at most those of the input, and in the input's aspect ratio up to
    rounding. *)
Theorem resizeImageIfNeeded_behaviour (rt : Runtime) (env : Env)
    (buf : Buffer) (v : ImageValidationResult) :
  sharp_inside_contract env ->
  ((width v <= 2048)%Z /\ (height v <= 2048)%Z ->
     resizeImageIfNeeded env buf v = Ok buf)
  /\
  ((2048 < width v)%Z \/ (2048 < height v)%Z ->
     resizeImageIfNeeded env buf v =
       try_catch
         (sharp_resize_jpeg env buf (mkResize 2048 2048 Inside true) 85%Z)
         (fun error =>
            Throw (ThrownError (new_ProcessingError
                     (js "Image resize failed: " ++ message_or_unknown error)
                     (js "画像のリサイズに失敗しました。"))))
     /\
     (forall t, resizeImageIfNeeded env buf v = Throw t ->
        instanceof ProcessingErrorClass t = true /\
        instanceof ValidationErrorClass t = false /\
        (validateImage rt env buf = Ok v -> processImage rt env buf = Throw t))
     /\
     (forall out,
        validateImage rt env buf = Ok v ->
        resizeImageIfNeeded env buf v = Ok out ->
        exists w' h' : Z,
          sharp_metadata env out =
            Ok (mkMetadata (Some (js "jpeg")) (Some w') (Some h')) /\
          (0 < w' <= 2048)%Z /\ (0 < h' <= 2048)%Z /\
          (w' <= width v)%Z /\ (h' <= height v)%Z /\
          (Z.abs (w' * height v - h' * width v)
             <= Z.max (width v) (height v))%Z)).
Proof.
  intros Hsharp. split.
  - intros [Hw Hh]. unfold resizeImageIfNeeded, fitsWithinLimits, maxWidth,
      maxHeight.
    destruct (Z.leb_spec (width v) 2048); [|lia].
    destruct (Z.leb_spec (height v) 2048); [|lia]. reflexivity.
  - intros Hbig.
    assert (Hfit : fitsWithinLimits v = false).
    { unfold fitsWithinLimits, maxWidth, maxHeight.
      destruct (Z.leb_spec (width v) 2048);
        destruct (Z.leb_spec (height v) 2048); cbn; try done; lia. }
    assert (Heq : resizeImageIfNeeded env buf v =
       try_catch
         (sharp_resize_jpeg env buf (mkResize 2048 2048 Inside true) 85%Z)
         (fun error =>
            Throw (ThrownError (new_ProcessingError
                     (js "Image resize failed: " ++ message_or_unknown error)
                     (js "画像のリサイズに失敗しました。"))))).
    { unfold resizeImageIfNeeded. by rewrite Hfit. }
    split; [exact Heq|]. split.
    + intros t Ht.
      destruct (resizeImageIfNeeded_throws_processing env buf v t Ht)
        as (e & -> & He).
      cbn [instanceof]. rewrite He. repeat split.
      intros Hv. by apply (processImage_resize_failure rt env buf v).
    + intros out Hv Hout. rewrite Heq in Hout.
      destruct (sharp_resize_jpeg env buf (mkResize 2048 2048 Inside true) 85%Z)
        as [out'|t] eqn:Hrs; cbn [try_catch] in Hout; [|discriminate].
      injection Hout as ->.
      destruct (validateImage_ok_inv rt env buf v Hv)
        as (f & w & h & Hmd & <- & <- & _).
      destruct (Hsharp buf out (mkResize 2048 2048 Inside true) 85%Z _ _ f
                  eq_refl eq_refl eq_refl eq_refl Hmd Hrs)
        as (w' & h' & Hout & Hw' & Hh' & Hlw & Hlh & Hasp).
      exists w', h'. cbn in Hw', Hh'. done.
Qed.

Lemma resizeImageIfNeeded_behaviour_witness :
  sharp_inside_contract square_env /\
  ((2048 < width square_validation)%Z \/ (2048 < height square_validation)%Z) /\
  validateImage ascii_runtime square_env square_image = Ok square_validation /\
  resizeImageIfNeeded square_env square_image square_validation
    = Ok (repeat Byte.x00 2048) /\
  exists w' h' : Z,
    sharp_metadata square_env (repeat Byte.x00 2048) =
      Ok (mkMetadata (Some (js "jpeg")) (Some w') (Some h')) /\
    (0 < w' <= 2048)%Z /\ (0 < h' <= 2048)%Z /\
    (w' <= width square_validation)%Z /\ (h' <= height square_validation)%Z /\
    (Z.abs (w' * height square_validation - h' * width square_validation)
       <= Z.max (width square_validation) (height square_validation))%Z.
Proof.
  pose (buf := square_image). pose (v := square_validation).
  assert (Hbig : (2048 < width v)%Z \/ (2048 < height v)%Z)
    by (left; reflexivity).
  assert (Hv : validateImage ascii_runtime square_env buf = Ok v)
    by (vm_compute; reflexivity).
  assert (Hr : resizeImageIfNeeded square_env buf v = Ok (repeat Byte.x00 2048))
    by (vm_compute; reflexivity).
  split; [exact square_env_contract|]. split; [exact Hbig|].
  split; [exact Hv|]. split; [exact Hr|].
  destruct (resizeImageIfNeeded_behaviour ascii_runtime square_env buf v
              square_env_contract) as [_ Hresize].
  destruct (Hresize Hbig) as (_ & _ & Hdims).
  exact (Hdims _ Hv Hr).
Defined.

(** When the download or the pipeline throws, the reply carries no next
    state. *)
Lemma image_failure_keeps_state (rt : Runtime) (deps : Deps) (now : Z)
    (imageId : jsstring) (st : ConversationState) (t : Thrown) :
  step st = WAITING_IMAGE ->
  (imageBuffer ← downloadImage deps imageId;
   processImage rt (image_env deps) imageBuffer) = Throw t ->
  exists m, processImageMessage rt deps now imageId st = Ok (reply_only m).
Proof.
  intros Hs Hfail. unfold processImageMessage. rewrite Hs.
  rewrite bool_decide_eq_true_2 by done. cbn [negb].
  destruct (downloadImage deps imageId) as [b|t0];
    cbn [mbind Result_bind try_catch] in *; [|by eexists].
  rewrite Hfail. cbn [mbind Result_bind try_catch]. by eexists.
Qed.

(** A text of ASCII units contains no phrase that starts outside ASCII. *)
Lemma ascii_text_lacks_phrase (m phrase : jsstring) :
  Forall (fun u => u < 128) m ->
  match phrase with c :: _ => 128 <=? c | [] => false end = true ->
  str_includes m phrase = false.
Proof.
  intros Hm Hbig. destruct phrase as [|c phrase]; [discriminate|].
  apply N.leb_le in Hbig.
  induction Hm as [|u m Hu _ IH]; [reflexivity|].
  cbn [str_includes startsWith]. rewrite IH, orb_false_r.
  destruct (N.eqb_spec c u) as [->|]; [lia | reflexivity].
Qed.

(** Whenever the pipeline throws an error whose internal message is ASCII,
    as are the messages [validateImage] composes from ASCII format names
    and decoder messages, the reply is the generic one. *)
Lemma ascii_error_gets_generic_reply (rt : Runtime) (deps : Deps) (now : Z)
    (imageId : jsstring) (st : ConversationState) (b : Buffer) (e : JsError) :
  step st = WAITING_IMAGE ->
  downloadImage deps imageId = Ok b ->
  processImage rt (image_env deps) b = Throw (ThrownError e) ->
  Forall (fun u => u < 128) (err_message e) ->
  processImageMessage rt deps now imageId st = Ok (reply_only generic_image_error).
Proof.
  intros Hs Hd Hp Hascii. unfold processImageMessage. rewrite Hs.
  rewrite bool_decide_eq_true_2 by done. cbn [negb].
  rewrite Hd. cbn [mbind Result_bind]. rewrite Hp.
  cbn [mbind Result_bind try_catch].
  rewrite !(ascii_text_lacks_phrase (err_message e) _ Hascii)
    by (vm_compute; reflexivity).
  reflexivity.
Qed.
(** C4. The specification has a validation failure of the image pipeline
    answered with the pipeline's user-facing message.  The dispatcher tests
    the internal [message] of the error for three Japanese phrases that only
    the [userMessage] contains, so the test fails: for an image that sharp
    decodes as TIFF, received in [WAITING_IMAGE], the pipeline throws the
    [ValidationError] with user message "サポートされていない画像形式です: TIFF",
    and the reply is the generic image-processing-failed text; the state is
    left unchanged. *)
Theorem validation_failure_gets_generic_reply :
  downloadImage deps_tiff (js "m1") = Ok downloaded_bytes /\
  processImage ascii_runtime (image_env deps_tiff) downloaded_bytes =
    Throw (ThrownError (new_ValidationError
             (js "Unsupported image format: tiff")
             (js "サポートされていない画像形式です: TIFF"))) /\
  processMessage ascii_runtime deps_tiff 2000 (imageMessage (js "m1"))
      waiting_image_state (js "U1") = Ok (reply_only generic_image_error) /\
  generic_image_error <> js "サポートされていない画像形式です: TIFF".
Proof. vm_compute. repeat split; discriminate. Qed.

End ImageProperties.

(* ===================================================================== *)
(** ** The conversation manager: accesses to the session store *)
(* ===================================================================== *)

Section ManagerProperties.

Import ImageProcessor MessageProcessor ConversationManager Spec Fixtures.

Lemma new_events_app (store store' : gmap jsstring ConversationState)
    (tr es : list Event) (fl fl' : list (option Thrown)) :
  new_events (mkWorld store tr fl) (mkWorld store' (tr ++ es) fl') = es.
Proof. unfold new_events. cbn [trace]. apply drop_app_length. Qed.

(** Split on everything the run branches on. *)
Ltac run_cases :=
  repeat (cbv beta iota zeta delta
            [fst snd sessions trace faults tail next_fault
             nextState responseMessage
             truthy_string falsy_string negb default id];
          match goal with
          | |- context [match ?x with _ => _ end] =>
              is_var x; destruct x
          | |- context [match ?m !! ?k with _ => _ end] =>
              destruct (m !! k) eqn:?
          | |- context [MessageProcessor.processMessage ?a ?b ?c ?d ?e ?f] =>
              destruct (MessageProcessor.processMessage a b c d e f)
          end).

(** The first message of a new user, the start command.  The store is
    read, the fresh idle state is written before the
    processor is called, and the state the processor returns is written
    after it: two writes in one invocation, the first of them before message
    processing. *)
Lemma new_user_start_writes_twice :
  (exists reply,
     run_events ascii_runtime deps_png 1000 2000 (js "U1")
         (textMessage (js "投稿作成")) (js "tok") new_user_world =
       [SessionGet (js "U1");
        SessionSet (js "U1") (Storage.createIdleState 1000);
        ProcessorCall (textMessage (js "投稿作成")) (Storage.createIdleState 1000);
        SessionSet (js "U1")
          (Storage.updateStateStep 2000 (Storage.createIdleState 1000)
             WAITING_TITLE no_updates);
        LineReply (js "tok") reply]) /\
  count_events is_set
    (run_events ascii_runtime deps_png 1000 2000 (js "U1")
       (textMessage (js "投稿作成")) (js "tok") new_user_world) = 2%nat /\
  count_events is_set
    (before_dispatch
       (run_events ascii_runtime deps_png 1000 2000 (js "U1")
          (textMessage (js "投稿作成")) (js "tok") new_user_world)) = 1%nat.
Proof.
  split; [eexists; vm_compute; reflexivity|].
  split; vm_compute; reflexivity.
Qed.

(** C8. Within one invocation of [processMessage] the session
    store is read exactly once, as the first collaborator call.  Before the
    processor is called there is no write when the store holds a session of
    the user; when the read succeeds and finds none, there is exactly one,
    of the fresh idle state.  After the processor has returned there is at
    most one write.  So an invocation writes at most twice, and at most once
    for a user whose session is stored. *)
Theorem processMessage_store_accesses (rt : Runtime) (deps : Deps)
    (now_idle now_step : Z) (userId : jsstring) (message : LineMessage)
    (replyToken : jsstring) (w : World) :
  head (run_events rt deps now_idle now_step userId message replyToken w)
    = Some (SessionGet userId)
  /\
  List.filter is_get
    (run_events rt deps now_idle now_step userId message replyToken w)
    = [SessionGet userId]
  /\
  (List.filter is_set
     (before_dispatch
        (run_events rt deps now_idle now_step userId message replyToken w))
     = [] \/
   (sessions w !! userId = None /\
    List.filter is_set
      (before_dispatch
         (run_events rt deps now_idle now_step userId message replyToken w))
      = [SessionSet userId (ConversationFlow.createInitialState now_idle)]))
  /\
  (List.filter is_set
     (after_dispatch
        (run_events rt deps now_idle now_step userId message replyToken w))
     = [] \/
   exists next,
     List.filter is_set
       (after_dispatch
          (run_events rt deps now_idle now_step userId message replyToken w))
       = [SessionSet userId next])
  /\
  (count_events is_set
     (run_events rt deps now_idle now_step userId message replyToken w)
     <= 2)%nat
  /\
  (is_Some (sessions w !! userId) ->
   (count_events is_set
      (run_events rt deps now_idle now_step userId message replyToken w)
      <= 1)%nat)
  /\
  (next_fault w = None -> sessions w !! userId = None ->
   List.filter is_set
     (before_dispatch
        (run_events rt deps now_idle now_step userId message replyToken w))
     = [SessionSet userId (ConversationFlow.createInitialState now_idle)]).
Proof.
  unfold run_events, processMessage, getCurrentState, updateState,
    processor_processMessage, try_catchM, throwM, sessionStorage_get,
    sessionStorage_set, lineClient_replyMessage, collaborator_call,
    mbind, M_bind, mret, M_ret.
  destruct w as [store tr fl].
  run_cases.
  all: rewrite <- ?app_assoc; rewrite new_events_app.
  all: cbn [app List.filter is_get is_set before_dispatch after_dispatch
            head count_events length].
  all: split; [reflexivity|]; split; [reflexivity|].
  all: split;
    [first [ left; reflexivity
           | right; split; [first [assumption | reflexivity] | reflexivity] ]|].
  all: split;
    [first [ left; reflexivity | right; eexists; reflexivity ]|].
  all: split; [lia|].
  all: split; [intros Hsome; first [ lia | destruct Hsome as [? [=]] ]|].
  all: intros Hfault Hnone; cbn in Hfault;
    first [ reflexivity | discriminate Hfault | discriminate Hnone ].
Qed.

Lemma processMessage_store_accesses_witness :
  is_Some (sessions returning_user_world !! js "U1") /\
  run_events ascii_runtime deps_png 1000 2000 (js "U1")
      (textMessage (js "My title")) (js "tok") returning_user_world
    <> [] /\
  (count_events is_set
     (run_events ascii_runtime deps_png 1000 2000 (js "U1")
        (textMessage (js "My title")) (js "tok") returning_user_world)
     <= 1)%nat.
Proof.
  assert (H : is_Some (sessions returning_user_world !! js "U1")).
  { eexists. vm_compute. reflexivity. }
  split; [exact H|]. split; [vm_compute; discriminate|].
  exact (proj1 (proj2 (proj2 (proj2 (proj2 (proj2
           (processMessage_store_accesses ascii_runtime deps_png 1000 2000
              (js "U1") (textMessage (js "My title")) (js "tok")
              returning_user_world)))))) H).
Defined.

End ManagerProperties.

(* ===================================================================== *)
(** ** The trimming property at concrete inputs *)
(* ===================================================================== *)

Section TrimExamples.

Import ConversationFlow ImageProcessor MessageProcessor Spec Fixtures.

Lemma text_is_trimmed_before_dispatch_witness :
  toLowerCase ascii_runtime [] = [] /\
  (* a padded title is handled as the title without the padding *)
  processTextMessage ascii_runtime deps_png 2000 (js "  My title　")
      (state_in WAITING_TITLE empty_data) =
    processTextMessage ascii_runtime deps_png 2000 (js "My title")
      (state_in WAITING_TITLE empty_data) /\
  (* blanks alone are an empty title *)
  processTextMessage ascii_runtime deps_png 2000 (js " 　 ")
      (state_in WAITING_TITLE empty_data) =
    Ok (reply_only (js "タイトルを入力してください。")) /\
  (* the title of the scenario's confirming state is trimmed *)
  (exists st, Reachable ascii_runtime deps_png st /\
     title (data st) = Some (js "T") /\ trim (js "T") = js "T").
Proof.
  split; [reflexivity|].
  destruct (text_is_trimmed_before_dispatch ascii_runtime deps_png 2000
              (js "  My title　") (state_in WAITING_TITLE empty_data) eq_refl)
    as (Hidem & _).
  destruct (text_is_trimmed_before_dispatch ascii_runtime deps_png 2000
              (js " 　 ") (state_in WAITING_TITLE empty_data) eq_refl)
    as (_ & Hblank & _).
  split; [exact Hidem|]. split; [exact (proj1 (Hblank eq_refl) eq_refl)|].
  assert (Hreach : exists st, Reachable ascii_runtime deps_png st /\
                     title (data st) = Some (js "T")).
  { eexists. split.
    - eapply (converse_reachable _ _ 1000 script_to_confirming).
      + apply (Reachable_idle _ _ 0).
      + vm_compute. reflexivity.
    - reflexivity. }
  destruct Hreach as (st & Hst & Htitle).
  exists st. split; [exact Hst|]. split; [exact Htitle|].
  destruct (text_is_trimmed_before_dispatch ascii_runtime deps_png 2000
              [] st eq_refl) as (_ & _ & _ & Hstored).
  exact (proj1 (Hstored Hst (js "T") (or_introl Htitle))).
Defined.

End TrimExamples.

(* ===================================================================== *)
(** ** The transition table and the required fields *)
(* ===================================================================== *)

Section FlowProperties.

Import ConversationFlow.

(** X1. The forward transition never throws: for every state and every
    update it returns the state moved to the successor of its step, which
    the table accepts, with the update merged into the data, the creation
    time kept and the update time set. *)
Theorem transitionToNext_never_throws (now : Z) (st : ConversationState)
    (u : PostDataUpdates) :
  exists st',
    transitionToNext now st u = Ok st' /\
    getNextStep (step st) = Some (step st') /\
    isValidTransition (step st) (step st') = true /\
    data st' = Storage.merge_data (data st) u /\
    createdAt st' = createdAt st /\
    updatedAt st' = now.
Proof.
  destruct (getNextStep_valid (step st)) as (next & Hn & Hv).
  exists (Storage.updateStateStep now st next u).
  unfold transitionToNext. rewrite Hn, Hv. by repeat split.
Qed.

(** X2. The guard of the cancel command is the precondition of the
    transition it requests: [canCancel] agrees with the table's entry for
    the target [IDLE], and [transitionTo] to [IDLE] returns exactly when
    [canCancel] holds. *)
Theorem canCancel_is_the_cancel_precondition (now : Z)
    (st : ConversationState) (u : PostDataUpdates) :
  canCancel (step st) = isValidTransition (step st) IDLE /\
  (canCancel (step st) = true <->
   exists st', transitionTo now st IDLE u = Ok st').
Proof.
  split; [by destruct (step st)|].
  unfold transitionTo, canCancel.
  destruct (step st); cbn;
    (split;
     [ intros H; first [ discriminate H | by eexists ]
     | intros [st' H]; first [ discriminate H | reflexivity ] ]).
Qed.

(** Whether a required field is there, as the loop of [validateStateData]
    tests it. *)
Lemma check_field_cases (state : ConversationState) (missing : list jsstring)
    (field : jsstring) :
  check_field state missing field = missing \/
  check_field state missing field = missing ++ [field].
Proof.
  unfold check_field.
  repeat match goal with |- context [if ?b then _ else _] => destruct b end;
    auto.
Qed.

(** What [validateStateData] decides, step by step. *)
Lemma validateStateData_isValid (s : ConversationStep) (d : PostData)
    (created updated : Z) :
  isValid (validateStateData (mkState s d created updated)) =
    match s with
    | IDLE | WAITING_TITLE => true
    | WAITING_CONTENT => truthy (title d)
    | WAITING_IMAGE => truthy (title d) && truthy (content d)
    | WAITING_TAGS =>
        truthy (title d) && truthy (content d) && truthy (imageUrl d)
    | CONFIRMING =>
        truthy (title d) && truthy (content d) && truthy (imageUrl d) &&
        (0 <? length (tags d))%nat
    end.
Proof.
  unfold validateStateData, getRequiredDataForStep. cbn [step].
  destruct s; cbn [fold_left];
    change (check_field ?s ?m (js "title"))
      with (if negb (truthy (title (data s))) then m ++ [js "title"] else m);
    change (check_field ?s ?m (js "content"))
      with (if negb (truthy (content (data s))) then m ++ [js "content"]
            else m);
    change (check_field ?s ?m (js "imageUrl"))
      with (if negb (truthy (imageUrl (data s))) then m ++ [js "imageUrl"]
            else m);
    change (check_field ?s ?m (js "tags"))
      with (if (length (tags (data s)) =? 0)%nat then m ++ [js "tags"]
            else m);
    cbn [data];
    destruct (truthy (title d)), (truthy (content d)), (truthy (imageUrl d)),
      (tags d); reflexivity.
Qed.

(** A valid state in step [CONFIRMING] is complete. *)
Lemma confirming_valid_is_complete (st : ConversationState) :
  step st = CONFIRMING -> isValid (validateStateData st) = true ->
  isConversationComplete st = true.
Proof.
  destruct st as [s d c u]. cbn [step]. intros ->.
  rewrite validateStateData_isValid. unfold isConversationComplete.
  cbn [step data]. by rewrite bool_decide_eq_true_2.
Qed.

(** X3. [isConversationComplete] holds exactly for the states in step
    [CONFIRMING] that [validateStateData] finds valid. *)
Theorem isConversationComplete_iff_confirming_and_valid
    (st : ConversationState) :
  isConversationComplete st = true <->
  step st = CONFIRMING /\ isValid (validateStateData st) = true.
Proof.
  destruct st as [s d c u]. unfold isConversationComplete. cbn [step data].
  destruct (decide (s = CONFIRMING)) as [->|Hs].
  - rewrite validateStateData_isValid.
    rewrite bool_decide_eq_true_2 by done. cbn [andb]. tauto.
  - rewrite bool_decide_eq_false_2 by done. cbn [andb]. split; [done|tauto].
Qed.

(** X4. The required fields are cumulative along the flow: data that is
    valid for the successor of a step other than [CONFIRMING] is valid for
    the step itself. *)
Theorem required_fields_are_cumulative (s s' : ConversationStep)
    (d : PostData) (created updated : Z) :
  getNextStep s = Some s' ->
  s <> CONFIRMING ->
  isValid (validateStateData (mkState s' d created updated)) = true ->
  isValid (validateStateData (mkState s d created updated)) = true.
Proof.
  intros Hn Hs. rewrite !validateStateData_isValid.
  destruct s; injection Hn as <-; try done;
    destruct (truthy (title d)), (truthy (content d)), (truthy (imageUrl d));
    cbn; congruence.
Qed.

Lemma required_fields_are_cumulative_witness :
  getNextStep WAITING_IMAGE = Some WAITING_TAGS /\
  WAITING_IMAGE <> CONFIRMING /\
  isValid (validateStateData
             (mkState WAITING_TAGS Fixtures.filled_data 0 0)) = true /\
  isValid (validateStateData
             (mkState WAITING_IMAGE Fixtures.filled_data 0 0)) = true.
Proof.
  assert (H1 : getNextStep WAITING_IMAGE = Some WAITING_TAGS) by reflexivity.
  assert (H2 : WAITING_IMAGE <> CONFIRMING) by discriminate.
  assert (H3 : isValid (validateStateData
                 (mkState WAITING_TAGS Fixtures.filled_data 0 0)) = true)
    by (vm_compute; reflexivity).
  split; [exact H1|]. split; [exact H2|]. split; [exact H3|].
  exact (required_fields_are_cumulative _ _ _ _ _ H1 H2 H3).
Defined.

End FlowProperties.

(* ===================================================================== *)
(** ** The image pipeline: what it returns and what it throws *)
(* ===================================================================== *)

Section ImageResults.

Import ImageProcessor MessageProcessor Spec Fixtures.

Variable rt : Runtime.
Variable env : Env.

(** The MIME type of an accepted image is one of four. *)
Lemma validateImage_mimeType (buf : Buffer) (v : ImageValidationResult) :
  validateImage rt env buf = Ok v ->
  mimeType v ∈ [js "image/jpeg"; js "image/png"; js "image/webp";
                js "image/gif"] /\
  mimeType v = js "image/" ++
               (if str_eqb (format v) (js "jpg") then js "jpeg" else format v).
Proof.
  intros Hv.
  destruct (validateImage_ok_inv rt env buf v Hv)
    as (f & w & h & Hmd & _ & _ & _ & _ & Hf & Hin).
  assert (Hm : mimeType v = js "image/" ++
               (if str_eqb (format v) (js "jpg") then js "jpeg" else format v)).
  { unfold validateImage in Hv. rewrite Hmd in Hv.
    cbn [mbind Result_bind md_format md_width md_height default id] in Hv.
    rewrite <- Hf in Hv.
    repeat match type of Hv with
           | context [if ?b then _ else _] => destruct b; cbn [try_catch] in Hv
           end;
      try discriminate Hv;
      try (destruct (instanceof _ _); discriminate Hv);
      injection Hv as <-; reflexivity. }
  split; [|exact Hm]. rewrite Hm.
  apply array_includes_true in Hin.
  unfold supportedFormats in Hin.
  repeat (apply elem_of_cons in Hin as [-> | Hin]);
    [ .. | by apply elem_of_nil in Hin ];
    vm_compute; repeat first [ apply list_elem_of_here | apply list_elem_of_further ].
Qed.

(** The storage key of a processed image is what the upload returned for
    its buffer under its file name. *)
Lemma processImage_upload (buf : Buffer) (p : ProcessedImage) :
  processImage rt env buf = Ok p ->
  uploadToTempStorage env (buffer p) (filename p) = Ok (tempStorageKey p).
Proof.
  unfold processImage.
  destruct (validateImage rt env buf) as [v|t];
    cbn [mbind Result_bind try_catch];
    [|destruct (_ || _); discriminate].
  destruct (resizeImageIfNeeded env buf v) as [out|t];
    cbn [mbind Result_bind try_catch];
    [|destruct (_ || _); discriminate].
  destruct (uploadToTempStorage env out _) as [key|t] eqn:Hup;
    cbn [mbind Result_bind try_catch];
    [|destruct (_ || _); discriminate].
  destruct (if negb (fitsWithinLimits v) then _ else _) as [v'|t];
    cbn [mbind Result_bind try_catch];
    [|destruct (_ || _); discriminate].
  intros [= <-]. exact Hup.
Qed.

(** X5. What [processImage] returns: the size it reports is the byte length
    of the buffer it returns and is at most 10 MiB; the MIME type is one of
    image/jpeg, image/png, image/webp and image/gif; the storage key is what
    the upload returned for that buffer under that file name; and the
    relative path is the year and month bucket followed by that file
    name. *)
Theorem processImage_result (buf : Buffer) (p : ProcessedImage) :
  processImage rt env buf = Ok p ->
  pi_size p = Z.of_nat (length (buffer p)) /\
  (pi_size p <= 10 * 1024 * 1024)%Z /\
  pi_mimeType p ∈ [js "image/jpeg"; js "image/png"; js "image/webp";
                   js "image/gif"] /\
  uploadToTempStorage env (buffer p) (filename p) = Ok (tempStorageKey p) /\
  relativePath p =
    js "source/images/" ++ string_of_Z (getFullYear (date_path env)) ++
    js "/" ++ padStart2 (string_of_Z (getMonth (date_path env) + 1)) ++
    js "/" ++ filename p.
Proof.
  unfold processImage.
  destruct (validateImage rt env buf) as [v|t] eqn:Hv;
    cbn [mbind Result_bind try_catch];
    [|destruct (_ || _); discriminate].
  destruct (resizeImageIfNeeded env buf v) as [out|t] eqn:Hr;
    cbn [mbind Result_bind try_catch];
    [|destruct (_ || _); discriminate].
  destruct (uploadToTempStorage env out _) as [key|t] eqn:Hup;
    cbn [mbind Result_bind try_catch];
    [|destruct (_ || _); discriminate].
  assert (Hpath : forall name : jsstring,
            generateImagePath env
              (Some (generateFilename env (Some (format v)))) =
            js "source/images/" ++ string_of_Z (getFullYear (date_path env)) ++
            js "/" ++ padStart2 (string_of_Z (getMonth (date_path env) + 1)) ++
            js "/" ++ generateFilename env (Some (format v))).
  { intros _. unfold generateImagePath.
    destruct (generateFilename env (Some (format v))) as [|c name] eqn:Hname;
      [|reflexivity].
    unfold generateFilename in Hname. change (js "-") with [45] in Hname.
    destruct (replace_colon_dot _); discriminate Hname. }
  destruct (fitsWithinLimits v) eqn:Hfit; cbn [negb mbind Result_bind].
  - intros [= <-]. cbn [pi_size buffer pi_mimeType filename tempStorageKey
                        relativePath].
    unfold resizeImageIfNeeded in Hr. rewrite Hfit in Hr. injection Hr as <-.
    destruct (validateImage_ok_inv rt env buf v Hv)
      as (f & w & h & _ & _ & _ & Hs & Hle & _).
    destruct (validateImage_mimeType buf v Hv) as [Hm _].
    unfold maxFileSize in Hle. repeat split; try done. by apply Hpath.
  - destruct (validateImage rt env out) as [v2|t] eqn:Hv2;
      cbn [mbind Result_bind try_catch];
      [|destruct (_ || _); discriminate].
    intros [= <-]. cbn [pi_size buffer pi_mimeType filename tempStorageKey
                        relativePath].
    destruct (validateImage_ok_inv rt env out v2 Hv2)
      as (f & w & h & _ & _ & _ & Hs & Hle & _).
    destruct (validateImage_mimeType out v2 Hv2) as [Hm _].
    unfold maxFileSize in Hle. repeat split; try done. by apply Hpath.
Qed.

(** X6. Whatever sharp, the upload or anything else in the pipeline throws,
    what leaves [processImage] is a [ValidationError] or a
    [ProcessingError]. *)
Theorem processImage_throws_only_its_errors (buf : Buffer) (t : Thrown) :
  processImage rt env buf = Throw t ->
  exists e, t = ThrownError e /\
    (err_class e = ValidationErrorClass \/ err_class e = ProcessingErrorClass).
Proof.
  unfold processImage, try_catch.
  match goal with
  | |- context [match ?body with Ok _ => _ | Throw _ => _ end] =>
      destruct body as [p|t0]
  end; [discriminate|].
  destruct (instanceof ValidationErrorClass t0) eqn:Hv; cbn [orb].
  - intros [= <-]. destruct t0 as [e|]; [|discriminate].
    exists e. split; [done|]. left. by apply bool_decide_eq_true in Hv.
  - destruct (instanceof ProcessingErrorClass t0) eqn:Hp.
    + intros [= <-]. destruct t0 as [e|]; [|discriminate].
      exists e. split; [done|]. right. by apply bool_decide_eq_true in Hp.
    + intros [= <-]. eexists. split; [done|]. by right.
Qed.

End ImageResults.

Section ImageResultExamples.

Import ImageProcessor MessageProcessor Spec Fixtures MoreFixtures.

Lemma processImage_result_witness :
  exists p,
    processImage ascii_runtime (image_env_of (js "png") 100 100)
      downloaded_bytes = Ok p /\
    pi_size p = 4%Z /\
    pi_mimeType p = js "image/png" /\
    relativePath p =
      js "source/images/2024/01/2024-01-02T03-04-05-678Z-k3j9x2.png" /\
    (pi_size p = Z.of_nat (length (buffer p)) /\
     (pi_size p <= 10 * 1024 * 1024)%Z /\
     pi_mimeType p ∈ [js "image/jpeg"; js "image/png"; js "image/webp";
                      js "image/gif"] /\
     uploadToTempStorage (image_env_of (js "png") 100 100)
       (buffer p) (filename p) = Ok (tempStorageKey p) /\
     relativePath p =
       js "source/images/" ++
       string_of_Z (getFullYear (date_path (image_env_of (js "png") 100 100)))
       ++ js "/" ++
       padStart2 (string_of_Z
                    (getMonth (date_path (image_env_of (js "png") 100 100)) + 1))
       ++ js "/" ++ filename p).
Proof.
  eexists. split; [vm_compute; reflexivity|].
  split; [reflexivity|]. split; [vm_compute; reflexivity|].
  split; [vm_compute; reflexivity|].
  apply (processImage_result ascii_runtime (image_env_of (js "png") 100 100)
           downloaded_bytes).
  vm_compute. reflexivity.
Defined.

Lemma processImage_throws_only_its_errors_witness :
  exists t,
    processImage ascii_runtime failing_upload_env downloaded_bytes = Throw t /\
    exists e, t = ThrownError e /\
      (err_class e = ValidationErrorClass \/
       err_class e = ProcessingErrorClass).
Proof.
  eexists. split; [vm_compute; reflexivity|].
  apply (processImage_throws_only_its_errors ascii_runtime failing_upload_env
           downloaded_bytes).
  vm_compute. reflexivity.
Defined.

End ImageResultExamples.

(* ===================================================================== *)
(** ** The message dispatcher: the moves it makes *)
(* ===================================================================== *)

Section DispatcherMoves.

Import ConversationFlow ImageProcessor MessageProcessor Spec Fixtures.

Variable rt : Runtime.
Variable deps : Deps.
Variable now : Z.

Lemma handleGlobalCommand_move (command : jsstring)
    (st st' : ConversationState) (r : ProcessingResult) :
  handleGlobalCommand rt now command st = Ok r ->
  nextState r = Some st' ->
  DispatchStep deps now st st'.
Proof.
  unfold handleGlobalCommand.
  destruct (str_eqb _ _).
  - rewrite transitionTo_WAITING_TITLE. case_bool_decide as Hidle;
      cbn [mbind Result_bind]; [|discriminate].
    intros [= <-] [= <-]. by apply Step_start.
  - destruct (array_includes _ _); [intros [= <-]; discriminate|].
    destruct (array_includes _ _); [|intros [= <-]; discriminate].
    unfold canCancel. case_bool_decide as Hidle; cbn [negb];
      [intros [= <-]; discriminate|].
    rewrite transitionTo_IDLE by done. cbn [mbind Result_bind].
    intros [= <-] [= <-]. by apply Step_to_idle.
Qed.

Lemma handleTitleInput_move (text : jsstring)
    (st st' : ConversationState) (r : ProcessingResult) :
  step st = WAITING_TITLE ->
  handleTitleInput now text st = Ok r ->
  nextState r = Some st' ->
  DispatchStep deps now st st'.
Proof.
  intros Hs. unfold handleTitleInput.
  destruct (Nat.ltb_spec (length text) 1); [intros [= <-]; discriminate|].
  destruct (Nat.ltb_spec 100 (length text)); [intros [= <-]; discriminate|].
  unfold transitionToNext. rewrite Hs. cbn [getNextStep mbind Result_bind].
  change (negb (isValidTransition WAITING_TITLE WAITING_CONTENT)) with false.
  cbn [mbind Result_bind]. intros [= <-] [= <-]. by apply Step_title.
Qed.

Lemma handleContentInput_move (text : jsstring)
    (st st' : ConversationState) (r : ProcessingResult) :
  step st = WAITING_CONTENT ->
  handleContentInput now text st = Ok r ->
  nextState r = Some st' ->
  DispatchStep deps now st st'.
Proof.
  intros Hs. unfold handleContentInput.
  destruct (Nat.ltb_spec (length text) 1); [intros [= <-]; discriminate|].
  destruct (Nat.ltb_spec 5000 (length text)); [intros [= <-]; discriminate|].
  unfold transitionToNext. rewrite Hs. cbn [getNextStep mbind Result_bind].
  change (negb (isValidTransition WAITING_CONTENT WAITING_IMAGE)) with false.
  cbn [mbind Result_bind]. intros [= <-] [= <-]. by apply Step_content.
Qed.

Lemma handleTagSelection_move (text : jsstring)
    (st st' : ConversationState) (r : ProcessingResult) :
  step st = WAITING_TAGS ->
  handleTagSelection deps now text st = Ok r ->
  nextState r = Some st' ->
  DispatchStep deps now st st'.
Proof.
  intros Hs. unfold handleTagSelection.
  destruct (parseTagSelection deps text) as [|tag tags] eqn:Hsel;
    cbn [length Nat.eqb try_catch]; [intros [= <-]; discriminate|].
  unfold transitionToNext. rewrite Hs. cbn [getNextStep mbind Result_bind].
  change (negb (isValidTransition WAITING_TAGS CONFIRMING)) with false.
  cbn [mbind Result_bind try_catch]. intros [= <-] [= <-].
  by apply Step_tags.
Qed.

Lemma handleConfirmation_move (text : jsstring)
    (st st' : ConversationState) (r : ProcessingResult) :
  step st = CONFIRMING ->
  handleConfirmation rt deps now text st = Ok r ->
  nextState r = Some st' ->
  DispatchStep deps now st st'.
Proof.
  intros Hs. unfold handleConfirmation.
  rewrite transitionTo_IDLE by (rewrite Hs; discriminate).
  cbn [mbind Result_bind].
  destruct (array_includes affirmative _);
    [intros [= <-] [= <-]; apply Step_to_idle; by rewrite Hs|].
  destruct (array_includes negative _);
    [intros [= <-] [= <-]; apply Step_to_idle; by rewrite Hs|].
  intros [= <-]; discriminate.
Qed.

Lemma processTextMessage_move (text : jsstring)
    (st st' : ConversationState) (r : ProcessingResult) :
  processTextMessage rt deps now text st = Ok r ->
  nextState r = Some st' ->
  DispatchStep deps now st st' /\ step st' <> WAITING_TAGS.
Proof.
  intros Hr Hn.
  assert (Hmove : DispatchStep deps now st st').
  { revert Hr Hn. unfold processTextMessage. cbv zeta.
    destruct (isGlobalCommand rt (trim text));
      [apply handleGlobalCommand_move|].
    destruct (step st) eqn:Hs.
    - intros [= <-]; discriminate.
    - by apply handleTitleInput_move.
    - by apply handleContentInput_move.
    - intros [= <-]; discriminate.
    - by apply handleTagSelection_move.
    - by apply handleConfirmation_move. }
  split; [exact Hmove|].
  revert Hr Hn. unfold processTextMessage. cbv zeta.
  destruct (isGlobalCommand rt (trim text)).
  - intros Hr Hn. pose proof (handleGlobalCommand_move _ _ _ _ Hr Hn) as Hg.
    clear Hmove. revert Hr Hn. unfold handleGlobalCommand.
    destruct (str_eqb _ _).
    + rewrite transitionTo_WAITING_TITLE. case_bool_decide;
        cbn [mbind Result_bind]; [|discriminate].
      intros [= <-] [= <-]. discriminate.
    + destruct (array_includes _ _); [intros [= <-]; discriminate|].
      destruct (array_includes _ _); [|intros [= <-]; discriminate].
      unfold canCancel. case_bool_decide; cbn [negb];
        [intros [= <-]; discriminate|].
      rewrite transitionTo_IDLE by done. cbn [mbind Result_bind].
      intros [= <-] [= <-]. discriminate.
  - inversion Hmove; subst; cbn [step Storage.updateStateStep];
      try discriminate.
    rename H into Hs. rewrite Hs. intros [= <-]; discriminate.
Qed.

(** The image handler moves only from [WAITING_IMAGE], with an image the
    pipeline returned. *)
Lemma processImageMessage_move (imageId : jsstring)
    (st st' : ConversationState) (r : ProcessingResult) :
  processImageMessage rt deps now imageId st = Ok r ->
  nextState r = Some st' ->
  step st = WAITING_IMAGE /\
  exists b p,
    downloadImage deps imageId = Ok b /\
    processImage rt (image_env deps) b = Ok p /\
    st' = Storage.updateStateStep now st WAITING_TAGS
            (mkUpdates None None (Some (tempStorageKey p))
                       (Some (relativePath p)) None).
Proof.
  unfold processImageMessage. case_bool_decide as Hs; cbn [negb];
    [|intros [= <-]; discriminate].
  destruct (downloadImage deps imageId) as [b|t];
    cbn [mbind Result_bind try_catch]; [|intros [= <-]; discriminate].
  destruct (processImage rt (image_env deps) b) as [p|t] eqn:Hp;
    cbn [mbind Result_bind try_catch]; [|intros [= <-]; discriminate].
  unfold transitionToNext. rewrite Hs. cbn [getNextStep mbind Result_bind].
  change (negb (isValidTransition WAITING_IMAGE WAITING_TAGS)) with false.
  cbn [mbind Result_bind try_catch]. intros [= <-] [= <-].
  split; [done|]. by exists b, p.
Qed.

End DispatcherMoves.

Section DispatcherMoveProperties.

Import ConversationFlow ImageProcessor MessageProcessor Spec Fixtures.

(** A move follows the table and keeps the creation time. *)
Lemma DispatchStep_valid (deps : Deps) (now : Z) (st st' : ConversationState) :
  DispatchStep deps now st st' ->
  isValidTransition (step st) (step st') = true /\
  createdAt st' = createdAt st /\ updatedAt st' = now.
Proof.
  intros H. inversion H; subst; cbn [step createdAt updatedAt
                                      Storage.updateStateStep];
    repeat split;
    try match goal with Hs : step st = _ |- _ => by rewrite Hs end.
  destruct (step st); first [ done | reflexivity ].
Qed.

(** A state change of the dispatcher is a move. *)
Lemma processMessage_move (rt : Runtime) (deps : Deps) (now : Z)
    (message : LineMessage) (userId : jsstring)
    (st st' : ConversationState) (r : ProcessingResult) :
  processMessage rt deps now message st userId = Ok r ->
  nextState r = Some st' ->
  DispatchStep deps now st st'.
Proof.
  unfold processMessage. rewrite try_catch_rethrow.
  destruct (_ && _); [apply processTextMessage_move|].
  destruct (_ && _); [|intros [= <-]; discriminate].
  intros Hr Hn.
  destruct (processImageMessage_move _ _ _ _ _ _ _ Hr Hn)
    as (Hs & b & p & _ & Hp & ->).
  apply Step_image; [done|]. by apply (processImage_upload rt _ b).
Qed.

(** X7. Every state change the dispatcher returns is one of six moves: the
    start from [IDLE], the return to [IDLE] from another step, or the
    advance by a title of 1 to 100 units, a body of 1 to 5000 units, an
    uploaded image or a non-empty tag selection.  So every change follows
    the transition table, keeps [createdAt] and stamps [updatedAt]. *)
Theorem dispatch_is_a_move (rt : Runtime) (deps : Deps) (now : Z)
    (message : LineMessage) (userId : jsstring)
    (st st' : ConversationState) (r : ProcessingResult) :
  processMessage rt deps now message st userId = Ok r ->
  nextState r = Some st' ->
  DispatchStep deps now st st' /\
  isValidTransition (step st) (step st') = true /\
  createdAt st' = createdAt st /\
  updatedAt st' = now.
Proof.
  intros Hr Hn.
  pose proof (processMessage_move _ _ _ _ _ _ _ _ Hr Hn) as Hmove.
  split; [exact Hmove|]. by apply (DispatchStep_valid deps now).
Qed.

Lemma dispatch_is_a_move_witness :
  exists r st',
    processMessage ascii_runtime deps_png 2000 (textMessage (js "My title"))
      (state_in WAITING_TITLE empty_data) (js "U1") = Ok r /\
    nextState r = Some st' /\
    step st' = WAITING_CONTENT /\
    (DispatchStep deps_png 2000 (state_in WAITING_TITLE empty_data) st' /\
     isValidTransition (step (state_in WAITING_TITLE empty_data)) (step st')
       = true /\
     createdAt st' = createdAt (state_in WAITING_TITLE empty_data) /\
     updatedAt st' = 2000%Z).
Proof.
  eexists. eexists.
  split; [vm_compute; reflexivity|]. split; [reflexivity|].
  split; [reflexivity|].
  eapply (dispatch_is_a_move ascii_runtime deps_png 2000
            (textMessage (js "My title")) (js "U1")).
  - vm_compute. reflexivity.
  - reflexivity.
Defined.

(** X8. A conversation enters [WAITING_TAGS] only by an image message
    received in [WAITING_IMAGE] whose bytes the pipeline accepted; the
    image reference stored is the key the upload returned and the path the
    pipeline derived.  No text message leads there. *)
Theorem tags_step_needs_an_image (rt : Runtime) (deps : Deps) (now : Z)
    (message : LineMessage) (userId : jsstring)
    (st st' : ConversationState) (r : ProcessingResult) :
  processMessage rt deps now message st userId = Ok r ->
  nextState r = Some st' ->
  step st' = WAITING_TAGS ->
  msg_type message = MImage /\
  step st = WAITING_IMAGE /\
  exists b p,
    downloadImage deps (default [] (msg_id message)) = Ok b /\
    processImage rt (image_env deps) b = Ok p /\
    imageUrl (data st') = Some (tempStorageKey p) /\
    imagePath (data st') = Some (relativePath p) /\
    title (data st') = title (data st) /\
    content (data st') = content (data st).
Proof.
  unfold processMessage. rewrite try_catch_rethrow.
  destruct (bool_decide (msg_type message = MText) && _) eqn:Htext.
  - intros Hr Hn Hs.
    by destruct (processTextMessage_move _ _ _ _ _ _ _ Hr Hn) as [_ Hne].
  - destruct (bool_decide (msg_type message = MImage) && _) eqn:Himg;
      [|intros [= <-]; discriminate].
    apply andb_true_iff in Himg as [Htype _].
    apply bool_decide_eq_true in Htype.
    intros Hr Hn _.
    destruct (processImageMessage_move _ _ _ _ _ _ _ Hr Hn)
      as (Hs & b & p & Hd & Hp & ->).
    split; [done|]. split; [done|]. exists b, p. by repeat split.
Qed.

Lemma tags_step_needs_an_image_witness :
  exists r st',
    processMessage ascii_runtime deps_png 2000 (imageMessage (js "m1"))
      waiting_image_state (js "U1") = Ok r /\
    nextState r = Some st' /\
    step st' = WAITING_TAGS /\
    (msg_type (imageMessage (js "m1")) = MImage /\
     step waiting_image_state = WAITING_IMAGE /\
     exists b p,
       downloadImage deps_png (default [] (msg_id (imageMessage (js "m1"))))
         = Ok b /\
       processImage ascii_runtime (image_env deps_png) b = Ok p /\
       imageUrl (data st') = Some (tempStorageKey p) /\
       imagePath (data st') = Some (relativePath p) /\
       title (data st') = title (data waiting_image_state) /\
       content (data st') = content (data waiting_image_state)).
Proof.
  eexists. eexists.
  split; [vm_compute; reflexivity|]. split; [reflexivity|].
  split; [reflexivity|].
  eapply (tags_step_needs_an_image ascii_runtime deps_png 2000
            (imageMessage (js "m1")) (js "U1")).
  - vm_compute. reflexivity.
  - reflexivity.
  - reflexivity.
Defined.

(** A move from a state that holds the fields required for its step leads
    to such a state, provided the temporary store never hands back an empty
    key. *)
Lemma DispatchStep_keeps_valid (deps : Deps) (now : Z)
    (st st' : ConversationState) :
  (forall b name key,
      uploadToTempStorage (image_env deps) b name = Ok key -> key <> []) ->
  DispatchStep deps now st st' ->
  ConversationFlow.isValid (validateStateData st) = true ->
  ConversationFlow.isValid (validateStateData st') = true.
Proof.
  intros Hkey Hmove IH.
  destruct st as [s d c u].
  inversion Hmove as [? Hs | ? Hs | ? t Hs Ht | ? t Hs Ht
                      | ? p Hs Hup | ? sel Hs Hsel];
    cbn [step] in Hs; subst;
    unfold Storage.updateStateStep; cbn [step data createdAt];
    rewrite validateStateData_isValid in IH |- *; try reflexivity;
    cbn [Storage.merge_data title content imageUrl imagePath tags
         u_title u_content u_imageUrl u_imagePath u_tags].
  - destruct t; [cbn in Ht; lia | reflexivity].
  - rewrite IH. destruct t; [cbn in Ht; lia | reflexivity].
  - rewrite IH. pose proof (Hkey _ _ _ Hup) as Hne.
    destruct (tempStorageKey p); [done | reflexivity].
  - rewrite IH. destruct sel; [done | reflexivity].
Qed.

(** X9. Provided the temporary store never hands back an empty key, every
    reachable state holds the fields required for its step:
    [validateStateData] finds it valid, and a reachable state in step
    [CONFIRMING] is complete. *)
Theorem reachable_states_are_valid (rt : Runtime) (deps : Deps)
    (st : ConversationState) :
  (forall b name key,
      uploadToTempStorage (image_env deps) b name = Ok key -> key <> []) ->
  Reachable rt deps st ->
  ConversationFlow.isValid (validateStateData st) = true /\
  (step st = CONFIRMING -> isConversationComplete st = true).
Proof.
  intros Hkey Hreach.
  assert (Hvalid : ConversationFlow.isValid (validateStateData st) = true).
  { induction Hreach as [now | st st' message now userId r _ IH Hr Hn].
    - reflexivity.
    - pose proof (processMessage_move _ _ _ _ _ _ _ _ Hr Hn) as Hmove.
      by apply (DispatchStep_keeps_valid deps now st). }
  split; [exact Hvalid|]. intros Hs.
  by apply confirming_valid_is_complete.
Qed.

Lemma reachable_states_are_valid_witness :
  (forall b name key,
      uploadToTempStorage (image_env deps_png) b name = Ok key -> key <> []) /\
  exists st,
    Reachable ascii_runtime deps_png st /\
    step st = CONFIRMING /\
    ConversationFlow.isValid (validateStateData st) = true /\
    isConversationComplete st = true.
Proof.
  assert (Hkey : forall b name key,
             uploadToTempStorage (image_env deps_png) b name = Ok key ->
             key <> []).
  { intros b name key [= <-]. discriminate. }
  split; [exact Hkey|].
  assert (Hreach : exists st, Reachable ascii_runtime deps_png st /\
                     step st = CONFIRMING).
  { eexists. split.
    - eapply (converse_reachable _ _ 1000 script_to_confirming).
      + apply (Reachable_idle _ _ 0).
      + vm_compute. reflexivity.
    - reflexivity. }
  destruct Hreach as (st & Hreach & Hs).
  exists st. split; [exact Hreach|]. split; [exact Hs|].
  destruct (reachable_states_are_valid ascii_runtime deps_png st Hkey Hreach)
    as [Hvalid Hcomplete].
  split; [exact Hvalid | exact (Hcomplete Hs)].
Defined.

End DispatcherMoveProperties.

(* ===================================================================== *)
(** ** Numbers as text, and the tag menu *)
(* ===================================================================== *)

Section DecimalText.

Import Spec Notions.

Lemma is_digit_cases (c : N) :
  is_digit c ->
  c = 48 \/ c = 49 \/ c = 50 \/ c = 51 \/ c = 52 \/ c = 53 \/ c = 54 \/
  c = 55 \/ c = 56 \/ c = 57.
Proof. unfold is_digit. lia. Qed.

Ltac digit_cases c H :=
  apply is_digit_cases in H;
  destruct H as [->|[->|[->|[->|[->|[->|[->|[->|[->| ->]]]]]]]]].

Lemma digit_is_no_whitespace (c : N) : is_digit c -> isWhiteSpace c = false.
Proof. intros H. digit_cases c H; reflexivity. Qed.

Lemma digit_value_digit (c : N) :
  is_digit c -> digit_value c = Some (c - 48) /\ c - 48 < 10.
Proof. intros H. digit_cases c H; split; reflexivity. Qed.

(** Reading a run of decimal digits gives its value. *)
Lemma parse_digits_decimal (ds : jsstring) (acc : option N) :
  Forall is_digit ds ->
  parse_digits 10 acc ds =
    match ds with
    | [] => acc
    | _ => Some (fold_left (fun a c => a * 10 + (c - 48)) ds (default 0 acc))
    end.
Proof.
  intros Hds. revert acc. induction Hds as [|c ds Hc _ IH]; intros acc.
  - reflexivity.
  - cbn [parse_digits fold_left].
    destruct (digit_value_digit c Hc) as [-> Hlt].
    apply N.ltb_lt in Hlt. rewrite Hlt, IH. by destruct ds.
Qed.

(** [parseInt] of a non-empty run of decimal digits is its value. *)
Lemma parseInt_decimal (ds : jsstring) :
  Forall is_digit ds -> ds <> [] ->
  parseInt ds = Some (Z.of_N (decimal_value ds)).
Proof.
  intros Hds Hne. destruct ds as [|c ds]; [done|].
  pose proof (parse_digits_decimal (c :: ds) None Hds) as Hparse.
  apply Forall_cons in Hds as [Hc Hds].
  unfold parseInt. cbn [trimStart]. rewrite (digit_is_no_whitespace c Hc).
  assert (Hsign : match c :: ds with
                  | 45 :: r => (true, r)
                  | 43 :: r => (false, r)
                  | _ => (false, c :: ds)
                  end = (false, c :: ds)).
  { digit_cases c Hc; reflexivity. }
  rewrite Hsign.
  assert (Hradix : match c :: ds with
                   | 48 :: 120 :: r => (16, r)
                   | 48 :: 88 :: r => (16, r)
                   | _ => (10, c :: ds)
                   end = (10, c :: ds)).
  { destruct ds as [|d ds]; [digit_cases c Hc; reflexivity|].
    apply Forall_cons in Hds as [Hd _].
    digit_cases c Hc; try reflexivity. digit_cases d Hd; reflexivity. }
  rewrite Hradix, Hparse. reflexivity.
Qed.

(** The digits [decimal_digits] writes, given enough fuel. *)
Lemma decimal_digits_spec (fuel : nat) (n : N) (acc : jsstring) :
  n < 2 ^ N.of_nat fuel -> fuel <> O ->
  exists ds, decimal_digits fuel n acc = ds ++ acc /\ ds <> [] /\
             Forall is_digit ds /\ decimal_value ds = n.
Proof.
  revert n acc. induction fuel as [|fuel IH]; intros n acc Hn Hf; [done|].
  cbn [decimal_digits].
  assert (Hd : is_digit (48 + n mod 10)).
  { unfold is_digit. assert (n mod 10 < 10) by (apply N.mod_upper_bound; lia).
    generalize dependent (n mod 10). intros m Hm. lia. }
  destruct (N.ltb_spec n 10) as [Hlt | Hge].
  - exists [48 + n mod 10]. split; [reflexivity|]. split; [done|]. split.
    + apply List.Forall_cons; [exact Hd | apply List.Forall_nil].
    + unfold decimal_value. cbn [fold_left]. rewrite N.mod_small by done. lia.
  - assert (Hn' : n / 10 < 2 ^ N.of_nat fuel).
    { rewrite Nat2N.inj_succ, N.pow_succ_r' in Hn.
      apply N.Div0.div_lt_upper_bound. lia. }
    assert (Hf' : fuel <> O).
    { intros ->. cbn in Hn'. assert (1 <= n / 10); [|lia].
      apply N.div_le_lower_bound; lia. }
    destruct (IH (n / 10) ((48 + n mod 10) :: acc) Hn' Hf')
      as (ds & -> & Hne & Hds & Hval).
    exists (ds ++ [48 + n mod 10]). repeat split.
    + by rewrite <- app_assoc.
    + by destruct ds.
    + apply Forall_app. split; [done|].
      apply List.Forall_cons; [exact Hd | apply List.Forall_nil].
    + unfold decimal_value in *. rewrite fold_left_app. cbn [fold_left].
      rewrite Hval. pose proof (N.div_mod n 10 ltac:(done)) as Hdm.
      clear - Hdm. revert Hdm.
      generalize (n mod 10). generalize (n / 10). intros q r Hdm. lia.
Qed.

(** The text of a number is a non-empty run of decimal digits with that
    value. *)
Lemma string_of_N_spec (n : N) :
  string_of_N n <> [] /\ Forall is_digit (string_of_N n) /\
  decimal_value (string_of_N n) = n.
Proof.
  unfold string_of_N.
  destruct (decimal_digits_spec (S (N.to_nat (N.log2 n))) n [])
    as (ds & Heq & Hne & Hds & Hval); [|done|].
  - rewrite Nat2N.inj_succ, N2Nat.id.
    destruct (N.eq_dec n 0) as [->|Hpos]; [reflexivity|].
    apply N.log2_spec. lia.
  - rewrite app_nil_r in Heq. rewrite Heq. done.
Qed.

(** A run of digits is left alone by [trim]; a text that starts with a
    digit does not start with the new-tag prefix. *)
Lemma digits_trim (ds : jsstring) : Forall is_digit ds -> trim ds = ds.
Proof.
  intros Hds. unfold trim. rewrite trimStart_fixed.
  - apply trimEnd_fixed. intros c Hc.
    apply digit_is_no_whitespace.
    apply last_Some_elem_of in Hc.
    by apply (proj1 (Forall_forall _ _) Hds).
  - destruct Hds as [|c ds Hc _]; [done|].
    cbn. by rewrite digit_is_no_whitespace.
Qed.

Lemma digit_first_no_prefix (c : N) (s : jsstring) :
  is_digit c -> startsWith (c :: s) (js "新規:") = false.
Proof.
  change (js "新規:") with [26032; 35215; 58].
  intros Hc. cbn [startsWith]. digit_cases c Hc; reflexivity.
Qed.

End DecimalText.

(* ===================================================================== *)
(** ** The tag menu and the tag parser *)
(* ===================================================================== *)

Section TagMenu.

Import MessageProcessor Spec Notions Fixtures.

Lemma split_on_piece (sep : N) (t s : jsstring) :
  Forall (fun c => c <> sep) t ->
  split_on sep (t ++ sep :: s) = t :: split_on sep s.
Proof.
  induction 1 as [|c t Hc _ IH]; cbn [app split_on].
  - by rewrite N.eqb_refl.
  - rewrite IH. by apply N.eqb_neq in Hc as ->.
Qed.

Lemma split_on_whole (sep : N) (t : jsstring) :
  Forall (fun c => c <> sep) t -> split_on sep t = [t].
Proof.
  induction 1 as [|c t Hc _ IH]; cbn [split_on]; [done|].
  rewrite IH. by apply N.eqb_neq in Hc as ->.
Qed.

(** Splitting what [join] made on a one-unit separator gives the pieces
    back, when there is a piece and no piece holds the separator. *)
Lemma split_on_join (sep : N) (pieces : list jsstring) :
  Forall (Forall (fun c => c <> sep)) pieces -> pieces <> [] ->
  split_on sep (join [sep] pieces) = pieces.
Proof.
  induction 1 as [|t pieces Ht Hrest IH]; intros Hne; [done|].
  destruct pieces as [|t' pieces].
  - by apply split_on_whole.
  - change (join [sep] (t :: t' :: pieces))
      with (t ++ sep :: join [sep] (t' :: pieces)).
    rewrite split_on_piece by done. by rewrite IH.
Qed.

Lemma digit_is_no_comma (ds : jsstring) :
  Forall is_digit ds -> Forall (fun c => c <> 44) ds.
Proof.
  intros Hds. eapply Forall_impl; [exact Hds|]. unfold is_digit. lia.
Qed.

(** The numeric form of the parser: the tokens are resolved against the
    catalogue and deduplicated. *)
Lemma parseTagSelection_numeric (deps : Deps) (text : jsstring) :
  startsWith text (js "新規:") = false ->
  parseTagSelection deps text =
    dedup_first (omap (fun token =>
                         resolve_index (blog_availableTags (config deps))
                                       (parseInt (trim token)))
                      (split_on 44 text)).
Proof.
  intros Hp. unfold parseTagSelection. cbv zeta. rewrite Hp.
  rewrite select_loop. cbn [app]. rewrite filter_not_in_nil. f_equal.
  apply resolve_readings.
Qed.

Lemma resolve_index_elem_of (cat : list jsstring) (num : option Z)
    (tag : jsstring) :
  resolve_index cat num = Some tag -> tag ∈ cat.
Proof.
  unfold resolve_index. destruct num as [n|]; [|done].
  destruct (_ && _); [|done]. apply list_elem_of_lookup_2.
Qed.

(** The number the menu shows for the entry at [index]. *)
Lemma resolve_menu_number (cat : list jsstring) (index : nat) :
  resolve_index cat
    (parseInt (trim (string_of_N (N.of_nat index + 1)))) = cat !! index.
Proof.
  destruct (string_of_N_spec (N.of_nat index + 1)) as (Hne & Hds & Hval).
  rewrite digits_trim, parseInt_decimal, Hval by done.
  unfold resolve_index.
  replace (Z.to_nat (Z.of_N (N.of_nat index + 1) - 1)) with index by lia.
  destruct (Z.leb_spec 1 (Z.of_N (N.of_nat index + 1))); [|lia].
  destruct (Z.leb_spec (Z.of_N (N.of_nat index + 1)) (Z.of_nat (length cat)));
    cbn [andb]; [done|].
  symmetry. apply lookup_ge_None. lia.
Qed.

(** X10. Whatever the text, every tag that the tag parser selects is a tag
    of the catalogue, or the text has the new-tag prefix and the tag is its
    trimmed remainder, of 1 to 20 code units; and at most as many tags are
    selected as the catalogue has, or one. *)
Theorem parseTagSelection_range (deps : Deps) (text : jsstring) :
  (forall tag, tag ∈ parseTagSelection deps text ->
     tag ∈ blog_availableTags (config deps) \/
     (startsWith text (js "新規:") = true /\
      tag = trim (substring_from 3 text) /\
      (1 <= length tag <= 20)%nat))
  /\ (length (parseTagSelection deps text) <=
      Nat.max 1 (length (blog_availableTags (config deps))))%nat.
Proof.
  destruct (startsWith text (js "新規:")) eqn:Hp.
  - unfold parseTagSelection. cbv zeta. rewrite Hp.
    destruct (Nat.ltb_spec 0 (length (trim (substring_from 3 text))));
      destruct (Nat.leb_spec (length (trim (substring_from 3 text))) 20);
      cbn [andb length]; (split; [|lia]); intros tag Htag;
      try by apply elem_of_nil in Htag.
    apply list_elem_of_singleton in Htag as ->. right. repeat split; lia.
  - rewrite parseTagSelection_numeric by done.
    set (resolved := omap _ _).
    assert (Hsub : forall tag, tag ∈ dedup_first resolved ->
                               tag ∈ blog_availableTags (config deps)).
    { intros tag Htag. apply (proj1 (dedup_first_elem_of _ _)) in Htag.
      apply list_elem_of_omap in Htag as (token & _ & Htoken).
      by apply resolve_index_elem_of in Htoken. }
    split; [intros tag Htag; left; by apply Hsub|].
    etrans; [|apply Nat.le_max_r].
    apply submseteq_length, NoDup_submseteq; [apply dedup_first_NoDup|done].
Qed.

(** X11. The tag menu numbers its entries from 1 in decimal.  Those
    numbers, joined by commas in any order and with any repetition, are read
    back by the tag parser as the catalogue entries they stand for: each
    entry once, in order of first mention, a number past the end of the
    catalogue selecting nothing. *)
Theorem menu_numbers_select_their_tags (deps : Deps) (indexes : list nat) :
  parseTagSelection deps
    (join (js ",")
          (map (fun index => string_of_N (N.of_nat index + 1)) indexes)) =
  dedup_first
    (omap (fun index => blog_availableTags (config deps) !! index) indexes).
Proof.
  change (js ",") with [44].
  set (number := fun index : nat => string_of_N (N.of_nat index + 1)).
  destruct indexes as [|i indexes]; [reflexivity|].
  assert (Hdigits : Forall (Forall is_digit) (map number (i :: indexes))).
  { apply Forall_map, Forall_forall. intros index _.
    apply (string_of_N_spec (N.of_nat index + 1)). }
  rewrite parseTagSelection_numeric.
  - rewrite split_on_join; [| |done].
    + f_equal. clear Hdigits.
      induction (i :: indexes) as [|index rest IH]; [reflexivity|].
      cbn [map].
      change (omap ?f (?x :: ?l))
        with (match f x with Some y => y :: omap f l | None => omap f l end).
      unfold number at 1. rewrite resolve_menu_number, IH. done.
    + eapply Forall_impl; [exact Hdigits|]. apply digit_is_no_comma.
  - apply Forall_cons in Hdigits as [Hi _].
    destruct (string_of_N_spec (N.of_nat i + 1)) as (Hne & _ & _).
    fold (number i) in Hne.
    cbn [map]. destruct (number i) as [|c ds] eqn:E; [done|].
    assert (Hc : is_digit c) by (by apply Forall_cons in Hi as [? _]).
    destruct indexes; cbn [map join app]; by apply digit_first_no_prefix.
Qed.

End TagMenu.

(* ===================================================================== *)
(** ** State updates *)
(* ===================================================================== *)

Section StateUpdates.

Import Storage Notions.

(** X12. Two state updates in a row are one update: to the second step,
    with the two sets of data updates laid over each other, the second
    winning, and with the second time stamp; the creation time is that of
    the state the updates started from. *)
Theorem updateStateStep_twice (now1 now2 : Z) (st : ConversationState)
    (step1 step2 : ConversationStep) (u1 u2 : PostDataUpdates) :
  updateStateStep now2 (updateStateStep now1 st step1 u1) step2 u2 =
    updateStateStep now2 st step2 (then_updates u1 u2)
  /\ createdAt (updateStateStep now2 (updateStateStep now1 st step1 u1) step2 u2)
     = createdAt st.
Proof.
  split; [|reflexivity].
  unfold updateStateStep, merge_data, then_updates. cbn.
  destruct u1 as [[?|] [?|] [?|] [?|] [?|]], u2 as [[?|] [?|] [?|] [?|] [?|]];
    reflexivity.
Qed.

End StateUpdates.

(* ===================================================================== *)
(** ** The manager and the session store *)
(* ===================================================================== *)

Section ManagerRuns.

Import ImageProcessor MessageProcessor ConversationManager Spec Notions
  Fixtures.

Ltac manager_unfold :=
  unfold run_events, processMessage, handleUserFollow, getCurrentState,
    updateState, processor_processMessage, try_catchM, throwM,
    sessionStorage_get, sessionStorage_set, lineClient_replyMessage,
    collaborator_call, current_state, mbind, M_bind, mret, M_ret.

Ltac manager_cases :=
  repeat (cbv beta iota zeta delta
            [fst snd sessions trace faults tail next_fault
             nextState responseMessage
             truthy_string falsy_string negb default id];
          match goal with
          | |- context [match ?x with _ => _ end] =>
              is_var x; destruct x
          | |- context [match ?m !! ?k with _ => _ end] =>
              destruct (m !! k) eqn:?
          | |- context [MessageProcessor.processMessage ?a ?b ?c ?d ?e ?f] =>
              destruct (MessageProcessor.processMessage a b c d e f)
          end).

Ltac manager_reduce :=
  cbv beta iota zeta delta
    [fst snd sessions trace faults tail next_fault nextState responseMessage
     truthy_string falsy_string negb default id].

(** X13. Handling a message of one user leaves the stored session of every
    other user as it was, whatever fails on the way; and when the
    invocation returns normally, the store holds a session of the user. *)
Theorem processMessage_touches_one_session (rt : Runtime) (deps : Deps)
    (now_idle now_step : Z) (userId : jsstring) (message : LineMessage)
    (replyToken : jsstring) (w : World) :
  (forall other, other <> userId ->
     sessions (snd (processMessage rt deps now_idle now_step userId message
                      replyToken w)) !! other = sessions w !! other)
  /\
  (fst (processMessage rt deps now_idle now_step userId message replyToken w)
     = Ok tt ->
   is_Some (sessions (snd (processMessage rt deps now_idle now_step userId
                             message replyToken w)) !! userId)).
Proof.
  manager_unfold. destruct w as [store tr fl].
  manager_cases.
  all: split;
    [ intros other Hother; rewrite ?lookup_insert_ne by done; reflexivity
    | intros Hok; first [ discriminate Hok
                        | rewrite lookup_insert_eq; by eexists
                        | by eexists ] ].
Qed.

(** X14. When handling a message throws, the last call the manager made
    was the attempt to send, to the reply token of that message, the error
    text chosen for the very error it throws; a failure of that attempt is
    swallowed.  When handling returns normally, at most one reply was
    sent. *)
Theorem processMessage_error_reply (rt : Runtime) (deps : Deps)
    (now_idle now_step : Z) (userId : jsstring) (message : LineMessage)
    (replyToken : jsstring) (w : World) :
  match fst (processMessage rt deps now_idle now_step userId message
               replyToken w) with
  | Throw error =>
      last (run_events rt deps now_idle now_step userId message replyToken w)
        = Some (LineReply replyToken (getErrorMessage error))
  | Ok _ =>
      (count_events is_reply
         (run_events rt deps now_idle now_step userId message replyToken w)
       <= 1)%nat
  end.
Proof.
  manager_unfold. destruct w as [store tr fl].
  manager_cases.
  all: rewrite <- ?app_assoc; rewrite new_events_app.
  all: cbn [app last count_events List.filter is_reply length];
    first [ reflexivity | lia ].
Qed.

(** X15. With no collaborator failing, handling a message is one step of
    the processor on the user's current state, the stored one or the fresh
    idle state: when the processor returns, the manager returns and the
    store holds for the user the state the processor gave, or the current
    one when it gave none; when the processor throws, the manager throws the
    same error and the store holds the current state. *)
Theorem processMessage_without_faults (rt : Runtime) (deps : Deps)
    (now_idle now_step : Z) (userId : jsstring) (message : LineMessage)
    (replyToken : jsstring) (w : World) :
  faults w = [] ->
  match MessageProcessor.processMessage rt deps now_step message
          (current_state now_idle w userId) userId with
  | Ok r =>
      fst (processMessage rt deps now_idle now_step userId message
             replyToken w) = Ok tt
      /\ sessions (snd (processMessage rt deps now_idle now_step userId
                          message replyToken w))
         = <[userId := default (current_state now_idle w userId) (nextState r)]>
             (sessions w)
  | Throw error =>
      fst (processMessage rt deps now_idle now_step userId message
             replyToken w) = Throw error
      /\ sessions (snd (processMessage rt deps now_idle now_step userId
                          message replyToken w))
         = <[userId := current_state now_idle w userId]> (sessions w)
  end.
Proof.
  destruct w as [store tr fl]. cbn [faults]. intros ->.
  manager_unfold.
  cbv beta iota zeta delta
    [fst snd sessions trace faults tail next_fault].
  destruct (store !! userId) as [st|] eqn:Hst;
    cbv beta iota zeta delta
      [fst snd sessions trace faults tail next_fault default id].
  - destruct (MessageProcessor.processMessage rt deps now_step message st
                userId) as [[[next|] [reply|]]|error];
      manager_cases; manager_reduce;
      (split; [reflexivity|]);
      first [ reflexivity | symmetry; by apply insert_id ].
  - destruct (MessageProcessor.processMessage rt deps now_step message
                (ConversationFlow.createInitialState now_idle) userId)
      as [[[next|] [reply|]]|error];
      manager_cases; manager_reduce;
      (split; [reflexivity|]);
      first [ reflexivity | by rewrite insert_insert_eq ].
Qed.

(** X16. A follow event greets first and then makes sure that the user has
    a session.  With no collaborator failing, the store afterwards holds for
    the user the state it held before, so following again does not reset a
    conversation in progress, or the fresh idle state; every other session
    is as it was.  When sending the greeting fails, the store is neither
    read nor written and the failure is thrown. *)
Theorem handleUserFollow_keeps_the_session (now_idle : Z)
    (userId replyToken : jsstring) (w : World) :
  (faults w = [] ->
   fst (handleUserFollow now_idle userId replyToken w) = Ok tt
   /\ sessions (snd (handleUserFollow now_idle userId replyToken w))
      = <[userId := current_state now_idle w userId]> (sessions w))
  /\
  (forall error, next_fault w = Some error ->
   fst (handleUserFollow now_idle userId replyToken w) = Throw error
   /\ sessions (snd (handleUserFollow now_idle userId replyToken w))
      = sessions w
   /\ count_events is_get
        (new_events w (snd (handleUserFollow now_idle userId replyToken w)))
      = 0%nat
   /\ count_events is_set
        (new_events w (snd (handleUserFollow now_idle userId replyToken w)))
      = 0%nat).
Proof.
  destruct w as [store tr fl]. split.
  - cbn [faults]. intros ->. manager_unfold.
    cbv beta iota zeta delta
      [fst snd sessions trace faults tail next_fault].
    destruct (store !! userId) as [st|] eqn:Hst;
      cbv beta iota zeta delta
        [fst snd sessions trace faults tail next_fault default id];
      (split; [reflexivity|]);
      first [ reflexivity | symmetry; by apply insert_id ].
  - intros error. unfold next_fault. cbn [faults].
    destruct fl as [|[t|] fl]; intros [=]; subst t.
    manager_unfold.
    cbv beta iota zeta delta
      [fst snd sessions trace faults tail next_fault].
    rewrite new_events_app. repeat split; reflexivity.
Qed.

(** What one invocation can leave in the store: what was there, with, for
    the user, the current state or the state the processor gave for it. *)
Lemma processMessage_sessions (rt : Runtime) (deps : Deps)
    (now_idle now_step : Z) (userId : jsstring) (message : LineMessage)
    (replyToken : jsstring) (w : World) :
  sessions (snd (processMessage rt deps now_idle now_step userId message
                   replyToken w)) = sessions w
  \/ sessions (snd (processMessage rt deps now_idle now_step userId message
                      replyToken w))
     = <[userId := current_state now_idle w userId]> (sessions w)
  \/ exists r next,
       MessageProcessor.processMessage rt deps now_step message
         (current_state now_idle w userId) userId = Ok r
       /\ nextState r = Some next
       /\ sessions (snd (processMessage rt deps now_idle now_step userId
                           message replyToken w))
          = <[userId := next]> (sessions w).
Proof.
  manager_unfold. destruct w as [store tr fl].
  repeat (manager_reduce;
          match goal with
          | |- context [match ?x with _ => _ end] =>
              is_var x; destruct x
          | |- context [match ?m !! ?k with _ => _ end] =>
              destruct (m !! k) eqn:?
          | |- context [MessageProcessor.processMessage ?a ?b ?c ?d ?e ?f] =>
              destruct (MessageProcessor.processMessage a b c d e f) eqn:?
          end).
  all: manager_reduce.
  all: first
    [ by left
    | right; left; reflexivity
    | right; right; eexists _, _; split; [reflexivity|];
      split; [reflexivity|];
      first [ reflexivity | by rewrite insert_insert_eq ] ].
Qed.

(** X17. The store keeps its invariant.  Provided the temporary store never
    hands back an empty key: when every stored session holds the fields
    required for its step, so does every stored session after a message has
    been handled, whatever was sent and whatever failed on the way. *)
Theorem processMessage_keeps_sessions_valid (rt : Runtime) (deps : Deps)
    (now_idle now_step : Z) (userId : jsstring) (message : LineMessage)
    (replyToken : jsstring) (w : World) :
  (forall b name key,
      uploadToTempStorage (image_env deps) b name = Ok key -> key <> []) ->
  (forall user st,
      sessions w !! user = Some st ->
      ConversationFlow.isValid (ConversationFlow.validateStateData st) = true) ->
  forall user st,
    sessions (snd (processMessage rt deps now_idle now_step userId message
                     replyToken w)) !! user = Some st ->
    ConversationFlow.isValid (ConversationFlow.validateStateData st) = true.
Proof.
  intros Hkey Hinv user st.
  assert (Hcurrent : ConversationFlow.isValid
                       (ConversationFlow.validateStateData
                          (current_state now_idle w userId)) = true).
  { unfold current_state.
    destruct (sessions w !! userId) as [c|] eqn:Hc; [|reflexivity].
    by apply (Hinv userId). }
  destruct (processMessage_sessions rt deps now_idle now_step userId message
              replyToken w) as [-> | [-> | (r & next & Hrun & Hnext & ->)]].
  - apply Hinv.
  - destruct (decide (user = userId)) as [->|Hne].
    + rewrite lookup_insert_eq. by intros [= <-].
    + rewrite lookup_insert_ne by done. apply Hinv.
  - destruct (decide (user = userId)) as [->|Hne].
    + rewrite lookup_insert_eq. intros [= <-].
      apply (DispatchStep_keeps_valid deps now_step
               (current_state now_idle w userId)); [done| |done].
      by apply (processMessage_move rt deps now_step message userId _ _ r).
    + rewrite lookup_insert_ne by done. apply Hinv.
Qed.

End ManagerRuns.

Section ManagerRunExamples.

Import ImageProcessor MessageProcessor ConversationManager Spec Notions
  Fixtures.

Lemma processMessage_without_faults_witness :
  faults returning_user_world = [] /\
  match MessageProcessor.processMessage ascii_runtime deps_png 2000
          (textMessage (js "My title"))
          (current_state 1000 returning_user_world (js "U1")) (js "U1") with
  | Ok r =>
      fst (processMessage ascii_runtime deps_png 1000 2000 (js "U1")
             (textMessage (js "My title")) (js "tok") returning_user_world)
        = Ok tt
      /\ sessions (snd (processMessage ascii_runtime deps_png 1000 2000
                          (js "U1") (textMessage (js "My title")) (js "tok")
                          returning_user_world))
         = <[js "U1" := default (current_state 1000 returning_user_world
                                   (js "U1")) (nextState r)]>
             (sessions returning_user_world)
  | Throw error =>
      fst (processMessage ascii_runtime deps_png 1000 2000 (js "U1")
             (textMessage (js "My title")) (js "tok") returning_user_world)
        = Throw error
      /\ sessions (snd (processMessage ascii_runtime deps_png 1000 2000
                          (js "U1") (textMessage (js "My title")) (js "tok")
                          returning_user_world))
         = <[js "U1" := current_state 1000 returning_user_world (js "U1")]>
             (sessions returning_user_world)
  end.
Proof.
  split; [reflexivity|].
  apply processMessage_without_faults. reflexivity.
Defined.

Lemma processMessage_keeps_sessions_valid_witness :
  (forall b name key,
      uploadToTempStorage (image_env deps_png) b name = Ok key -> key <> []) /\
  (forall user st,
      sessions returning_user_world !! user = Some st ->
      ConversationFlow.isValid (ConversationFlow.validateStateData st) = true) /\
  exists st,
    sessions (snd (processMessage ascii_runtime deps_png 1000 2000 (js "U1")
                     (textMessage (js "My title")) (js "tok")
                     returning_user_world)) !! js "U1" = Some st
    /\ step st = WAITING_CONTENT
    /\ ConversationFlow.isValid (ConversationFlow.validateStateData st) = true.
Proof.
  assert (Hkey : forall b name key,
             uploadToTempStorage (image_env deps_png) b name = Ok key ->
             key <> []).
  { intros b name key. cbn. intros [= <-]. discriminate. }
  assert (Hinv : forall user st,
             sessions returning_user_world !! user = Some st ->
             ConversationFlow.isValid (ConversationFlow.validateStateData st)
             = true).
  { intros user st. unfold returning_user_world. cbn [sessions].
    intros [_ <-]%lookup_singleton_Some. reflexivity. }
  split; [exact Hkey|]. split; [exact Hinv|].
  eexists. split; [vm_compute; reflexivity|]. split; [reflexivity|].
  apply (processMessage_keeps_sessions_valid ascii_runtime deps_png 1000 2000
           (js "U1") (textMessage (js "My title")) (js "tok")
           returning_user_world Hkey Hinv (js "U1")).
  vm_compute. reflexivity.
Defined.

End ManagerRunExamples.

(* ===================================================================== *)
(** ** The LINE client *)
(* ===================================================================== *)

Section LineClientResults.

Import ImageProcessor LineApiClient.

Variable rt : Runtime.
Variable accessToken : jsstring.
Variable fetch : Request -> Result Response.

(** The [catch] block of the client's calls lets an external-service error
    through and wraps everything else in one. *)
Lemma client_catch_class {A} (run : Result A) (wrap : Thrown -> JsError)
    (t : Thrown) :
  (forall error, err_class (wrap error) = ExternalServiceErrorClass) ->
  try_catch run
    (fun error =>
       if instanceof ExternalServiceErrorClass error then Throw error
       else Throw (ThrownError (wrap error))) = Throw t ->
  instanceof ExternalServiceErrorClass t = true.
Proof.
  intros Hwrap. destruct run as [a|error]; cbn [try_catch]; [done|].
  destruct (instanceof ExternalServiceErrorClass error) eqn:E.
  - by intros [= <-].
  - intros [= <-]. cbn [instanceof]. by rewrite Hwrap, bool_decide_eq_true_2.
Qed.

(** When a reply succeeds. *)
Lemma replyMessage_ok_iff (replyToken : jsstring)
    (messages : list LineReplyMessage) :
  replyMessage rt accessToken fetch replyToken messages = Ok tt <->
  replyToken <> [] /\ (1 <= length messages <= 5)%nat /\
  exists response,
    fetch {| url := baseUrl ++ js "/message/reply";
             method := js "POST";
             headers := [(js "Content-Type", js "application/json");
                         (js "Authorization", js "Bearer " ++ accessToken)];
             body := Some (replyToken, messages) |} = Ok response
    /\ ok response = true.
Proof.
  unfold replyMessage.
  case_bool_decide as Htoken; [split; [done|tauto]|].
  destruct (Nat.eqb_spec (length messages) 0) as [H0|H0];
    [split; [done|lia]|].
  destruct (Nat.ltb_spec 5 (length messages)) as [H5|H5];
    [split; [done|lia]|].
  destruct (fetch _) as [response|error]; cbn [mbind Result_bind try_catch].
  - destruct (ok response) eqn:Hok; cbn [negb].
    + split; [intros _|done].
      split; [done|]. split; [lia|]. by exists response.
    + split.
      * destruct (text response) as [s|error];
          cbn [mbind Result_bind try_catch instanceof new_ExternalServiceError
               err_class]; [by rewrite bool_decide_eq_true_2|].
        by destruct (instanceof ExternalServiceErrorClass error).
      * intros (_ & _ & response' & [= <-] & Hok'). congruence.
  - split.
    + by destruct (instanceof ExternalServiceErrorClass error).
    + by intros (_ & _ & response' & [=] & _).
Qed.

(** X18. Sending a reply succeeds exactly when the reply token is not
    empty, there are one to five messages, and the request to the reply end
    point is answered with a success status; and whatever goes wrong, what
    is thrown is an external-service error. *)
Theorem replyMessage_outcomes (replyToken : jsstring)
    (messages : list LineReplyMessage) :
  (replyMessage rt accessToken fetch replyToken messages = Ok tt <->
   replyToken <> [] /\ (1 <= length messages <= 5)%nat /\
   exists response,
     fetch {| url := baseUrl ++ js "/message/reply";
              method := js "POST";
              headers := [(js "Content-Type", js "application/json");
                          (js "Authorization", js "Bearer " ++ accessToken)];
              body := Some (replyToken, messages) |} = Ok response
     /\ ok response = true)
  /\
  (forall error,
     replyMessage rt accessToken fetch replyToken messages = Throw error ->
     instanceof ExternalServiceErrorClass error = true).
Proof.
  split; [apply replyMessage_ok_iff|].
  unfold replyMessage. intros error.
  case_bool_decide; [intros [= <-]; reflexivity|].
  destruct (_ =? _)%nat; [intros [= <-]; reflexivity|].
  destruct (_ <? _)%nat; [intros [= <-]; reflexivity|].
  by apply client_catch_class.
Qed.

(** X19. Sending a list of texts sends the first five of them as one
    reply, so the five-message limit of the reply is never what makes it
    fail: it succeeds exactly when the reply token is not empty, there is a
    text, and the request is answered with a success status. *)
Theorem sendTextMessages_outcomes (replyToken : jsstring)
    (texts : list jsstring) :
  sendTextMessages rt accessToken fetch replyToken texts =
    replyMessage rt accessToken fetch replyToken
      (map text_message (take 5 texts))
  /\
  (sendTextMessages rt accessToken fetch replyToken texts = Ok tt <->
   replyToken <> [] /\ texts <> [] /\
   exists response,
     fetch {| url := baseUrl ++ js "/message/reply";
              method := js "POST";
              headers := [(js "Content-Type", js "application/json");
                          (js "Authorization", js "Bearer " ++ accessToken)];
              body := Some (replyToken, map text_message (take 5 texts)) |}
       = Ok response
     /\ ok response = true).
Proof.
  assert (Heq : sendTextMessages rt accessToken fetch replyToken texts =
                replyMessage rt accessToken fetch replyToken
                  (map text_message (take 5 texts))).
  { unfold sendTextMessages.
    destruct (Nat.ltb_spec 5 (length texts)) as [H5|H5].
    - cbn [mbind Result_bind].
      by destruct (replyMessage _ _ _ _ _) as [[]|].
    - cbv zeta. by rewrite take_ge. }
  split; [exact Heq|]. rewrite Heq.
  rewrite replyMessage_ok_iff.
  rewrite length_map, length_take.
  split; intros (Htoken & Hlen & Hfetch); (split; [done|]); (split; [|done]).
  - intros ->. cbn in Hlen. lia.
  - destruct texts; [done|]. cbn [length]. lia.
Qed.

(** X20. Downloading the content of a message gives the bytes of the
    answer exactly when the message id is not empty, the content end point
    answers with a success status and the body can be read; whatever goes
    wrong, what is thrown is an external-service error. *)
Theorem downloadImage_outcomes (messageId : jsstring) (bytes : Buffer) :
  (downloadImage rt accessToken fetch messageId = Ok bytes <->
   messageId <> [] /\
   exists response,
     fetch {| url := baseUrl ++ js "/message/" ++ messageId ++ js "/content";
              method := js "GET";
              headers := [(js "Authorization", js "Bearer " ++ accessToken)];
              body := None |} = Ok response
     /\ ok response = true /\ arrayBuffer response = Ok bytes)
  /\
  (forall error,
     downloadImage rt accessToken fetch messageId = Throw error ->
     instanceof ExternalServiceErrorClass error = true).
Proof.
  unfold downloadImage. split.
  - case_bool_decide as Hid; [split; [done|tauto]|].
    destruct (fetch _) as [response|error]; cbn [mbind Result_bind try_catch].
    + destruct (ok response) eqn:Hok; cbn [negb].
      * destruct (arrayBuffer response) as [b|error] eqn:Hbuf;
          cbn [mbind Result_bind try_catch].
        -- split.
           ++ intros [= <-]. split; [done|]. by exists response.
           ++ intros (_ & response' & [= <-] & _ & Hb). congruence.
        -- split.
           ++ by destruct (instanceof ExternalServiceErrorClass error).
           ++ intros (_ & response' & [= <-] & _ & Hb). congruence.
      * split.
        -- destruct (text response) as [s|error];
             cbn [mbind Result_bind try_catch instanceof new_ExternalServiceError
                  err_class]; [by rewrite bool_decide_eq_true_2|].
           by destruct (instanceof ExternalServiceErrorClass error).
        -- intros (_ & response' & [= <-] & Hok' & _). congruence.
    + split.
      * by destruct (instanceof ExternalServiceErrorClass error).
      * by intros (_ & response' & [=] & _).
  - intros error.
    case_bool_decide; [intros [= <-]; reflexivity|].
    by apply client_catch_class.
Qed.

End LineClientResults.

Section QuickReplies.

Import MessageProcessor LineApiClient Spec.

(** X21. The quick reply for tag selection has a button for each of the
    first twelve tags, labelled with the tag and sending the tag, followed
    by the new-tag button: thirteen buttons at most.  The text that the
    new-tag button sends is read by the tag parser as the empty
    selection. *)
Theorem createTagSelectionQuickReply_shape (deps : Deps)
    (tags : list jsstring) :
  map action_text (items (createTagSelectionQuickReply tags))
    = take 12 tags ++ [js "新しいタグを作成"]
  /\ map label (items (createTagSelectionQuickReply tags))
    = take 12 tags ++ [js "新しいタグ"]
  /\ (length (items (createTagSelectionQuickReply tags)) <= 13)%nat
  /\ parseTagSelection deps (js "新しいタグを作成") = [].
Proof.
  unfold createTagSelectionQuickReply. cbv zeta. cbn [items].
  assert (Htake : take (Nat.min (length tags) 12) tags = take 12 tags).
  { destruct (Nat.le_ge_cases (length tags) 12) as [Hle|Hge].
    - rewrite Nat.min_l by done. by rewrite !take_ge by lia.
    - by rewrite Nat.min_r by done. }
  rewrite Htake, !map_app, !map_map. cbn [map label action_text].
  rewrite !map_id.
  split; [done|]. split; [done|]. split.
  - rewrite length_app, length_map, length_take. cbn [length]. lia.
  - by vm_compute.
Qed.

(** X22. The two buttons of the confirmation quick reply, pressed while the
    conversation waits for the confirmation: the text of the first one is
    not among the answers taken as a yes, so it gets the request to answer
    yes or no and changes nothing; the second one is the cancel command and
    brings the conversation back to idle. *)
Theorem confirmation_buttons (rt : Runtime) (deps : Deps) (now : Z)
    (st : ConversationState) :
  toLowerCase rt (js "公開する") = js "公開する" ->
  toLowerCase rt (js "キャンセル") = js "キャンセル" ->
  step st = CONFIRMING ->
  map (fun item => processTextMessage rt deps now (action_text item) st)
      (items createConfirmationQuickReply) =
  [ Ok (reply_only (
      js "「はい」または「いいえ」で回答してください。" ++ LF ++ LF ++
      js "投稿を公開する場合は「はい」" ++ LF ++
      js "キャンセルする場合は「いいえ」と送信してください。"));
    Ok {| nextState := Some (Storage.updateStateStep now st IDLE no_updates);
          responseMessage := Some (
            js "投稿作成をキャンセルしました。" ++ LF ++ LF ++
            js "新しい投稿を作成するには「投稿作成」と送信してください。") |} ].
Proof.
  intros Hpublish Hcancel Hstep.
  cbn [createConfirmationQuickReply items map action_text].
  unfold processTextMessage, isGlobalCommand, handleGlobalCommand,
    handleConfirmation. cbv zeta.
  assert (Ht1 : trim (js "公開する") = js "公開する") by (by vm_compute).
  assert (Ht2 : trim (js "キャンセル") = js "キャンセル") by (by vm_compute).
  rewrite Ht1, Ht2, Hpublish, Hcancel, Ht1, Hstep.
  assert (Hg1 : array_includes globalCommands (js "公開する") = false)
    by (by vm_compute).
  assert (Hg2 : array_includes globalCommands (js "キャンセル") = true)
    by (by vm_compute).
  rewrite Hg1, Hg2.
  assert (Ha : array_includes affirmative (js "公開する") = false)
    by (by vm_compute).
  assert (Hn : array_includes negative (js "公開する") = false)
    by (by vm_compute).
  rewrite Ha, Hn.
  assert (Hs : str_eqb (js "キャンセル") (js "投稿作成") = false)
    by (by vm_compute).
  assert (Hh : array_includes [js "ヘルプ"; js "help"] (js "キャンセル") = false)
    by (by vm_compute).
  assert (Hc : array_includes
                 [js "キャンセル"; js "cancel"; js "やめる"; js "中止"]
                 (js "キャンセル") = true) by (by vm_compute).
  rewrite Hs, Hh, Hc.
  cbn [ConversationFlow.canCancel].
  unfold ConversationFlow.transitionTo. rewrite ?Hstep.
  reflexivity.
Qed.

End QuickReplies.

Section QuickReplyExamples.

Import MessageProcessor LineApiClient Fixtures.

Lemma confirmation_buttons_witness :
  toLowerCase ascii_runtime (js "公開する") = js "公開する" /\
  toLowerCase ascii_runtime (js "キャンセル") = js "キャンセル" /\
  step (state_in CONFIRMING filled_data) = CONFIRMING /\
  map (fun item =>
         processTextMessage ascii_runtime deps_png 2000 (action_text item)
           (state_in CONFIRMING filled_data))
      (items createConfirmationQuickReply) =
  [ Ok (reply_only (
      js "「はい」または「いいえ」で回答してください。" ++ LF ++ LF ++
      js "投稿を公開する場合は「はい」" ++ LF ++
      js "キャンセルする場合は「いいえ」と送信してください。"));
    Ok {| nextState :=
            Some (Storage.updateStateStep 2000
                    (state_in CONFIRMING filled_data) IDLE no_updates);
          responseMessage := Some (
            js "投稿作成をキャンセルしました。" ++ LF ++ LF ++
            js "新しい投稿を作成するには「投稿作成」と送信してください。") |} ].
Proof.
  assert (H1 : toLowerCase ascii_runtime (js "公開する") = js "公開する")
    by (by vm_compute).
  assert (H2 : toLowerCase ascii_runtime (js "キャンセル") = js "キャンセル")
    by (by vm_compute).
  split; [exact H1|]. split; [exact H2|]. split; [reflexivity|].
  exact (confirmation_buttons ascii_runtime deps_png 2000
           (state_in CONFIRMING filled_data) H1 H2 eq_refl).
Defined.

End QuickReplyExamples.

(* ===================================================================== *)
(** ** The webhook handler *)
(* ===================================================================== *)

Section WebhookRequests.

Import ImageProcessor MessageProcessor ConversationManager WebhookHandler.

Variable channelSecret : jsstring.
Variable hmac_sha256_base64 : jsstring -> jsstring -> Result jsstring.
Variable JSON_parse : jsstring -> option Parsed.
Variable timestamp : jsstring.
Variable manager_processMessage :
  jsstring -> LineMessage -> jsstring -> M unit.
Variable manager_handleUserFollow : jsstring -> jsstring -> M unit.
Variable manager_handleUserUnfollow : jsstring -> M unit.

Local Abbreviation processLineEvent' :=
  (processLineEvent manager_processMessage manager_handleUserFollow
     manager_handleUserUnfollow).
Local Abbreviation handleRequest' :=
  (handleRequest channelSecret hmac_sha256_base64 JSON_parse timestamp
     manager_processMessage manager_handleUserFollow
     manager_handleUserUnfollow).

Lemma processLineEvent_returns (event : LineEvent) (w : World) :
  fst (processLineEvent' event w) = Ok tt.
Proof.
  unfold processLineEvent, try_catchM.
  match goal with
  | |- context [match ?run w with _ => _ end] => destruct (run w) as [[[]|t] w']
  end; reflexivity.
Qed.

(** The loop over the events never stops early. *)
Lemma for_each_processLineEvent (events : list LineEvent) (w : World) :
  for_each processLineEvent' events w =
    (Ok tt, foldl (fun w event => snd (processLineEvent' event w)) w events).
Proof.
  revert w. induction events as [|event events IH]; intros w; [reflexivity|].
  cbn [for_each foldl]. unfold mbind, M_bind.
  pose proof (processLineEvent_returns event w) as Hret.
  destruct (processLineEvent' event w) as [r w'].
  cbn [fst snd] in *. subst r. apply IH.
Qed.

(** X23. The handler answers every request: it never throws, and the status
    is 200, 400, 401, 405 or 500.  A request that is not answered with 200
    has had no effect: the conversation manager was not called for any of
    its events. *)
Theorem handleRequest_always_responds (event : APIGatewayEvent) (w : World) :
  exists response,
    fst (handleRequest' event w) = Ok response
    /\ statusCode response ∈ [200; 400; 401; 405; 500]
    /\ (statusCode response <> 200 -> snd (handleRequest' event w) = w).
Proof.
  unfold handleRequest, try_catchM. cbv zeta.
  repeat match goal with
         | |- context [if ?b then _ else _] =>
             lazymatch b with
             | context [if _ then _ else _] => fail
             | _ => destruct b
             end
         end;
    try (eexists; split; [reflexivity|]; split; [set_solver|done]).
  all: unfold mbind, M_bind, lift_result.
  all: destruct (parseLineEvents _ _) as [events|error].
  all: rewrite ?for_each_processLineEvent.
  all: try (eexists; split; [reflexivity|]; split; [set_solver|done]).
  all: destruct error as [e|r]; [destruct (is_LineBotError _)|].
  all: eexists; (split; [reflexivity|]); split; [set_solver|done].
Qed.

(** X24. A request is answered with 200 only if it is a POST whose
    signature header is the HMAC of the body under the channel secret and
    whose body parses into events; then every event has been handed on, in
    order, an event that fails not stopping the ones after it. *)
Theorem handleRequest_accepts (event : APIGatewayEvent) (w : World)
    (response : APIGatewayResponse) :
  fst (handleRequest' event w) = Ok response ->
  statusCode response = 200 ->
  httpMethod event = js "POST"
  /\ (exists signature,
        or_else (headers event !! js "x-line-signature")
                (headers event !! js "X-Line-Signature") = Some signature
        /\ hmac_sha256_base64 channelSecret (body event) = Ok signature)
  /\ (exists events,
        parseLineEvents JSON_parse (body event) = Ok events
        /\ snd (handleRequest' event w) =
           foldl (fun w event => snd (processLineEvent' event w)) w events).
Proof.
  unfold handleRequest, try_catchM. cbv zeta.
  destruct (str_eqb (httpMethod event) (js "POST")) eqn:Hmethod; cbn [negb];
    [|by intros [= <-]].
  destruct (_ || _); [by intros [= <-]|].
  case_bool_decide; [by intros [= <-]|].
  destruct (falsy_string _) eqn:Hsig; [by intros [= <-]|].
  destruct (validateSignature _ _ _ _) eqn:Hvalid; cbn [negb];
    [|by intros [= <-]].
  unfold mbind, M_bind, lift_result.
  destruct (parseLineEvents _ _) as [events|error] eqn:Hparse.
  - rewrite for_each_processLineEvent. cbn [fst snd]. intros _ _.
    split; [by apply str_eqb_true|]. split; [|by exists events].
    destruct (or_else _ _) as [signature|]; [|done].
    exists signature. split; [done|].
    unfold validateSignature in Hvalid. cbn [default id] in Hvalid.
    destruct (hmac_sha256_base64 _ _) as [hash|]; [|done].
    by apply str_eqb_true in Hvalid as ->.
  - destruct error as [e|r]; [destruct (is_LineBotError _)|];
      by intros [= <-].
Qed.




(** X26. Handling one event never throws: what the conversation manager
    throws is swallowed.  An event without a reply token leads to no call of
    the manager unless it is an unfollow event, and neither does a message
    event without a message or an event of any other type than message,
    follow and unfollow. *)
Theorem processLineEvent_swallows (event : LineEvent) (w : World) :
  fst (processLineEvent' event w) = Ok tt
  /\ (replyToken event = [] -> event_type event <> js "unfollow" ->
      processLineEvent' event w = (Ok tt, w))
  /\ (event_type event = js "message" -> message event = None ->
      processLineEvent' event w = (Ok tt, w))
  /\ (event_type event ∉ [js "message"; js "follow"; js "unfollow"] ->
      processLineEvent' event w = (Ok tt, w)).
Proof.
  split; [apply processLineEvent_returns|].
  unfold processLineEvent, try_catchM, handleMessageEvent, handleFollowEvent.
  split; [|split].
  - intros Htoken Hun. rewrite Htoken.
    rewrite bool_decide_eq_true_2 by done.
    destruct (str_eqb (event_type event) (js "message"));
      [by destruct (message event)|].
    destruct (str_eqb (event_type event) (js "follow")); [done|].
    destruct (str_eqb (event_type event) (js "unfollow")) eqn:E; [|done].
    by apply str_eqb_true in E.
  - intros -> ->. reflexivity.
  - intros Hnot.
    destruct (str_eqb (event_type event) (js "message")) eqn:E1;
      [apply str_eqb_true in E1; rewrite E1 in Hnot; set_solver|].
    destruct (str_eqb (event_type event) (js "follow")) eqn:E2;
      [apply str_eqb_true in E2; rewrite E2 in Hnot; set_solver|].
    destruct (str_eqb (event_type event) (js "unfollow")) eqn:E3;
      [apply str_eqb_true in E3; rewrite E3 in Hnot; set_solver|].
    reflexivity.
Qed.

End WebhookRequests.

Section WebhookExamples.

Import ImageProcessor MessageProcessor ConversationManager WebhookHandler
  Fixtures MoreFixtures.

Lemma handleRequest_accepts_witness :
  exists response,
    fst (handleRequest (js "secret") toy_hmac toy_parse (js "2024-01-02")
           (processMessage ascii_runtime deps_png 1000 2000)
           (handleUserFollow 1000) remove_session
           signed_request new_user_world) = Ok response
    /\ statusCode response = 200
    /\ (httpMethod signed_request = js "POST"
        /\ (exists signature,
              or_else (headers signed_request !! js "x-line-signature")
                      (headers signed_request !! js "X-Line-Signature")
                = Some signature
              /\ toy_hmac (js "secret") (body signed_request) = Ok signature)
        /\ (exists events,
              parseLineEvents toy_parse (body signed_request) = Ok events
              /\ snd (handleRequest (js "secret") toy_hmac toy_parse
                        (js "2024-01-02")
                        (processMessage ascii_runtime deps_png 1000 2000)
                        (handleUserFollow 1000) remove_session
                        signed_request new_user_world) =
                 foldl (fun w event =>
                          snd (processLineEvent
                                 (processMessage ascii_runtime deps_png 1000 2000)
                                 (handleUserFollow 1000) remove_session
                                 event w))
                       new_user_world events)).
Proof.
  exists (mkGatewayResponse 200 [(js "Content-Type", js "application/json")]
            (MessageBody (js "OK"))).
  split; [vm_compute; reflexivity|]. split; [reflexivity|].
  apply (handleRequest_accepts (js "secret") toy_hmac toy_parse
           (js "2024-01-02")
           (processMessage ascii_runtime deps_png 1000 2000)
           (handleUserFollow 1000) remove_session
           signed_request new_user_world
           (mkGatewayResponse 200
              [(js "Content-Type", js "application/json")]
              (MessageBody (js "OK"))));
    [vm_compute; reflexivity | reflexivity].
Defined.

End WebhookExamples.

(* ===================================================================== *)
(** ** The configuration and the factories *)
(* ===================================================================== *)

Section ConfigurationProperties.

Import ImageProcessor MessageProcessor ConversationManager Configuration.

Lemma filter_none_length {A} (f : A -> bool) (l : list A) :
  (0 <? length (List.filter f l))%nat = false <->
  Forall (fun x => f x = false) l.
Proof.
  induction l as [|x l IH]; cbn [List.filter].
  - split; [constructor|done].
  - destruct (f x) eqn:E; cbn [length].
    + split; [done|]. intros H. apply Forall_cons in H as [H _]. congruence.
    + rewrite IH. split; [by constructor|]. intros H.
      by apply Forall_cons in H as [_ H].
Qed.

(** X27. [loadConfig] returns exactly when the six required variables are
    set and not empty and, on Vercel, [KV_URL] is, or, elsewhere,
    [DYNAMODB_TABLE_NAME] and [S3_BUCKET_NAME] are. *)
Theorem loadConfig_returns_iff (env : gmap jsstring jsstring)
    (currentYear : Z) :
  (exists config, loadConfig env currentYear = Ok config) <->
  Forall (fun varName => truthy_string (env !! varName) = true)
         requiredEnvVars
  /\ (if truthy_string (env !! js "VERCEL")
      then truthy_string (env !! js "KV_URL") = true
      else truthy_string (env !! js "DYNAMODB_TABLE_NAME") = true
           /\ truthy_string (env !! js "S3_BUCKET_NAME") = true).
Proof.
  assert (Hreq : Forall (fun varName => truthy_string (env !! varName) = true)
                        requiredEnvVars
                 <-> Forall (fun varName => falsy_string (env !! varName) = false)
                            requiredEnvVars).
  { apply Forall_iff. intros v. unfold truthy_string.
    by destruct (falsy_string _). }
  rewrite Hreq, <- filter_none_length.
  unfold loadConfig. cbv zeta.
  destruct (0 <? length _)%nat; [split; [by intros [? [=]]|by intros [[=] _]]|].
  cbn [storage imageStorage storage_type imageStorage_type tableName kvUrl
       bucketName].
  unfold truthy_string.
  assert (Hk : str_eqb (js "vercel-kv") (js "dynamodb") = false) by done.
  assert (Hk' : str_eqb (js "vercel-kv") (js "vercel-kv") = true) by done.
  assert (Hd : str_eqb (js "dynamodb") (js "dynamodb") = true) by done.
  assert (Hd' : str_eqb (js "dynamodb") (js "vercel-kv") = false) by done.
  assert (Hb : str_eqb (js "vercel-blob") (js "s3") = false) by done.
  assert (Hs : str_eqb (js "s3") (js "s3") = true) by done.
  destruct (falsy_string (env !! js "VERCEL")); cbn [negb];
    rewrite ?Hk, ?Hk', ?Hd, ?Hd', ?Hb, ?Hs; cbn [andb].
  - destruct (falsy_string (env !! js "DYNAMODB_TABLE_NAME")); cbn [negb];
      [split; [by intros [? [=]]|by intros [_ [[=] _]]]|].
    destruct (falsy_string (env !! js "S3_BUCKET_NAME")); cbn [negb];
      [split; [by intros [? [=]]|by intros [_ [_ [=]]]]|].
    split; [done|]. intros _. by eexists.
  - destruct (falsy_string (env !! js "KV_URL")); cbn [negb];
      [split; [by intros [? [=]]|by intros [_ [=]]]|].
    split; [done|]. intros _. by eexists.
Qed.

(** X28. A configuration that [loadConfig] returns is accepted by both
    factories, which hand out Vercel KV with Vercel Blob on Vercel and
    DynamoDB with S3 elsewhere, never a mix; and of the checks of
    [validateConfig] only the one of the URL format can still fail. *)
Theorem loaded_config_is_accepted (env : gmap jsstring jsstring)
    (currentYear : Z) (valid_URL : jsstring -> bool) (config : FullConfig) :
  loadConfig env currentYear = Ok config ->
  (if truthy_string (env !! js "VERCEL")
   then createSessionStorage env config
          = Ok (VercelKVSessionStorage (env !! js "KV_URL"))
        /\ createImageProcessor config = Ok VercelBlobImageProcessor
   else createSessionStorage env config
          = Ok (DynamoDBSessionStorage
                  (default [] (env !! js "DYNAMODB_TABLE_NAME")))
        /\ createImageProcessor config
          = Ok (S3ImageProcessor (default [] (env !! js "S3_BUCKET_NAME"))
                                 (region (imageStorage config))))
  /\ (validateConfig valid_URL config = Ok tt <->
      valid_URL (baseUrl (blog config)) = true).
Proof.
  unfold loadConfig. cbv zeta.
  destruct (0 <? length _)%nat eqn:Hmissing; [done|].
  apply filter_none_length in Hmissing.
  cbn [storage imageStorage storage_type imageStorage_type tableName kvUrl
       bucketName].
  assert (Hvalid : forall v, v ∈ requiredEnvVars ->
                             default [] (env !! v) <> []).
  { intros v Hv. apply (proj1 (Forall_forall _ _) Hmissing) in Hv.
    by destruct (env !! v) as [[|]|]. }
  assert (Hcheck : forall c,
            channelSecret (line c)
              = default [] (env !! js "LINE_CHANNEL_SECRET") ->
            channelAccessToken (line c)
              = default [] (env !! js "LINE_CHANNEL_ACCESS_TOKEN") ->
            token (github c) = default [] (env !! js "GITHUB_TOKEN") ->
            owner (github c) = default [] (env !! js "GITHUB_OWNER") ->
            repo (github c) = default [] (env !! js "GITHUB_REPO") ->
            baseUrl (blog c) = default [] (env !! js "BLOG_BASE_URL") ->
            validateConfig valid_URL c = Ok tt <->
            valid_URL (baseUrl (blog c)) = true).
  { intros c H1 H2 H3 H4 H5 H6. unfold validateConfig.
    rewrite !bool_decide_eq_false_2;
      [ cbn [orb]; by destruct (valid_URL _) | .. ];
      first [ rewrite H1 | rewrite H2 | rewrite H3 | rewrite H4
            | rewrite H5 | rewrite H6 ];
      apply Hvalid; unfold requiredEnvVars; set_solver. }
  unfold truthy_string.
  assert (Hk : str_eqb (js "vercel-kv") (js "dynamodb") = false) by done.
  assert (Hk' : str_eqb (js "vercel-kv") (js "vercel-kv") = true) by done.
  assert (Hd : str_eqb (js "dynamodb") (js "dynamodb") = true) by done.
  assert (Hd' : str_eqb (js "dynamodb") (js "vercel-kv") = false) by done.
  assert (Hb : str_eqb (js "vercel-blob") (js "s3") = false) by done.
  assert (Hb' : str_eqb (js "vercel-blob") (js "vercel-blob") = true) by done.
  assert (Hs : str_eqb (js "s3") (js "s3") = true) by done.
  assert (Hs' : str_eqb (js "s3") (js "vercel-blob") = false) by done.
  destruct (falsy_string (env !! js "VERCEL")); cbn [negb];
    rewrite ?Hk, ?Hk', ?Hd, ?Hd', ?Hb, ?Hs; cbn [andb].
  - destruct (falsy_string (env !! js "DYNAMODB_TABLE_NAME")) eqn:Ht;
      cbn [negb]; [done|].
    destruct (falsy_string (env !! js "S3_BUCKET_NAME")) eqn:Hbk;
      cbn [negb]; [done|].
    intros [= <-]. split; [|by apply Hcheck].
    unfold createSessionStorage, createImageProcessor.
    cbn [storage imageStorage storage_type imageStorage_type tableName kvUrl
         bucketName region].
    by rewrite Hd', Hd, Ht, Hs', Hs, Hbk.
  - destruct (falsy_string (env !! js "KV_URL")) eqn:Hkv; cbn [negb]; [done|].
    intros [= <-]. split; [|by apply Hcheck].
    unfold createSessionStorage, createImageProcessor.
    cbn [storage imageStorage storage_type imageStorage_type tableName kvUrl
         bucketName region].
    by rewrite Hk', Hkv, Hb'.
Qed.

End ConfigurationProperties.

Section ConfigurationExamples.

Import Configuration EnvironmentFixtures.

Lemma loaded_config_is_accepted_witness :
  exists config,
    loadConfig vercel_env 2024 = Ok config
    /\ (if MessageProcessor.truthy_string (vercel_env !! js "VERCEL")
        then createSessionStorage vercel_env config
               = Ok (VercelKVSessionStorage (vercel_env !! js "KV_URL"))
             /\ createImageProcessor config = Ok VercelBlobImageProcessor
        else createSessionStorage vercel_env config
               = Ok (DynamoDBSessionStorage
                       (default [] (vercel_env !! js "DYNAMODB_TABLE_NAME")))
             /\ createImageProcessor config
               = Ok (S3ImageProcessor
                       (default [] (vercel_env !! js "S3_BUCKET_NAME"))
                       (region (imageStorage config))))
    /\ (validateConfig (fun _ => true) config = Ok tt <->
        (fun _ : jsstring => true) (baseUrl (blog config)) = true).
Proof.
  eexists. split; [vm_compute; reflexivity|].
  apply (loaded_config_is_accepted vercel_env 2024 (fun _ => true)).
  vm_compute. reflexivity.
Defined.

End ConfigurationExamples.

(* ===================================================================== *)
(** ** The manager on a store that cannot be read *)
(* ===================================================================== *)

Section StoreFailures.

Import ImageProcessor MessageProcessor ConversationManager Configuration
  Fixtures EnvironmentFixtures.

(** X29. When the read of the session fails, the manager throws the error
    wrapped as a failure to get the conversation state, after one attempt to
    reply with the error text chosen for it; the processor is not called and
    nothing is written.  For the error that every method of the DynamoDB
    storage throws, that text is the one of the session errors. *)
Theorem store_read_failure (rt : Runtime) (deps : Deps)
    (now_idle now_step : Z) (userId : jsstring) (message : LineMessage)
    (replyToken : jsstring) (w : World) (error : Thrown) :
  next_fault w = Some error ->
  fst (processMessage rt deps now_idle now_step userId message replyToken w)
    = Throw (ThrownError (new_Error
               (js "Failed to get conversation state: "
                  ++ string_of_thrown error)))
  /\ run_events rt deps now_idle now_step userId message replyToken w
     = [SessionGet userId;
        LineReply replyToken
          (getErrorMessage
             (ThrownError (new_Error
                (js "Failed to get conversation state: "
                   ++ string_of_thrown error))))]
  /\ sessions (snd (processMessage rt deps now_idle now_step userId message
                      replyToken w)) = sessions w
  /\ getErrorMessage
       (ThrownError (new_Error
          (js "Failed to get conversation state: "
             ++ string_of_thrown (ThrownError dynamodb_not_implemented))))
     = js "セッション管理でエラーが発生しました。「投稿作成」と送信して最初からやり直してください。".
Proof.
  intros Hfault.
  split; [|split; [|split; [|by vm_compute]]];
    revert Hfault;
    unfold run_events, processMessage, getCurrentState, updateState,
      processor_processMessage, try_catchM, throwM, sessionStorage_get,
      sessionStorage_set, lineClient_replyMessage, collaborator_call,
      next_fault, mbind, M_bind, mret, M_ret;
    destruct w as [store tr [|[t|] fl]]; cbn [faults]; intros [=]; subst t;
    cbv beta iota zeta delta [fst snd sessions trace faults tail];
    destruct fl as [|[t|] fl];
    cbv beta iota zeta delta [fst snd sessions trace faults tail];
    rewrite <- ?app_assoc, ?new_events_app; reflexivity.
Qed.

Lemma store_read_failure_witness :
  next_fault dynamodb_world = Some (ThrownError dynamodb_not_implemented)
  /\ run_events ascii_runtime deps_png 1000 2000 (js "U1")
       (textMessage (js "投稿作成")) (js "tok") dynamodb_world
     = [SessionGet (js "U1");
        LineReply (js "tok")
          (getErrorMessage
             (ThrownError (new_Error
                (js "Failed to get conversation state: "
                   ++ string_of_thrown
                        (ThrownError dynamodb_not_implemented)))))].
Proof.
  split; [reflexivity|].
  exact (proj1 (proj2 (store_read_failure ascii_runtime deps_png 1000 2000
                         (js "U1") (textMessage (js "投稿作成")) (js "tok")
                         dynamodb_world
                         (ThrownError dynamodb_not_implemented) eq_refl))).
Defined.

End StoreFailures.
